(** * tasknc: the in-memory task list engine of [tasknc.c]

    A shallow embedding of the task record, the comparator and the
    list sort, the filter pass, the search walk, the cursor check,
    the export parser, the reload, the sort and search keys and the
    drawing of the task list of [src/tasknc.c], with the properties
    of the specification stated and settled on it, and further
    properties of the code after them.

    Conventions of the embedding.
    - The task list is a doubly linked list whose nodes never move and
      whose links are written once, when the list is built.  A node is
      therefore identified with its position in the list: the store is
      a [list task] of payloads, a node pointer is a [nat], [NULL] is
      [None], and [next]/[prev] are computed from the position.
    - C integers are [Z]; the 16-bit fields ([short], [unsigned short])
      and the 8-bit [char] carry their wrap-around ([to_short],
      [to_ushort], [to_char]).
    - The screen is the list of the texts written to it, each with
      its colour pair, line and column.
    - [while] loops take a fuel argument, which the entry points
      supply; for the sort, the filter pass and the search walk it is
      proved sufficient.  [None] means that the C program
      dereferences [NULL] or reads outside its buffer, or that the
      fuel ran out. *)

From Stdlib Require Import ZArith Ascii String Lia Bool DecimalString.
From stdpp Require Import base tactics option list sorting.

Local Open Scope Z_scope.

(** ** C integers *)

Definition to_short (z : Z) : Z := (z + 32768) mod 65536 - 32768.
Definition to_ushort (z : Z) : Z := z mod 65536.

Definition code (c : ascii) : Z := Z.of_nat (nat_of_ascii c).
Definition NUL : ascii := "000"%char.

(** ** C strings

    A field of type [char *] is [option string]: [None] is [NULL].
    [strcmp] compares byte by byte as [unsigned char] and stops at the
    first difference or at the terminator; only its sign is used. *)

Fixpoint strcmp (x y : string) : Z :=
  match x, y with
  | EmptyString, EmptyString => 0
  | EmptyString, String d _ => 0 - code d
  | String c _, EmptyString => code c
  | String c x', String d y' =>
      if code c =? code d
      then (if code c =? 0 then 0 else strcmp x' y')
      else code c - code d
  end.

Definition str_eq (x y : string) : bool := strcmp x y =? 0.

(** ** The task record ([struct _task])

    [is_filtered] is a [char] that only ever holds 0 or 1 (1 in
    [malloc_task] and under [FILTER_CLEAR], the result of
    [match_string]/[task_match] otherwise); 1 means that the task is
    shown.  The links [prev]/[next] are the position in the store. *)

Record task := mk_task {
  index : Z;
  uuid : option string;
  tags : option string;
  start : Z;
  end_ : Z;
  entry : Z;
  due : Z;
  project : option string;
  priority : ascii;
  description : option string;
  is_filtered : bool
}.

Abbreviation node := nat (only parsing).

Definition next (l : list task) (p : node) : option node :=
  if decide (S p < length l)%nat then Some (S p) else None.

Definition prev (p : node) : option node :=
  match p with O => None | S q => Some q end.

(** ** compare_tasks

    The recursive calls of [compare_tasks] all pass a constant mode
    (['n'], ['p'] or ['r']), so each [case] body is a function of its
    own and [compare_tasks] is the [switch] that dispatches on the
    mode; [default:] shares the body of ['p']. *)

Definition compare_n (a b : task) : Z :=
  if index a <? index b then 1 else 0.

Definition compare_p (a b : task) : Z :=
  match project a with
  | None =>
      match project b with
      | Some _ => 1
      | None => 0
      end
  | Some pa =>
      match project b with
      | None => 0
      | Some pb =>
          let tmp := strcmp pa pb in
          let ret := if tmp <? 0 then 1 else 0 in
          if tmp =? 0 then compare_n a b else ret
      end
  end.

Definition compare_r (a b : task) : Z :=
  if Ascii.eqb (priority a) NUL then
    (if Ascii.eqb (priority b) NUL then compare_p a b else 0)
  else if Ascii.eqb (priority b) NUL then 1
  else if Ascii.eqb (priority a) (priority b) then compare_p a b
  else
    match priority b with
    | "M"%char => if Ascii.eqb (priority a) "H" then 1 else 0
    | "L"%char =>
        if Ascii.eqb (priority a) "M" || Ascii.eqb (priority a) "H"
        then 1 else 0
    | _ => 0
    end.

Definition compare_d (a b : task) : Z :=
  if due a =? 0 then
    (if due b =? 0 then compare_r a b else 0)
  else if due b =? 0 then 1
  else if due a <? due b then 1 else 0.

Definition compare_tasks (a b : task) (sort_mode : ascii) : Z :=
  match sort_mode with
  | "n"%char => compare_n a b
  | "d"%char => compare_d a b
  | "r"%char => compare_r a b
  | _ => compare_p a b
  end.

(** ** swap_tasks, sort_tasks, sort_wrapper *)

(** [swap_tasks] exchanges every payload field of two nodes, [index]
    and [is_filtered] included; the links stay. *)
Definition swap_tasks (a b : node) (l : list task) : option (list task) :=
  ta ← l !! a;
  tb ← l !! b;
  Some (<[b := ta]> (<[a := tb]> l)).

(** The scan of [sort_tasks]: [start] is compared with [cur], swapped
    when the comparator answers 1, until [cur] is [last]. *)
Fixpoint sort_scan (fuel : nat) (sort_mode : ascii) (start cur last : node)
    (l : list task) : option (list task) :=
  match fuel with
  | O => None
  | S fuel' =>
      ta ← l !! start;
      tb ← l !! cur;
      l1 ← (if compare_tasks ta tb sort_mode =? 1
            then swap_tasks start cur l else Some l);
      if decide (cur = last) then Some l1
      else cur' ← next l1 cur; sort_scan fuel' sort_mode start cur' last l1
  end.

Fixpoint sort_tasks (fuel : nat) (sort_mode : ascii) (first last : node)
    (l : list task) : option (list task) :=
  match fuel with
  | O => None
  | S fuel' =>
      if decide (first = last) then Some l
      else
        cur ← next l first;
        l1 ← sort_scan (length l) sort_mode first cur last l;
        (* the scan leaves cur = last *)
        l2 ← swap_tasks first last l1;
        let oldcur := last in
        l3 ← match prev last with
              | Some cur =>
                  if bool_decide (prev first ≠ Some cur)
                     && bool_decide (next l2 cur ≠ Some first)
                  then sort_tasks fuel' sort_mode first cur l2
                  else Some l2
              | None => Some l2
              end;
        match next l3 oldcur with
        | Some cur =>
            if bool_decide (prev cur ≠ Some last)
               && bool_decide (next l3 last ≠ Some cur)
            then sort_tasks fuel' sort_mode cur last l3
            else Some l3
        | None => Some l3
        end
  end.

Fixpoint find_last (fuel : nat) (l : list task) (last : node) : node :=
  match fuel with
  | O => last
  | S fuel' =>
      match next l last with
      | Some n => find_last fuel' l n
      | None => last
      end
  end.

(** [sort_wrapper(first)]: [first] is the head, position 0; a [NULL]
    head is dereferenced by the C code. *)
Definition sort_wrapper (sort_mode : ascii) (l : list task) : option (list task) :=
  _ ← l !! 0%nat;
  let last := find_last (length l) l 0%nat in
  sort_tasks (S (length l)) sort_mode 0%nat last l.

(** ** Filters and the global state *)

Definition FILTER_BY_STRING : Z := 0.
Definition FILTER_CLEAR : Z := 1.
Definition FILTER_DESCRIPTION : Z := 2.
Definition FILTER_TAGS : Z := 3.
Definition FILTER_PROJECT : Z := 4.

(** [struct _filter]: [filter_string] is the field [string]; the link
    [next] is the position in the chain [active_filters]. *)
Record task_filter := mk_filter {
  mode : Z;
  filter_string : option string
}.

(** The global variables and [cfg].  [statusbar] is the text that
    [statusbar_message] wrote last on the status line. *)
Record state := mk_state {
  cfg_sortmode : ascii;
  cfg_filter_persist : Z;
  cfg_filter_cascade : Z;
  pageoffset : Z;
  searchstring : option string;
  selline : Z;
  size0 : Z;
  size1 : Z;
  taskcount : Z;
  totaltaskcount : Z;
  active_filters : list task_filter;
  head : list task;
  statusbar : string
}.

Definition set_pageoffset (v : Z) (s : state) : state :=
  mk_state (cfg_sortmode s) (cfg_filter_persist s) (cfg_filter_cascade s)
    v (searchstring s) (selline s) (size0 s) (size1 s) (taskcount s)
    (totaltaskcount s) (active_filters s) (head s) (statusbar s).

Definition set_selline (v : Z) (s : state) : state :=
  mk_state (cfg_sortmode s) (cfg_filter_persist s) (cfg_filter_cascade s)
    (pageoffset s) (searchstring s) v (size0 s) (size1 s) (taskcount s)
    (totaltaskcount s) (active_filters s) (head s) (statusbar s).

Definition set_taskcount (v : Z) (s : state) : state :=
  mk_state (cfg_sortmode s) (cfg_filter_persist s) (cfg_filter_cascade s)
    (pageoffset s) (searchstring s) (selline s) (size0 s) (size1 s) v
    (totaltaskcount s) (active_filters s) (head s) (statusbar s).

Definition set_totaltaskcount (v : Z) (s : state) : state :=
  mk_state (cfg_sortmode s) (cfg_filter_persist s) (cfg_filter_cascade s)
    (pageoffset s) (searchstring s) (selline s) (size0 s) (size1 s)
    (taskcount s) v (active_filters s) (head s) (statusbar s).

Definition set_active_filters (v : list task_filter) (s : state) : state :=
  mk_state (cfg_sortmode s) (cfg_filter_persist s) (cfg_filter_cascade s)
    (pageoffset s) (searchstring s) (selline s) (size0 s) (size1 s)
    (taskcount s) (totaltaskcount s) v (head s) (statusbar s).

Definition set_head (v : list task) (s : state) : state :=
  mk_state (cfg_sortmode s) (cfg_filter_persist s) (cfg_filter_cascade s)
    (pageoffset s) (searchstring s) (selline s) (size0 s) (size1 s)
    (taskcount s) (totaltaskcount s) (active_filters s) v (statusbar s).

Definition statusbar_message (msg : string) (s : state) : state :=
  mk_state (cfg_sortmode s) (cfg_filter_persist s) (cfg_filter_cascade s)
    (pageoffset s) (searchstring s) (selline s) (size0 s) (size1 s)
    (taskcount s) (totaltaskcount s) (active_filters s) (head s) msg.

Definition wipe_statusbar (s : state) : state := statusbar_message EmptyString s.

Definition set_is_filtered (v : bool) (t : task) : task :=
  mk_task (index t) (uuid t) (tags t) (start t) (end_ t) (entry t) (due t)
    (project t) (priority t) (description t) v.

Definition set_index (v : Z) (t : task) : task :=
  mk_task v (uuid t) (tags t) (start t) (end_ t) (entry t) (due t)
    (project t) (priority t) (description t) (is_filtered t).

(** The pointer [head]: [NULL] for the empty list. *)
Definition head_ptr (l : list task) : option node :=
  match l with [] => None | _ :: _ => Some 0%nat end.

(** A [char] stored in [is_filtered]. *)
Definition flag (z : Z) : bool := negb (z =? 0).

(** The POSIX regular expressions of [<regex.h>]: [regcomp] with
    [REGEX_OPTS] answers [None] when it returns non-zero, and
    [regexec r h] is [true] when the return value is not
    [REG_NOMATCH]. *)
Class RegexLib := {
  regex_t : Type;
  regcomp : string -> option regex_t;
  regexec : regex_t -> string -> bool
}.

Section Engine.

Context {posix : RegexLib}.

(** ** match_string, task_match

    A [NULL] needle reaches [regcomp] only when the haystack is not
    [NULL]; [regcomp] then dereferences it ([None]). *)
Definition match_string (haystack needle : option string) : option Z :=
  match haystack with
  | None => Some 0
  | Some h =>
      n ← needle;
      match regcomp n with
      | None => Some 0
      | Some regex => Some (if regexec regex h then 1 else 0)
      end
  end.

Definition task_match (cur : task) (str : option string) : option Z :=
  m1 ← match_string (project cur) str;
  if negb (m1 =? 0) then Some 1
  else
    m2 ← match_string (description cur) str;
    if negb (m2 =? 0) then Some 1
    else
      m3 ← match_string (tags cur) str;
      if negb (m3 =? 0) then Some 1 else Some 0.

(** ** filter_tasks *)

(** [while (cur!=NULL && cur->is_filtered==0) { cur = cur->next;
    totaltaskcount++; }] *)
Fixpoint skip_hidden (fuel : nat) (cur : option node) (s : state)
    : option (option node * state) :=
  match fuel with
  | O => None
  | S fuel' =>
      match cur with
      | None => Some (None, s)
      | Some p =>
          t ← head s !! p;
          if is_filtered t then Some (cur, s)
          else skip_hidden fuel' (next (head s) p)
                 (set_totaltaskcount (totaltaskcount s + 1) s)
      end
  end.

(** The [switch] on the filter mode: the new flag of [cur] and, under
    [FILTER_CLEAR], the release of the chain of active filters. *)
Definition filter_case (this_filter : task_filter) (cur : task) (s : state)
    : option (Z * state) :=
  let filter_mode := mode this_filter in
  let filter_value := filter_string this_filter in
  if filter_mode =? FILTER_DESCRIPTION then
    m ← match_string (description cur) filter_value; Some (m, s)
  else if filter_mode =? FILTER_TAGS then
    m ← match_string (tags cur) filter_value; Some (m, s)
  else if filter_mode =? FILTER_PROJECT then
    m ← match_string (project cur) filter_value; Some (m, s)
  else if filter_mode =? FILTER_CLEAR then
    Some (1, match active_filters s with
             | [] => s
             | _ :: _ => set_active_filters [] s
             end)
  else
    m ← task_match cur filter_value; Some (m, s).

Fixpoint filter_loop (fuel : nat) (this_filter : task_filter)
    (cur : option node) (s : state) : option state :=
  match fuel with
  | O => None
  | S fuel' =>
      match cur with
      | None => Some s
      | Some p =>
          t ← head s !! p;
          '(m, s1) ← filter_case this_filter t s;
          let s2 := set_head (<[p := set_is_filtered (flag m) t]> (head s1)) s1 in
          let s3 := set_taskcount (taskcount s2 + Z.b2z (flag m)) s2 in
          let s4 := set_totaltaskcount (totaltaskcount s3 + 1) s3 in
          let cur1 := next (head s4) p in
          if negb (cfg_filter_persist s4 =? 0)
             && negb (mode this_filter =? FILTER_CLEAR)
          then
            '(cur2, s5) ← skip_hidden (S (length (head s4))) cur1 s4;
            filter_loop fuel' this_filter cur2 s5
          else filter_loop fuel' this_filter cur1 s4
      end
  end.

Definition filter_tasks (this_filter : task_filter) (s : state) : option state :=
  let cur := head_ptr (head s) in
  let s1 := set_totaltaskcount 0 (set_taskcount 0 s) in
  if negb (cfg_filter_persist s1 =? 0)
     && negb (mode this_filter =? FILTER_CLEAR)
  then
    '(cur1, s2) ← skip_hidden (S (length (head s1))) cur s1;
    filter_loop (S (length (head s2))) this_filter cur1 s2
  else filter_loop (S (length (head s1))) this_filter cur s1.

(** ** add_filter *)
Definition add_filter (this_filter : task_filter) (s : state) : option state :=
  if 0 <=? mode this_filter then
    s1 ← filter_tasks this_filter s;
    if negb (cfg_filter_persist s1 =? 0)
       && negb (mode this_filter =? FILTER_CLEAR)
    then
      if negb (cfg_filter_cascade s1 =? 0)
      then Some (set_active_filters (active_filters s1 ++ [this_filter]) s1)
      else Some (set_active_filters [this_filter] s1)
    else Some s1
  else Some s.

(** ** check_screen_size *)

Definition DATELENGTH : Z := 10.

(** [readings] are the sizes (columns, lines) that the successive
    calls of [getmaxyx] give; the loop ends on the first one that is
    large enough, and goes on waiting ([None]) when there is none. *)
Fixpoint check_screen_size (projlen : Z) (readings : list (Z * Z)) (s : state)
    : option state :=
  match readings with
  | [] => None
  | (columns, lines) :: rest =>
      if (columns <? DATELENGTH + 20 + projlen) || (lines <? 5)
      then check_screen_size projlen rest s
      else Some (mk_state (cfg_sortmode s) (cfg_filter_persist s)
                   (cfg_filter_cascade s) (pageoffset s) (searchstring s)
                   (selline s) columns lines (taskcount s)
                   (totaltaskcount s) (active_filters s) (head s)
                   (statusbar s))
  end.

(** ** check_curs_pos, key_scroll *)

Definition onscreentasks (s : state) : Z := to_short (size1 s - 3).

Definition check_curs_pos (s : state) : state :=
  let s1 :=
    if selline s <? 0 then set_selline 0 s
    else if selline s >=? taskcount s
         then set_selline (to_short (taskcount s - 1)) s
         else s in
  if selline s1 <? pageoffset s1 then set_pageoffset (selline s1) s1
  else if selline s1 >? pageoffset s1 + onscreentasks s1
       then set_pageoffset (to_short (selline s1 - onscreentasks s1)) s1
       else s1.

Definition key_scroll (direction : Z) (s : state) : state :=
  let s1 :=
    if direction =? -1 then
      (if selline s >? 0 then set_selline (to_short (selline s - 1)) s else s)
    else if direction =? 1 then
      (if selline s <? taskcount s - 1
       then set_selline (to_short (selline s + 1)) s else s)
    else if direction =? -2 then set_selline 0 s
    else if direction =? 2 then set_selline (to_short (taskcount s - 1)) s
    else s in
  check_curs_pos s1.

(** ** sel_task

    The walk from [head] along [next] is the recursion on the rest of
    the list; [p] is the node reached and [i] the [short] counter. *)
Fixpoint sel_task_from (l : list task) (p : node) (i : Z) (sel : Z)
    : option node :=
  match l with
  | [] => None
  | t :: l' =>
      let i' := to_short (i + Z.b2z (is_filtered t)) in
      if i' =? sel then Some p else sel_task_from l' (S p) i' sel
  end.

Definition sel_task (s : state) : option node :=
  sel_task_from (head s) 0%nat (-1) (selline s).

(** ** find_next_search_result *)

(** [printf] of a [NULL] string with [%s] writes [(null)]. *)
Definition no_matches_message (s : state) : string :=
  ("no matches: " ++ match searchstring s with
                     | Some str => str
                     | None => "(null)"
                     end)%string.

Fixpoint search_loop (fuel : nat) (pos cur : node) (s : state) : option state :=
  match fuel with
  | O => None
  | S fuel' =>
      (* the test of a candidate: match, full loop, or go on *)
      let check (c : node) (t : task) (s1 : state) : option state :=
        m ← task_match t (searchstring s1);
        if m =? 1 then Some s1
        else if decide (c = pos)
             then Some (statusbar_message (no_matches_message s1) s1)
             else search_loop fuel' pos c s1 in
      match next (head s) cur with
      | None =>
          c ← head_ptr (head s);
          t ← head s !! c;
          check c t (set_selline (if is_filtered t then 0 else -1) s)
      | Some c =>
          t ← head s !! c;
          if is_filtered t
          then check c t (set_selline (to_short (selline s + 1)) s)
          else search_loop fuel' pos c s
      end
  end.

Definition find_next_search_result (pos : option node) (s : state)
    : option state :=
  p ← pos;
  _ ← head s !! p;
  search_loop (length (head s)) p p s.

Definition key_search_next (s : state) : option state :=
  match searchstring s with
  | Some _ =>
      s1 ← find_next_search_result (sel_task s) s;
      Some (check_curs_pos s1)
  | None => Some (statusbar_message "no active search string" s)
  end.

(** ** key_filter

    [c] is the key read by [getch] and [tmpstr] the text read by
    [getstr].  [strchr] converts [c] to [char] and also finds the
    terminator. *)
Definition strchr_found (str : string) (c : Z) : bool :=
  (c mod 256 =? 0)
  || existsb (fun x => code x =? c mod 256) (list_ascii_of_string str).

(** The prompts: the mode prompt is wiped after [getch], and the
    pattern is asked for unless the key is [c] or [C]. *)
Definition key_filter_prompt (c : Z) (s : state) : state :=
  let s0 := wipe_statusbar
              (statusbar_message "filter by: Any Clear Proj Desc Tag" s) in
  if negb (strchr_found "cC" c)
  then statusbar_message "filter string: " s0 else s0.

(** The [switch (c)] that fills [this_filter], which starts with the
    mode -1 and no string. *)
Definition filter_of_key (c : Z) (tmpstr : string) (s : state)
    : task_filter * state :=
  if (c =? code "a") || (c =? code "A")
  then (mk_filter FILTER_BY_STRING (Some tmpstr), s)
  else if (c =? code "c") || (c =? code "C")
  then (mk_filter FILTER_CLEAR None, s)
  else if (c =? code "d") || (c =? code "D")
  then (mk_filter FILTER_DESCRIPTION (Some tmpstr), s)
  else if (c =? code "p") || (c =? code "P")
  then (mk_filter FILTER_PROJECT (Some tmpstr), s)
  else if (c =? code "t") || (c =? code "T")
  then (mk_filter FILTER_TAGS (Some tmpstr), s)
  else (mk_filter (-1) None, statusbar_message "invalid filter mode" s).

Definition key_filter (c : Z) (tmpstr : string) (s : state) : option state :=
  if negb (strchr_found "acdptACDPT" c)
  then Some (statusbar_message "invalid filter mode"
               (wipe_statusbar
                  (statusbar_message "filter by: Any Clear Proj Desc Tag" s)))
  else
    let '(this_filter, s2) :=
      filter_of_key c tmpstr (key_filter_prompt c s) in
    s3 ← add_filter this_filter s2;
    s4 ← (if taskcount s3 =? 0
          then s' ← filter_tasks (mk_filter FILTER_CLEAR None) s3;
               Some (statusbar_message "filter yielded no results; reset" s')
          else Some (statusbar_message "filter applied" s3));
    Some (check_curs_pos s4).

End Engine.

(** ** The line buffer of the parser

    [parse_task] works in place on the text of one line: [strtok] and
    the parser write terminators into it and the parser moves pointers
    across them.  The buffer is the list of its bytes, terminator
    included, and a pointer is an offset; an access outside the buffer
    has no result. *)

Abbreviation buffer := (list ascii) (only parsing).

Definition DQUOTE : ascii := "034"%char.

Definition poke (b : buffer) (p : nat) (c : ascii) : option buffer :=
  _ ← b !! p; Some (<[p := c]> b).

(** The C string that starts the list. *)
Fixpoint cstring (l : list ascii) : option string :=
  match l with
  | [] => None
  | c :: l' =>
      if Ascii.eqb c NUL then Some EmptyString
      else String c <$> cstring l'
  end.

Definition cstr_at (b : buffer) (p : nat) : option string :=
  cstring (drop p b).

(** [strchr(b + p, c)] for a character [c] other than the terminator:
    [Some None] is [NULL]. *)
Fixpoint strchr_in (l : list ascii) (c : ascii) (p : nat)
    : option (option nat) :=
  match l with
  | [] => None
  | x :: l' =>
      if Ascii.eqb x c then Some (Some p)
      else if Ascii.eqb x NUL then Some None
      else strchr_in l' c (S p)
  end.

Definition strchr (b : buffer) (p : nat) (c : ascii) : option (option nat) :=
  strchr_in (drop p b) c p.

(** [strtok(_, ",")], with its saved pointer [olds] made explicit:
    the token (or [NULL]), the buffer and the new saved pointer. *)
Fixpoint skip_commas (l : list ascii) (p : nat) : option nat :=
  match l with
  | [] => None
  | x :: l' => if Ascii.eqb x "," then skip_commas l' (S p) else Some p
  end.

Definition strtok (b : buffer) (olds : nat)
    : option (option nat * buffer * nat) :=
  s ← skip_commas (drop olds b) olds;
  c ← b !! s;
  if Ascii.eqb c NUL then Some (None, b, s)
  else
    e ← strchr b s ",";
    match e with
    | Some e' => b' ← poke b e' NUL; Some (Some s, b', S e')
    | None => tok ← cstr_at b s; Some (Some s, b, (s + String.length tok)%nat)
    end.

(** [strchr(str, c)] followed by [*divider = 0] on a string of its
    own: the text before the first [c], if there is one. *)
Fixpoint cut_at (c : ascii) (str : string) : option string :=
  match str with
  | EmptyString => None
  | String x str' =>
      if Ascii.eqb x c then Some EmptyString
      else String x <$> cut_at c str'
  end.

(** The buffer that holds a line: its bytes and the terminator. *)
Definition line_buffer (line : string) : buffer :=
  (list_ascii_of_string line ++ [NUL])%list.

(** ** remove_char *)

(** The inner [while (str[i]==remove || str[i]=='\0')] of
    [remove_char]: [offset] grows and [str[i]] is overwritten. *)
Fixpoint remove_skip (fuel : nat) (str : buffer) (i offset : nat)
    (remove : ascii) : option (buffer * nat) :=
  match fuel with
  | O => None
  | S fuel' =>
      c ← str !! i;
      if Ascii.eqb c remove || Ascii.eqb c NUL
      then
        c' ← str !! (i + S offset)%nat;
        str' ← poke str i c';
        remove_skip fuel' str' i (S offset) remove
      else Some (str, offset)
  end.

(** The [for (i=0; i<len; i++)] of [remove_char]; [n] is [len - i]. *)
Fixpoint remove_loop (n : nat) (str : buffer) (i offset : nat)
    (remove : ascii) : option buffer :=
  match n with
  | O => Some str
  | S n' =>
      c ← str !! (i + offset)%nat;
      if Ascii.eqb c NUL then Some str
      else
        str1 ← poke str i c;
        '(str2, offset2) ← remove_skip (length str1) str1 i offset remove;
        c2 ← str2 !! (i + offset2)%nat;
        if Ascii.eqb c2 NUL then Some str2
        else remove_loop n' str2 (S i) offset2 remove
  end.

Definition remove_char (str : buffer) (remove : ascii) : option buffer :=
  text ← cstr_at str 0;
  remove_loop (String.length text) str 0 0 remove.

(** [malloc(cap)] followed by [strcpy]: the copy has to fit. *)
Definition strcpy_new (cap : Z) (content : string) : option string :=
  if Z.of_nat (String.length content) <? cap then Some content else None.

Definition UUIDLENGTH : Z := 38.

Definition malloc_task : task :=
  mk_task 0 None None 0 0 0 0 None NUL None true.

(** The field lengths of [config.h]. *)
Class ConfigH := {
  PROJECTLENGTH : Z;
  DESCRIPTIONLENGTH : Z;
  TAGSLENGTH : Z
}.

(** [epoch_of] is the value that [strptime], [strftime] and [sscanf]
    leave in [tsk->due] for a date text. *)
Class LibcTime := {
  epoch_of : string -> Z
}.

Section Parser.

Context {config : ConfigH} {libc : LibcTime}.

(** The dispatch on the field name ("handle data"). *)
Definition handle_field (field content : string) (tsk : task) : option task :=
  if str_eq field "uuid" then
    u ← strcpy_new UUIDLENGTH content;
    Some (mk_task (index tsk) (Some u) (tags tsk) (start tsk) (end_ tsk)
            (entry tsk) (due tsk) (project tsk) (priority tsk)
            (description tsk) (is_filtered tsk))
  else if str_eq field "project" then
    p ← strcpy_new PROJECTLENGTH content;
    Some (mk_task (index tsk) (uuid tsk) (tags tsk) (start tsk) (end_ tsk)
            (entry tsk) (due tsk) (Some p) (priority tsk)
            (description tsk) (is_filtered tsk))
  else if str_eq field "description" then
    d ← strcpy_new DESCRIPTIONLENGTH content;
    Some (mk_task (index tsk) (uuid tsk) (tags tsk) (start tsk) (end_ tsk)
            (entry tsk) (due tsk) (project tsk) (priority tsk)
            (Some d) (is_filtered tsk))
  else if str_eq field "priority" then
    Some (mk_task (index tsk) (uuid tsk) (tags tsk) (start tsk) (end_ tsk)
            (entry tsk) (due tsk) (project tsk)
            (match content with EmptyString => NUL | String c _ => c end)
            (description tsk) (is_filtered tsk))
  else if str_eq field "due" then
    Some (mk_task (index tsk) (uuid tsk) (tags tsk) (start tsk) (end_ tsk)
            (entry tsk) (epoch_of content) (project tsk) (priority tsk)
            (description tsk) (is_filtered tsk))
  else if str_eq field "tags" then
    t ← strcpy_new TAGSLENGTH content;
    Some (mk_task (index tsk) (uuid tsk) (Some t) (start tsk) (end_ tsk)
            (entry tsk) (due tsk) (project tsk) (priority tsk)
            (description tsk) (is_filtered tsk))
  else Some tsk.

(** "handle commas": tokens are appended to [tmpcontent], the comma
    put back, until the end character shows up. *)
Fixpoint gather (fuel : nat) (b : buffer) (olds : nat) (tmpcontent : string)
    (endchar : ascii) : option (string * buffer * nat) :=
  match fuel with
  | O => None
  | S fuel' =>
      '(token, b1, olds1) ← strtok b olds;
      tok ← token;
      str ← cstr_at b1 tok;
      let tmp := (tmpcontent ++ "," ++ str)%string in
      match cut_at endchar tmp with
      | Some content => Some (content, b1, olds1)
      | None => gather fuel' b1 olds1 tmp endchar
      end
  end.

(** The [while (token != NULL)] loop of [parse_task]: the task filled
    so far and [tokencounter]. *)
Fixpoint parse_loop (fuel : nat) (token : option nat) (b : buffer)
    (olds : nat) (tsk : task) (tokencounter : Z) : option (task * Z) :=
  match fuel with
  | O => None
  | S fuel' =>
      match token with
      | None => Some (tsk, tokencounter)
      | Some tok =>
          let tokencounter := tokencounter + 1 in
          c0 ← b !! tok;
          let tok := if Ascii.eqb c0 "{" then S tok else tok in
          c1 ← b !! tok;
          let tok := if Ascii.eqb c1 DQUOTE then S tok else tok in
          d ← strchr b tok ":";
          match d with
          | None => Some (tsk, tokencounter)
          | Some divider =>
              b1 ← poke b divider NUL;
              b2 ← match divider with
                    | O => None
                    | S d' => poke b1 d' NUL
                    end;
              field ← cstr_at b2 tok;
              let content := (divider + 2)%nat in
              (* the end of the value is found, or tokens are gathered *)
              let value (endchar : ascii) : option (task * Z) :=
                d2 ← strchr b2 content endchar;
                '(text, b3, olds3) ←
                  match d2 with
                  | Some divider2 =>
                      b3 ← poke b2 divider2 NUL;
                      text ← cstr_at b3 content;
                      Some (text, b3, olds)
                  | None =>
                      tmpcontent ← cstr_at b2 content;
                      gather (length b2) b2 olds tmpcontent endchar
                  end;
                tsk' ← handle_field field text tsk;
                '(token', b4, olds4) ← strtok b3 olds3;
                parse_loop fuel' token' b4 olds4 tsk' tokencounter in
              if str_eq field "tags" || str_eq field "annotations"
              then value "]"%char
              else if str_eq field "id"
              then
                '(token', b3, olds3) ← strtok b2 olds;
                parse_loop fuel' token' b3 olds3 tsk tokencounter
              else value DQUOTE
          end
      end
  end.

(** [parse_task]: [Some None] is the return of [NULL]. *)
Definition parse_task (line : buffer) : option (option task) :=
  '(token, b, olds) ← strtok line 0%nat;
  '(tsk, tokencounter) ←
    parse_loop (S (length line)) token b olds malloc_task 0;
  if tokencounter <? 2 then Some None else Some (Some tsk).

(** ** get_tasks

    [lines] are the logical lines of the export, as the reading loop
    of [get_tasks] has joined them from the physical lines that
    [fgets] gives. *)

(** What the loop does with a line first: [remove_char(line, '\\')]
    and [parse_task(line)]. *)
Definition parse_line (line : string) : option (option task) :=
  b ← remove_char (line_buffer line) "\";
  parse_task b.

(** [hd] is the list reachable from [head]: when the [unsigned short]
    [counter] is 0 the new node becomes the head, otherwise it is
    linked behind [last].  A returned [NULL] is the empty list. *)
Fixpoint get_tasks_loop (lines : list string) (hd : list task) (counter : Z)
    : option (option (list task)) :=
  match lines with
  | [] => Some (Some hd)
  | line :: rest =>
      this ← parse_line line;
      match this with
      | None => Some None
      | Some this =>
          match uuid this, description this with
          | Some _, Some _ =>
              let this := set_index counter this in
              let hd' := if counter =? 0 then [this] else (hd ++ [this])%list in
              get_tasks_loop rest hd' (to_ushort (counter + 1))
          | _, _ => Some None
          end
      end
  end.

Definition get_tasks (sort_mode : ascii) (lines : list string)
    : option (list task) :=
  r ← get_tasks_loop lines [] 0;
  match r with
  | None => Some []
  | Some [] => Some []
  | Some hd => sort_wrapper sort_mode hd
  end.

End Parser.

(** ** task_count

    The walk from [head] along [next] is the recursion on the list. *)
Fixpoint task_count_loop (l : list task) (s : state) : state :=
  match l with
  | [] => s
  | _ :: l' =>
      task_count_loop l'
        (set_totaltaskcount (totaltaskcount s + 1)
           (set_taskcount (taskcount s + 1) s))
  end.

Definition task_count (s : state) : state :=
  task_count_loop (head s) (set_totaltaskcount 0 (set_taskcount 0 s)).

(** ** max_project_length

    [char] is the signed 8-bit type of the platforms [tasknc] is built
    for; [strlen] counts the characters before the first terminator. *)
Definition to_char (z : Z) : Z := (z + 128) mod 256 - 128.

Fixpoint c_str (str : string) : string :=
  match str with
  | EmptyString => EmptyString
  | String c str' =>
      if Ascii.eqb c NUL then EmptyString else String c (c_str str')
  end.

Definition strlen (str : string) : Z := Z.of_nat (String.length (c_str str)).

Fixpoint max_project_length_loop (l : list task) (len : Z) : Z :=
  match l with
  | [] => len
  | cur :: l' =>
      max_project_length_loop l'
        match project cur with
        | Some p =>
            let l := to_char (strlen p) in
            if l >? len then l else len
        | None => len
        end
  end.

Definition max_project_length (s : state) : Z :=
  to_char (max_project_length_loop (head s) 0 + 1).

(** ** pad_string

    [printf_s width str] is what [sprintf] writes for a conversion
    [%<width>s], the number being written by [%d]: a positive number
    is a field width (the text is right-justified), a negative one
    gives the flag [-] and a width (left-justified), and 0 reads as
    the flag [0] without a width. *)
Fixpoint spaces (n : nat) : string :=
  match n with
  | O => EmptyString
  | S n' => String " " (spaces n')
  end.

Definition printf_s (width : Z) (str : string) : string :=
  let len := Z.of_nat (String.length str) in
  if 0 <? width then (spaces (Z.to_nat (width - len)) ++ str)%string
  else if width <? 0 then (str ++ spaces (Z.to_nat (- width - len)))%string
  else str.

(** The text that [%d] writes. *)
Definition decimal (z : Z) : string := NilZero.string_of_int (Z.to_int z).

(** The format that [sprintf(ft, "%%%ds...", ...)] writes into [ft]. *)
Fixpoint format_of (widths : list Z) : string :=
  match widths with
  | [] => EmptyString
  | w :: rest => ("%" ++ decimal w ++ "s" ++ format_of rest)%string
  end.

(** [Some None] is the return of [NULL]; [None] is a write outside an
    allocated block: the dots of a cut put before the start of [str],
    a format that does not fit the 16 bytes of [ft], or a result that
    does not fit [ret]. *)
Definition pad_string (argstr : string) (length lpad rpad : Z) (align : ascii)
    : option (option string) :=
  let str := c_str argstr in
  if length - lpad - rpad =? 0 then Some None
  else
    str ← (if Z.of_nat (String.length str) >? length - lpad - rpad
           then
             if 3 <=? length - lpad - rpad
             then Some (substring 0 (Z.to_nat (length - lpad - rpad - 3)) str
                        ++ "...")%string
             else None
           else Some str);
    let slen := Z.of_nat (String.length str) in
    let '(rpad, length) :=
      if Ascii.eqb align "l" then (rpad + length - slen, slen)
      else (rpad, length) in
    let size := length + lpad + rpad + 1 in
    let '(ft, ret) :=
      if (0 <? lpad) && (0 <? rpad)
      then (format_of [lpad; length; rpad],
            (printf_s lpad " " ++ printf_s length str ++ printf_s rpad " ")%string)
      else if 0 <? lpad
      then (format_of [lpad; length],
            (printf_s lpad " " ++ printf_s length str)%string)
      else if 0 <? rpad
      then (format_of [length; rpad],
            (printf_s length str ++ printf_s rpad " ")%string)
      else (format_of [length], printf_s length str) in
    if (Z.of_nat (String.length ft) <? 16)
       && (Z.of_nat (String.length ret) <? size)
    then Some (Some ret) else None.

(** ** umvaddstr, print_task_list

    The screen is the list of the texts written, each with the colour
    pair in force, its line and its column.  [umvaddstr] takes the
    length of its argument first: a [NULL] text is dereferenced. *)
Record drawn := mk_drawn {
  color_pair : Z;
  row : Z;
  col : Z;
  text : string
}.

Definition umvaddstr (pair y x : Z) (str : option string)
    (screen : list drawn) : option (list drawn) :=
  str ← str; Some (screen ++ [mk_drawn pair y x str]).

(** [utc_date] formats a time with [strptime], [localtime] and
    [strftime]: its text depends on the clock and on the time zone. *)
Class LibcClock := {
  utc_date : Z -> string
}.

Section Screen.

Context {clock : LibcClock}.

Fixpoint print_task_list_loop (l : list task) (projlen desclen datelen : Z)
    (s : state) (counter thisline : Z) (screen : list drawn)
    : option (list drawn) :=
  match l with
  | [] => Some screen
  | cur :: l' =>
      let skip :=
        negb (is_filtered cur)
        || (counter <? pageoffset s)
        || (counter >? pageoffset s + onscreentasks s) in
      if skip
      then print_task_list_loop l' projlen desclen datelen s
             (if is_filtered cur then to_short (counter + 1) else counter)
             thisline screen
      else
        let sel := if counter =? selline s then 1 else 0 in
        let thisline := to_short (thisline + 1) in
        bufstr ← pad_string match project cur with
                            | None => " "
                            | Some p => p
                            end projlen 0 1 "r";
        screen ← umvaddstr (2 + 3 * sel) thisline 0 bufstr screen;
        d ← description cur;
        bufstr ← pad_string d desclen 0 1 "l";
        screen ← umvaddstr (3 + 3 * sel) thisline (projlen + 1) bufstr screen;
        bufstr ← (if negb (due cur =? 0)
                  then pad_string (utc_date (due cur)) datelen 0 0 "r"
                  else if negb (Ascii.eqb (priority cur) NUL)
                  then pad_string (String (priority cur) EmptyString)
                         datelen 0 0 "r"
                  else pad_string " " datelen 0 0 "r");
        screen ← umvaddstr (4 + 3 * sel) thisline (projlen + desclen + 1)
                   bufstr screen;
        print_task_list_loop l' projlen desclen datelen s
          (to_short (counter + 1)) thisline screen
  end.

Definition print_task_list (projlen desclen datelen : Z) (s : state)
    (screen : list drawn) : option (list drawn) :=
  print_task_list_loop (head s) projlen desclen datelen s 0 0 screen.

End Screen.

(** ** key_sort

    [m] is the key read by [getch], stored in a [char]. *)
Definition set_cfg_sortmode (v : ascii) (s : state) : state :=
  mk_state v (cfg_filter_persist s) (cfg_filter_cascade s)
    (pageoffset s) (searchstring s) (selline s) (size0 s) (size1 s)
    (taskcount s) (totaltaskcount s) (active_filters s) (head s) (statusbar s).

Definition ascii_of_char (z : Z) : ascii := ascii_of_nat (Z.to_nat (z mod 256)).

Definition key_sort (m : Z) (s : state) : option state :=
  let s := statusbar_message
             "enter sort mode: iNdex, Project, Due, pRiority" s in
  let m := to_char m in
  if (m =? code "n") || (m =? code "p") || (m =? code "d") || (m =? code "r")
  then
    let s := set_cfg_sortmode (ascii_of_char m) s in
    hd ← sort_wrapper (cfg_sortmode s) (head s); Some (set_head hd s)
  else if (m =? code "N") || (m =? code "P") || (m =? code "D")
          || (m =? code "R")
  then
    let s := set_cfg_sortmode (ascii_of_char (m + 32)) s in
    hd ← sort_wrapper (cfg_sortmode s) (head s); Some (set_head hd s)
  else Some (statusbar_message "invalid sort mode" s).

(** ** key_search

    [str] is the text read by [getstr]; with its terminator it has
    to fit the [size[0]-16] bytes allocated for [searchstring]. *)
Definition set_searchstring (v : option string) (s : state) : state :=
  mk_state (cfg_sortmode s) (cfg_filter_persist s) (cfg_filter_cascade s)
    (pageoffset s) v (selline s) (size0 s) (size1 s)
    (taskcount s) (totaltaskcount s) (active_filters s) (head s) (statusbar s).

Section Search.

Context {posix : RegexLib}.

Definition key_search (str : string) (s : state) : option state :=
  let s := statusbar_message "search phrase: " s in
  if Z.of_nat (String.length str) <? size0 s - 16
  then
    let s := set_searchstring (Some str) s in
    s ← find_next_search_result (sel_task s) s;
    Some (check_curs_pos s)
  else None.

End Search.

(** ** reload_tasks and the reload of nc_main

    [lines] are the lines that the export gives at this run. *)
Section Reload.

Context {posix : RegexLib} {config : ConfigH} {libc : LibcTime}.

Definition reload_tasks (lines : list string) (s : state) : option state :=
  hd ← get_tasks (cfg_sortmode s) lines; Some (set_head hd s).

(** The branch [if (reload==1)] of the loop of [nc_main], up to the
    cursor check. *)
Definition nc_main_reload (lines : list string) (s : state) : option state :=
  s ← reload_tasks lines s;
  let s := task_count s in
  s ← match active_filters s with
       | [] => Some s
       | this_filter :: _ => filter_tasks this_filter s
       end;
  Some (check_curs_pos s).

End Reload.

(** * The vocabulary of the properties

    Predicates and functions that the statements below are written
    with; none of them is part of the program. *)

(** ** Order and sortedness *)

(** [a] sorts before [b]: the comparator answers 1 on [(a, b)] and 0
    on [(b, a)], so the sort puts [a] first whichever came first. *)
Definition sorts_before (sort_mode : ascii) (a b : task) : Prop :=
  compare_tasks a b sort_mode = 1 /\ compare_tasks b a sort_mode = 0.

(** A step of the sort that only touches the nodes [lo..hi]: the list
    keeps its length, the nodes outside stay, and what holds of every
    payload of the segment still holds of every payload of it. *)
Definition seg_pres (lo hi : nat) (l l' : list task) : Prop :=
  length l' = length l /\
  (forall i, (i < lo \/ hi < i)%nat -> l' !! i = l !! i) /\
  (forall Q : task -> Prop,
     (forall i t, (lo <= i <= hi)%nat -> l !! i = Some t -> Q t) ->
     forall i t, (lo <= i <= hi)%nat -> l' !! i = Some t -> Q t).

(** Ascending indexes on the nodes [lo..hi]. *)
Definition index_sorted (lo hi : nat) (l : list task) : Prop :=
  forall i j ti tj, (lo <= i)%nat -> (i <= j)%nat -> (j <= hi)%nat ->
    l !! i = Some ti -> l !! j = Some tj -> index ti <= index tj.

(** ** Counting and framing for the filter pass *)

(** The number of tasks shown. *)
Definition count_visible (l : list task) : Z :=
  foldr (fun t acc => Z.b2z (is_filtered t) + acc) 0 l.

(** The globals that the filter pass leaves as they are: everything
    but the list, the two counters and the chain. *)
Record frame (s s' : state) : Prop := mk_frame {
  frame_sortmode : cfg_sortmode s' = cfg_sortmode s;
  frame_persist : cfg_filter_persist s' = cfg_filter_persist s;
  frame_cascade : cfg_filter_cascade s' = cfg_filter_cascade s;
  frame_pageoffset : pageoffset s' = pageoffset s;
  frame_searchstring : searchstring s' = searchstring s;
  frame_selline : selline s' = selline s;
  frame_size0 : size0 s' = size0 s;
  frame_size1 : size1 s' = size1 s;
  frame_statusbar : statusbar s' = statusbar s
}.

(** The node that a pointer stands for, the end of the list for [NULL]. *)
Definition pos_of (l : list task) (cur : option nat) : nat :=
  match cur with Some p => p | None => length l end.

(** A filter as [key_filter] builds it: it is [FILTER_CLEAR] or it
    carries a pattern. *)
Definition well_formed_filter (f : task_filter) : Prop :=
  mode f = FILTER_CLEAR \/ is_Some (filter_string f).

(** The keys that [key_filter] takes for a filter mode. *)
Definition valid_filter_key (c : Z) : Prop :=
  In c (map code ["a"; "c"; "d"; "p"; "t"; "A"; "C"; "D"; "P"; "T"]%char).

Definition clear_key (c : Z) : Prop := c = code "c" \/ c = code "C".

(** Whether the pass keeps what is hidden: persistence is on and the
    filter is not [FILTER_CLEAR]. *)
Definition keeps_hidden (f : task_filter) (s : state) : bool :=
  negb (cfg_filter_persist s =? 0) && negb (mode f =? FILTER_CLEAR).

(** One turn of the loop of [filter_tasks]. *)
Definition filter_turn (p : nat) (t : task) (m : Z) (s1 : state) : state :=
  set_totaltaskcount (totaltaskcount s1 + 1)
    (set_taskcount (taskcount s1 + Z.b2z (flag m))
       (set_head (<[p := set_is_filtered (flag m) t]> (head s1)) s1)).

Section EngineVocabulary.

Context {posix : RegexLib}.

(** The value that the [switch] of [filter_tasks] stores for a task. *)
Definition filter_match (f : task_filter) (t : task) : option Z :=
  if mode f =? FILTER_DESCRIPTION
  then match_string (description t) (filter_string f)
  else if mode f =? FILTER_TAGS
  then match_string (tags t) (filter_string f)
  else if mode f =? FILTER_PROJECT
  then match_string (project t) (filter_string f)
  else if mode f =? FILTER_CLEAR then Some 1
  else task_match t (filter_string f).

(** What one pass makes of a task. *)
Definition refilter (keep : bool) (f : task_filter) (t : task) : option task :=
  if keep && negb (is_filtered t) then Some t
  else m ← filter_match f t; Some (set_is_filtered (flag m) t).

(** What the walk does with a candidate [c]. *)
Definition search_check (fuel : nat) (pos c : nat) (t : task) (s1 : state)
    : option state :=
  m ← task_match t (searchstring s1);
  if m =? 1 then Some s1
  else if decide (c = pos)
       then Some (statusbar_message (no_matches_message s1) s1)
       else search_loop fuel pos c s1.

End EngineVocabulary.

(** Where the walk ends when no candidate but the start matches: on
    the start, with the selected line it had; the start is accepted
    when it matches ([mp] is 1), "no matches" is written otherwise. *)
Definition search_end (s0 : state) (p : nat) (mp : Z) : state :=
  let s1 := set_selline (count_visible (take (S p) (head s0)) - 1) s0 in
  if mp =? 1 then s1 else statusbar_message (no_matches_message s0) s1.

(** ** The cursor *)

Definition is_short (z : Z) : Prop := -32768 <= z <= 32767.

(** The selected line is a line of the list and is on the page. *)
Definition in_view (s : state) : Prop :=
  0 <= selline s <= taskcount s - 1 /\
  pageoffset s <= selline s <= pageoffset s + onscreentasks s.

(** The state after the keys [directions], each handled by
    [key_scroll], and a last [check_curs_pos]. *)
Definition scroll_run (directions : list Z) (s : state) : state :=
  check_curs_pos (foldl (fun s d => key_scroll d s) s directions).

(** ** Records of the export *)

Section ParserVocabulary.

Context {config : ConfigH} {libc : LibcTime}.

(** A line that gives a record with its uuid and its description. *)
Definition complete_record (line : string) : Prop :=
  exists tsk, parse_line line = Some (Some tsk) /\
    is_Some (uuid tsk) /\ is_Some (description tsk).

(** A line on which [get_tasks] gives up: [parse_task] returns
    [NULL], or the record lacks its uuid or its description. *)
Definition rejected_record (line : string) : Prop :=
  parse_line line = Some None \/
  exists tsk, parse_line line = Some (Some tsk) /\
    (uuid tsk = None \/ description tsk = None).

End ParserVocabulary.

(** ** The order that a sort leaves

    No node of [l] is followed by one that the comparator puts before it. *)
Definition ordered (sort_mode : ascii) (l : list task) : Prop :=
  forall i j ti tj, (i < j)%nat -> l !! i = Some ti -> l !! j = Some tj ->
    compare_tasks tj ti sort_mode <> 1.

Definition ordered_seg (sort_mode : ascii) (lo hi : nat) (l : list task) : Prop :=
  forall i j ti tj, (lo <= i)%nat -> (i < j)%nat -> (j <= hi)%nat ->
    l !! i = Some ti -> l !! j = Some tj -> compare_tasks tj ti sort_mode <> 1.

(** The priorities that the inner [switch] of mode ['r'] knows. *)
Definition known_priority (c : ascii) : Prop :=
  c = "H"%char \/ c = "M"%char \/ c = "L"%char.

(** ** The screen

    The text that [pad_string] keeps of [argstr] in [w] columns: the
    text is cut, and ends with three dots, when it is longer. *)
Definition cut_text (argstr : string) (w : Z) : string :=
  let str := c_str argstr in
  if Z.of_nat (String.length str) >? w
  then (substring 0 (Z.to_nat (w - 3)) str ++ "...")%string
  else str.

Section ScreenVocabulary.

Context {clock : LibcClock}.

(** The three texts of a task on its line: project, description, and
    due date or priority. *)
Definition draw_task (projlen desclen datelen : Z) (sel thisline : Z)
    (cur : task) (screen : list drawn) : option (list drawn) :=
  bufstr ← pad_string match project cur with
                      | None => " "
                      | Some p => p
                      end projlen 0 1 "r";
  screen ← umvaddstr (2 + 3 * sel) thisline 0 bufstr screen;
  d ← description cur;
  bufstr ← pad_string d desclen 0 1 "l";
  screen ← umvaddstr (3 + 3 * sel) thisline (projlen + 1) bufstr screen;
  bufstr ← (if negb (due cur =? 0)
            then pad_string (utc_date (due cur)) datelen 0 0 "r"
            else if negb (Ascii.eqb (priority cur) NUL)
            then pad_string (String (priority cur) EmptyString)
                   datelen 0 0 "r"
            else pad_string " " datelen 0 0 "r");
  umvaddstr (4 + 3 * sel) thisline (projlen + desclen + 1) bufstr screen.

(** The tasks of a page drawn one per line, the first on line
    [k + 1]; the task whose rank among the tasks shown is the
    selected line gets the selection colours. *)
Fixpoint draw_page (page : list task) (projlen desclen datelen : Z)
    (s : state) (k : Z) (screen : list drawn) : option (list drawn) :=
  match page with
  | [] => Some screen
  | cur :: rest =>
      screen ← draw_task projlen desclen datelen
                 (if pageoffset s + k =? selline s then 1 else 0)
                 (k + 1) cur screen;
      draw_page rest projlen desclen datelen s (k + 1) screen
  end.

End ScreenVocabulary.

(** The tasks shown, in the order of the list. *)
Definition shown (l : list task) : list task := List.filter is_filtered l.

(** The tasks of the page: those shown whose rank is between
    [pageoffset] and [pageoffset + onscreentasks]. *)
Definition page_of (s : state) : list task :=
  take (Z.to_nat (onscreentasks s + 1))
    (drop (Z.to_nat (pageoffset s)) (shown (head s))).

(** A text in a field, as [pad_string] lays it out when the field is
    wide enough: cut to [length - lpad - rpad] columns, then set to
    the right of [lpad + length] columns and followed by [rpad]
    spaces, or set to the left and filled up with spaces. *)
Definition right_justified (str : string) (length lpad rpad : Z) : string :=
  let txt := cut_text str (length - lpad - rpad) in
  (spaces (Z.to_nat (lpad + length - Z.of_nat (String.length txt)))
   ++ txt ++ spaces (Z.to_nat rpad))%string.

Definition left_justified (str : string) (length lpad rpad : Z) : string :=
  let txt := cut_text str (length - lpad - rpad) in
  (spaces (Z.to_nat lpad) ++ txt
   ++ spaces (Z.to_nat (rpad + length - Z.of_nat (String.length txt))))%string.

Section RowVocabulary.

Context {clock : LibcClock}.

(** The text of the third column. *)
Definition date_text (cur : task) : string :=
  if negb (due cur =? 0) then utc_date (due cur)
  else if negb (Ascii.eqb (priority cur) NUL)
  then String (priority cur) EmptyString
  else " ".

Definition project_text (cur : task) : string :=
  match project cur with None => " " | Some p => p end.

(** The line of a task. *)
Definition row_of (projlen desclen datelen sel thisline : Z) (cur : task)
    : list drawn :=
  [mk_drawn (2 + 3 * sel) thisline 0
     (right_justified (project_text cur) projlen 0 1);
   mk_drawn (3 + 3 * sel) thisline (projlen + 1)
     (left_justified (default EmptyString (description cur)) desclen 0 1);
   mk_drawn (4 + 3 * sel) thisline (projlen + desclen + 1)
     (right_justified (date_text cur) datelen 0 0)].

Fixpoint rows_of (page : list task) (projlen desclen datelen : Z) (s : state)
    (k : Z) : list drawn :=
  match page with
  | [] => []
  | cur :: rest =>
      row_of projlen desclen datelen
        (if pageoffset s + k =? selline s then 1 else 0) (k + 1) cur
      ++ rows_of rest projlen desclen datelen s (k + 1)
  end.

End RowVocabulary.

(** ** Keys

    The sort mode that [key_sort] takes from a key: the four letters,
    in either case. *)
Definition sort_mode_of_key (m : Z) : option ascii :=
  if (m =? code "n") || (m =? code "N") then Some "n"%char
  else if (m =? code "p") || (m =? code "P") then Some "p"%char
  else if (m =? code "d") || (m =? code "D") then Some "d"%char
  else if (m =? code "r") || (m =? code "R") then Some "r"%char
  else None.

(** ** The selected task and the search

    The nodes that the walk from [p] goes over before it comes to
    [q]: those between them, around the end of the list when [q] is
    not after [p]. *)
Definition passed (p q i : nat) : Prop :=
  if decide (p < q)%nat then (p < i < q)%nat else (p < i \/ i < q)%nat.

(** The rank of the node [q] among the tasks shown, from 0. *)
Definition rank_of (l : list task) (q : nat) : Z :=
  count_visible (take (S q) l) - 1.

(** ** Loading

    A record as [get_tasks] accepts it: shown, with its uuid and its
    description. *)
Definition loaded (t : task) : Prop :=
  is_filtered t = true /\ is_Some (uuid t) /\ is_Some (description t).

(** ** Removing a character

    The characters that [remove_char] keeps. *)
Definition kept_chars (remove : ascii) (l : list ascii) : list ascii :=
  List.filter (fun c => negb (Ascii.eqb c remove)) l.

(** What [remove_char] leaves of a text: the characters kept, moved
    to the front, and behind them the end of the text as it was; the
    text keeps its length. *)
Definition removed (remove : ascii) (l : list ascii) : list ascii :=
  kept_chars remove l ++ drop (length (kept_chars remove l)) l.

(** ** Concrete inputs *)

(** A record for the examples: a payload with an index, a project
    and a due date. *)
Definition sample_task (i : Z) (p : option string) (d : Z) : task :=
  mk_task i (Some "u"%string) None 0 0 0 d p NUL (Some "d"%string) true.

(** A record for the examples: a payload with an index, a project
    and a description. *)
Definition described (i : Z) (p : option string) (d : string) : task :=
  mk_task i (Some "u"%string) None 0 0 0 0 p NUL (Some d) true.

(** An export line written with apostrophes for the double quotes. *)
Fixpoint quoted (str : string) : string :=
  match str with
  | EmptyString => EmptyString
  | String c str' =>
      String (if Ascii.eqb c "'" then DQUOTE else c) (quoted str')
  end.

(** The parser on concrete lines: the lengths of a [config.h] and a
    date conversion that is not looked at. *)
Definition sample_config : ConfigH :=
  {| PROJECTLENGTH := 64; DESCRIPTIONLENGTH := 256; TAGSLENGTH := 64 |}.

Definition sample_libc : LibcTime := {| epoch_of := fun _ => 0 |}.

Definition sample_get_tasks : ascii -> list string -> option (list task) :=
  get_tasks (config := sample_config) (libc := sample_libc).

Definition sample_parse_line : string -> option (option task) :=
  parse_line (config := sample_config) (libc := sample_libc).

(** A matcher to run the engine on concrete inputs: a pattern is a
    plain text, found anywhere in the haystack, and a pattern with an
    opening parenthesis does not compile. *)
Fixpoint prefixb (pat str : string) : bool :=
  match pat, str with
  | EmptyString, _ => true
  | String a pat', String b str' => Ascii.eqb a b && prefixb pat' str'
  | String _ _, EmptyString => false
  end.

Fixpoint substringb (pat str : string) : bool :=
  prefixb pat str ||
  match str with
  | EmptyString => false
  | String _ str' => substringb pat str'
  end.

Definition sample_regcomp (pat : string) : option string :=
  if existsb (Ascii.eqb "(") (list_ascii_of_string pat) then None
  else Some pat.

Definition sample_regexec (regex haystack : string) : bool :=
  substringb regex haystack.

Definition sample_regex : RegexLib :=
  {| regex_t := string; regcomp := sample_regcomp; regexec := sample_regexec |}.

(** A state for the examples: persistence and cascade on, a screen of
    80 columns and 24 lines, every task counted. *)
Definition sample_state (l : list task) (sel : Z) (search : option string)
    : state :=
  mk_state "n" 1 1 0 search sel 80 24
    (Z.of_nat (length l)) (Z.of_nat (length l)) [] l EmptyString.

(** A clock for the examples: every date reads the same. *)
Definition sample_clock : LibcClock := {| utc_date := fun _ => "May 17"%string |}.

(** * Properties *)

(** ** C integers and strings *)

Lemma to_short_id (z : Z) : -32768 <= z <= 32767 -> to_short z = z.
Proof. intros H. unfold to_short. rewrite Z.mod_small; lia. Qed.

Lemma to_short_range (z : Z) : -32768 <= to_short z <= 32767.
Proof.
  unfold to_short.
  pose proof (Z.mod_pos_bound (z + 32768) 65536 ltac:(lia)). lia.
Qed.

Lemma strcmp_swap (x y : string) : strcmp y x = - strcmp x y.
Proof.
  revert y. induction x as [|c x IH]; intros [|d y]; simpl; try lia.
  rewrite (Z.eqb_sym (code d) (code c)).
  destruct (code c =? code d) eqn:E; [|lia].
  apply Z.eqb_eq in E. rewrite <- E.
  destruct (code c =? 0); [lia | apply IH].
Qed.

(** ** The comparator *)

(** [compare_tasks] satisfies the recursive equation of the source:
    each mode with its fallback call. *)
Lemma compare_tasks_unfold (a b : task) (sort_mode : ascii) :
  compare_tasks a b sort_mode =
  match sort_mode with
  | "n"%char => if index a <? index b then 1 else 0
  | "d"%char =>
      if due a =? 0 then (if due b =? 0 then compare_tasks a b "r" else 0)
      else if due b =? 0 then 1
      else if due a <? due b then 1 else 0
  | "r"%char =>
      if Ascii.eqb (priority a) NUL
      then (if Ascii.eqb (priority b) NUL then compare_tasks a b "p" else 0)
      else if Ascii.eqb (priority b) NUL then 1
      else if Ascii.eqb (priority a) (priority b) then compare_tasks a b "p"
      else
        match priority b with
        | "M"%char => if Ascii.eqb (priority a) "H" then 1 else 0
        | "L"%char =>
            if Ascii.eqb (priority a) "M" || Ascii.eqb (priority a) "H"
            then 1 else 0
        | _ => 0
        end
  | _ =>
      match project a, project b with
      | None, Some _ => 1
      | None, None => 0
      | Some _, None => 0
      | Some pa, Some pb =>
          if strcmp pa pb =? 0 then compare_tasks a b "n"
          else if strcmp pa pb <? 0 then 1 else 0
      end
  end.
Proof.
  destruct sort_mode as [[] [] [] [] [] [] [] []]; try reflexivity;
    cbn [compare_tasks]; unfold compare_p;
    destruct (project a), (project b); reflexivity.
Qed.

Lemma compare_n_asym (a b : task) : ~ (compare_n a b = 1 /\ compare_n b a = 1).
Proof.
  unfold compare_n. intros [H1 H2].
  destruct (index a <? index b) eqn:E1; [|discriminate].
  destruct (index b <? index a) eqn:E2; [|discriminate].
  apply Z.ltb_lt in E1, E2. lia.
Qed.

Lemma compare_p_asym (a b : task) : ~ (compare_p a b = 1 /\ compare_p b a = 1).
Proof.
  unfold compare_p. intros [H1 H2].
  destruct (project a) as [pa|], (project b) as [pb|]; try discriminate.
  rewrite (strcmp_swap pa pb) in H2.
  destruct (strcmp pa pb =? 0) eqn:E0.
  - apply Z.eqb_eq in E0. rewrite E0 in H2. simpl in H2.
    exact (compare_n_asym a b (conj H1 H2)).
  - apply Z.eqb_neq in E0.
    destruct (- strcmp pa pb =? 0) eqn:E0'; [apply Z.eqb_eq in E0'; lia|].
    destruct (strcmp pa pb <? 0) eqn:E1; [|discriminate].
    destruct (- strcmp pa pb <? 0) eqn:E2; [|discriminate].
    apply Z.ltb_lt in E1, E2. lia.
Qed.

(** The inner [switch (b->priority)] as a chain of tests. *)
Lemma priority_switch (c : ascii) (x y z : Z) :
  match c with
  | "M"%char => x
  | "L"%char => y
  | _ => z
  end = if Ascii.eqb c "M" then x else if Ascii.eqb c "L" then y else z.
Proof. destruct c as [[] [] [] [] [] [] [] []]; reflexivity. Qed.

Lemma compare_r_asym (a b : task) : ~ (compare_r a b = 1 /\ compare_r b a = 1).
Proof.
  unfold compare_r. rewrite !priority_switch.
  rewrite (Ascii.eqb_sym (priority b) (priority a)).
  intros [H1 H2].
  destruct (Ascii.eqb (priority a) NUL) eqn:Ea, (Ascii.eqb (priority b) NUL) eqn:Eb;
    try discriminate.
  - exact (compare_p_asym a b (conj H1 H2)).
  - destruct (Ascii.eqb (priority a) (priority b)) eqn:Eab.
    + exact (compare_p_asym a b (conj H1 H2)).
    + destruct (Ascii.eqb (priority a) "M") eqn:EaM;
        [apply Ascii.eqb_eq in EaM; rewrite EaM in *|];
        (destruct (Ascii.eqb (priority a) "L") eqn:EaL;
          [apply Ascii.eqb_eq in EaL; rewrite EaL in *|]);
        (destruct (Ascii.eqb (priority a) "H") eqn:EaH;
          [apply Ascii.eqb_eq in EaH; rewrite EaH in *|]);
        try discriminate;
        (destruct (Ascii.eqb (priority b) "M") eqn:EbM;
          [apply Ascii.eqb_eq in EbM; rewrite EbM in *|]);
        try discriminate;
        (destruct (Ascii.eqb (priority b) "L") eqn:EbL;
          [apply Ascii.eqb_eq in EbL; rewrite EbL in *|]);
        try discriminate.
Qed.

Lemma compare_d_asym (a b : task) : ~ (compare_d a b = 1 /\ compare_d b a = 1).
Proof.
  unfold compare_d. intros [H1 H2].
  destruct (due a =? 0) eqn:Ea, (due b =? 0) eqn:Eb; try discriminate.
  - exact (compare_r_asym a b (conj H1 H2)).
  - destruct (due a <? due b) eqn:E1; [|discriminate].
    destruct (due b <? due a) eqn:E2; [|discriminate].
    apply Z.ltb_lt in E1, E2. lia.
Qed.

(** The [switch] picks one of the four bodies, whatever the records. *)
Lemma compare_tasks_dispatch (sort_mode : ascii) :
  (forall a b, compare_tasks a b sort_mode = compare_n a b) \/
  (forall a b, compare_tasks a b sort_mode = compare_p a b) \/
  (forall a b, compare_tasks a b sort_mode = compare_r a b) \/
  (forall a b, compare_tasks a b sort_mode = compare_d a b).
Proof.
  destruct sort_mode as [[] [] [] [] [] [] [] []]; simpl; auto.
Qed.

Lemma compare_tasks_range (a b : task) (sort_mode : ascii) :
  compare_tasks a b sort_mode = 0 \/ compare_tasks a b sort_mode = 1.
Proof.
  assert (Hn : forall a b, compare_n a b = 0 \/ compare_n a b = 1).
  { intros x y. unfold compare_n. destruct (_ <? _); auto. }
  assert (Hp : forall a b, compare_p a b = 0 \/ compare_p a b = 1).
  { intros x y. unfold compare_p.
    destruct (project x), (project y); auto.
    destruct (_ =? 0); auto. destruct (_ <? 0); auto. }
  assert (Hr : forall a b, compare_r a b = 0 \/ compare_r a b = 1).
  { intros x y. unfold compare_r. rewrite priority_switch.
    repeat match goal with
           | |- context [if ?c then _ else _] => destruct c
           end; auto. }
  assert (Hd : forall a b, compare_d a b = 0 \/ compare_d a b = 1).
  { intros x y. unfold compare_d.
    repeat match goal with
           | |- context [if ?c then _ else _] => destruct c
           end; auto. }
  destruct (compare_tasks_dispatch sort_mode) as [H|[H|[H|H]]]; rewrite H; auto.
Qed.

Lemma compare_tasks_asym (sort_mode : ascii) (a b : task) :
  ~ (compare_tasks a b sort_mode = 1 /\ compare_tasks b a sort_mode = 1).
Proof.
  destruct (compare_tasks_dispatch sort_mode) as [H|[H|[H|H]]]; rewrite !H.
  - apply compare_n_asym.
  - apply compare_p_asym.
  - apply compare_r_asym.
  - apply compare_d_asym.
Qed.

(** C9.  For every sort mode (the four modes ['n'], ['p'], ['d'],
    ['r'], and any other character, which is handled as ['p']) and
    every two task records [a] and [b], [compare_tasks a b] and
    [compare_tasks b a] do not both return 1. *)
Theorem compare_tasks_asymmetric (sort_mode : ascii) (a b : task) :
  ~ (compare_tasks a b sort_mode = 1 /\ compare_tasks b a sort_mode = 1).
Proof. exact (compare_tasks_asym sort_mode a b). Qed.

(** ** The sort: it returns, and it permutes the payloads *)

Lemma swap_tasks_perm (a b : node) (l l' : list task) :
  swap_tasks a b l = Some l' -> l' ≡ₚ l.
Proof.
  unfold swap_tasks. intros H.
  destruct (l !! a) as [ta|] eqn:Ha; [|discriminate].
  destruct (l !! b) as [tb|] eqn:Hb; [|discriminate].
  simpl in H. injection H as <-. by apply Permutation_insert_swap.
Qed.

Lemma swap_tasks_length (a b : node) (l l' : list task) :
  swap_tasks a b l = Some l' -> length l' = length l.
Proof. intros H. apply Permutation_length. eapply swap_tasks_perm, H. Qed.

Lemma swap_tasks_some (a b : node) (l : list task) :
  (a < length l)%nat -> (b < length l)%nat ->
  exists l', swap_tasks a b l = Some l'.
Proof.
  intros Ha Hb. unfold swap_tasks.
  destruct (lookup_lt_is_Some_2 l a Ha) as [ta ->].
  destruct (lookup_lt_is_Some_2 l b Hb) as [tb ->].
  simpl. eauto.
Qed.

Lemma next_lt (l : list task) (p : node) :
  (S p < length l)%nat -> next l p = Some (S p).
Proof. intros H. unfold next. by rewrite decide_True. Qed.

Lemma next_ge (l : list task) (p : node) :
  (length l <= S p)%nat -> next l p = None.
Proof. intros H. unfold next. rewrite decide_False; [done|lia]. Qed.

Lemma next_Some (l : list task) (p q : node) :
  next l p = Some q -> q = S p /\ (S p < length l)%nat.
Proof. unfold next. case_decide; naive_solver. Qed.

Lemma sort_scan_perm (fuel : nat) (sort_mode : ascii) (start cur last : node)
    (l l' : list task) :
  sort_scan fuel sort_mode start cur last l = Some l' -> l' ≡ₚ l.
Proof.
  revert cur l. induction fuel as [|fuel IH]; intros cur l H; [discriminate|].
  simpl in H.
  destruct (l !! start) as [ta|]; [|discriminate].
  destruct (l !! cur) as [tb|]; [|discriminate]. simpl in H.
  destruct (if compare_tasks ta tb sort_mode =? 1
            then swap_tasks start cur l else Some l) as [l1|] eqn:E;
    [|discriminate].
  assert (Hl1 : l1 ≡ₚ l).
  { destruct (_ =? 1); [by eapply swap_tasks_perm|by injection E as <-]. }
  simpl in H. case_decide.
  - injection H as <-. done.
  - destruct (next l1 cur) as [cur'|]; [|discriminate]. simpl in H.
    rewrite (IH _ _ H). done.
Qed.

Lemma sort_scan_some (fuel : nat) (sort_mode : ascii) (start cur last : node)
    (l : list task) :
  (start < length l)%nat -> (cur <= last)%nat -> (last < length l)%nat ->
  (last - cur < fuel)%nat ->
  exists l', sort_scan fuel sort_mode start cur last l = Some l'.
Proof.
  revert cur l. induction fuel as [|fuel IH]; intros cur l Hs Hc Hl Hf; [lia|].
  simpl.
  destruct (lookup_lt_is_Some_2 l start Hs) as [ta ->].
  destruct (lookup_lt_is_Some_2 l cur ltac:(lia)) as [tb ->]. simpl.
  assert (exists l1, (if compare_tasks ta tb sort_mode =? 1
                      then swap_tasks start cur l else Some l) = Some l1
                     /\ length l1 = length l) as (l1 & -> & Hlen).
  { destruct (_ =? 1); [|eauto].
    destruct (swap_tasks_some start cur l Hs ltac:(lia)) as [l1 E].
    exists l1. split; [done|]. by eapply swap_tasks_length. }
  simpl. case_decide; [eauto|].
  rewrite next_lt by lia. simpl. apply IH; lia.
Qed.

Lemma sort_tasks_perm (fuel : nat) (sort_mode : ascii) (first last : node)
    (l l' : list task) :
  sort_tasks fuel sort_mode first last l = Some l' -> l' ≡ₚ l.
Proof.
  revert first last l l'.
  induction fuel as [|fuel IH]; intros first last l l' H; [discriminate|].
  simpl in H. case_decide; [by injection H as <-|].
  destruct (next l first) as [cur|]; [|discriminate]. simpl in H.
  destruct (sort_scan _ _ _ _ _ _) as [l1|] eqn:E1; [|discriminate].
  simpl in H.
  destruct (swap_tasks first last l1) as [l2|] eqn:E2; [|discriminate].
  simpl in H.
  apply sort_scan_perm in E1. apply swap_tasks_perm in E2.
  destruct (match prev last with
            | Some cur0 => _
            | None => Some l2
            end) as [l3|] eqn:E3; [|discriminate].
  simpl in H.
  assert (Hl3 : l3 ≡ₚ l2).
  { destruct (prev last) as [c|]; [|by injection E3 as <-].
    destruct (_ && _); [by eapply IH|by injection E3 as <-]. }
  assert (Hl' : l' ≡ₚ l3).
  { destruct (next l3 last) as [c|]; [|by injection H as <-].
    destruct (_ && _); [by eapply IH|by injection H as <-]. }
  by rewrite Hl', Hl3, E2, E1.
Qed.

Lemma sort_tasks_some (fuel : nat) (sort_mode : ascii) (first last : node)
    (l : list task) :
  (first <= last)%nat -> (last < length l)%nat -> (last - first < fuel)%nat ->
  exists l', sort_tasks fuel sort_mode first last l = Some l'.
Proof.
  revert first last l.
  induction fuel as [|fuel IH]; intros first last l Hfl Hl Hf; [lia|].
  simpl. case_decide; [eauto|].
  rewrite next_lt by lia. simpl.
  destruct (sort_scan_some (length l) sort_mode first (S first) last l)
    as [l1 E1]; [lia..|].
  rewrite E1. simpl.
  assert (Hlen1 : length l1 = length l)
    by (apply Permutation_length; eapply sort_scan_perm, E1).
  destruct (swap_tasks_some first last l1) as [l2 E2]; [lia..|].
  rewrite E2. simpl.
  assert (Hlen2 : length l2 = length l)
    by (rewrite <- Hlen1; eapply swap_tasks_length, E2).
  destruct last as [|last']; [lia|]. simpl.
  rewrite (next_lt l2 last') by lia.
  rewrite bool_decide_true by (destruct first; simpl; congruence).
  rewrite bool_decide_true by congruence. simpl.
  destruct (IH first last' l2) as [l3 E3]; [lia..|].
  rewrite E3. simpl.
  destruct (next l3 (S last')) as [c|] eqn:En; [|eauto].
  apply next_Some in En as [-> _]. simpl.
  rewrite bool_decide_false by (intros Hc; by apply Hc). simpl. eauto.
Qed.

Lemma find_last_spec (fuel : nat) (l : list task) (p : node) :
  (p < length l)%nat -> (length l - S p <= fuel)%nat ->
  find_last fuel l p = (length l - 1)%nat.
Proof.
  revert p. induction fuel as [|fuel IH]; intros p Hp Hf; simpl.
  - lia.
  - destruct (decide (S p < length l)%nat).
    + rewrite next_lt by done. apply IH; lia.
    + rewrite next_ge by lia. lia.
Qed.

Lemma sort_wrapper_some (sort_mode : ascii) (l : list task) :
  l <> [] -> exists l', sort_wrapper sort_mode l = Some l' /\ l' ≡ₚ l.
Proof.
  intros Hl. unfold sort_wrapper.
  destruct l as [|t l0]; [done|]. simpl (_ !! _). cbn [mbind option_bind].
  rewrite find_last_spec by (simpl; lia).
  destruct (sort_tasks_some (S (length (t :: l0))) sort_mode 0
              (length (t :: l0) - 1) (t :: l0)) as [l' E]; [simpl; lia..|].
  exists l'. split; [done|]. eapply sort_tasks_perm, E.
Qed.

(** On two records the sort keeps [a] in front exactly when the
    comparator answers 1 on [(a, b)]: a return of 1 says that the
    first argument sorts first. *)
Lemma sort_wrapper_pair (sort_mode : ascii) (a b : task) :
  sort_wrapper sort_mode [a; b]
  = Some (if compare_tasks a b sort_mode =? 1 then [a; b] else [b; a]).
Proof.
  unfold sort_wrapper. simpl.
  destruct (compare_tasks a b sort_mode =? 1); reflexivity.
Qed.

Lemma sorts_before_pair (sort_mode : ascii) (a b : task) :
  sorts_before sort_mode a b ->
  sort_wrapper sort_mode [a; b] = Some [a; b] /\
  sort_wrapper sort_mode [b; a] = Some [a; b].
Proof.
  intros [H1 H2]. rewrite !sort_wrapper_pair, H1, H2. done.
Qed.

Lemma sorts_before_intro (sort_mode : ascii) (a b : task) :
  compare_tasks a b sort_mode = 1 -> sorts_before sort_mode a b.
Proof.
  intros H. split; [done|].
  destruct (compare_tasks_range b a sort_mode) as [H0|H1]; [done|].
  destruct (compare_tasks_asym sort_mode a b). done.
Qed.

(** C1, as stated, fails: in mode ['p'] the record without a project
    is put before the record with project "A", by the comparator and
    by the sort, from either starting order. *)
Lemma project_absent_sorts_first :
  let with_project := sample_task 0 (Some "A"%string) 0 in
  let no_project := sample_task 1 None 0 in
  project no_project = None /\ project with_project <> None /\
  ~ sorts_before "p" with_project no_project /\
  compare_tasks no_project with_project "p" = 1 /\
  compare_tasks with_project no_project "p" = 0 /\
  sort_wrapper "p" [with_project; no_project] = Some [no_project; with_project] /\
  sort_wrapper "p" [no_project; with_project] = Some [no_project; with_project].
Proof.
  split; [reflexivity|]. split; [discriminate|].
  split; [intros [H _]; discriminate H|]. repeat split.
Qed.

(** C1, amended.  In sort mode ['p'], when exactly one of two records
    has no project the record without a project sorts before the
    record with one; two records with projects are ordered by
    [strcmp] on the project strings, ascending; and on equal projects
    the answer is that of mode ['n'], index ascending. *)
Theorem compare_tasks_project_order (a b : task) :
  (project a = None -> project b <> None -> sorts_before "p" a b) /\
  (forall pa pb, project a = Some pa -> project b = Some pb ->
     strcmp pa pb < 0 -> sorts_before "p" a b) /\
  (forall pa pb, project a = Some pa -> project b = Some pb ->
     strcmp pa pb = 0 ->
     compare_tasks a b "p" = compare_tasks a b "n" /\
     (index a < index b -> sorts_before "p" a b)).
Proof.
  split; [|split].
  - intros Ha Hb. apply sorts_before_intro. simpl. unfold compare_p.
    rewrite Ha. by destruct (project b).
  - intros pa pb Ha Hb Hlt. apply sorts_before_intro. simpl.
    unfold compare_p. rewrite Ha, Hb. simpl.
    destruct (strcmp pa pb =? 0) eqn:E0; [apply Z.eqb_eq in E0; lia|].
    destruct (strcmp pa pb <? 0) eqn:E1; [done|]. apply Z.ltb_ge in E1. lia.
  - intros pa pb Ha Hb Heq.
    assert (E : compare_tasks a b "p" = compare_tasks a b "n").
    { simpl. unfold compare_p. rewrite Ha, Hb. simpl. by rewrite Heq. }
    split; [done|]. intros Hlt. apply sorts_before_intro. rewrite E.
    simpl. unfold compare_n. destruct (index a <? index b) eqn:E1; [done|].
    apply Z.ltb_ge in E1. lia.
Qed.

Lemma compare_tasks_project_order_witness :
  let a := sample_task 0 None 0 in
  let b := sample_task 1 (Some "A"%string) 0 in
  let c := sample_task 2 (Some "B"%string) 0 in
  let d := sample_task 3 (Some "B"%string) 0 in
  sorts_before "p" a b /\ sorts_before "p" b c /\ sorts_before "p" c d.
Proof.
  intros a b c d. split; [|split].
  - apply (proj1 (compare_tasks_project_order a b)); [reflexivity|discriminate].
  - apply (proj1 (proj2 (compare_tasks_project_order b c))
             "A"%string "B"%string); [reflexivity|reflexivity|].
    vm_compute. reflexivity.
  - apply (proj2 (proj2 (compare_tasks_project_order c d))
             "B"%string "B"%string); [reflexivity|reflexivity| |].
    + vm_compute. reflexivity.
    + simpl. lia.
Defined.

(** C4 fails on the code.  Two distinct records with the same
    non-zero due date are left unresolved in mode ['d']: the
    comparator answers 0 both ways and the sort returns them in an
    order that depends on the order they came in.  The same happens
    in mode ['p'] for two records without a project. *)
Theorem compare_tasks_unresolved_tie :
  let a := sample_task 0 (Some "A"%string) 100 in
  let b := sample_task 1 (Some "B"%string) 100 in
  let c := sample_task 0 None 0 in
  let d := sample_task 1 None 0 in
  index a <> index b /\
  compare_tasks a b "d" = 0 /\ compare_tasks b a "d" = 0 /\
  sort_wrapper "d" [a; b] = Some [b; a] /\
  sort_wrapper "d" [b; a] = Some [a; b] /\
  compare_tasks c d "p" = 0 /\ compare_tasks d c "p" = 0.
Proof. repeat split. discriminate. Qed.

(** ** The sort in mode ['n'] puts the indexes in ascending order *)

Lemma seg_pres_refl (lo hi : nat) (l : list task) : seg_pres lo hi l l.
Proof. repeat split; eauto. Qed.

Lemma seg_pres_trans (lo hi : nat) (l1 l2 l3 : list task) :
  seg_pres lo hi l1 l2 -> seg_pres lo hi l2 l3 -> seg_pres lo hi l1 l3.
Proof.
  intros (Hl1 & Ho1 & Hq1) (Hl2 & Ho2 & Hq2). repeat split.
  - congruence.
  - intros i Hi. rewrite Ho2, Ho1; auto.
  - intros Q HQ. apply Hq2, Hq1, HQ.
Qed.

Lemma seg_pres_widen (lo hi lo' hi' : nat) (l l' : list task) :
  (lo <= lo')%nat -> (hi' <= hi)%nat ->
  seg_pres lo' hi' l l' -> seg_pres lo hi l l'.
Proof.
  intros Hlo Hhi (Hl & Ho & Hq). repeat split; [done| |].
  - intros i Hi. apply Ho. lia.
  - intros Q HQ i t Hi Ht.
    destruct (decide (lo' <= i <= hi')%nat) as [Hin|Hout].
    + apply (Hq (fun t => Q t)) with i; [|done..].
      intros j u Hj Hu. apply (HQ j); [lia|done].
    + rewrite Ho in Ht by lia. by apply (HQ i).
Qed.

Lemma swap_tasks_seg (lo hi a b : nat) (l l' : list task) :
  swap_tasks a b l = Some l' -> (lo <= a <= hi)%nat -> (lo <= b <= hi)%nat ->
  seg_pres lo hi l l'.
Proof.
  unfold swap_tasks. intros H Ha Hb.
  destruct (l !! a) as [ta|] eqn:Ea; [|discriminate].
  destruct (l !! b) as [tb|] eqn:Eb; [|discriminate].
  simpl in H. injection H as <-.
  pose proof (lookup_lt_Some _ _ _ Ea) as Hla.
  pose proof (lookup_lt_Some _ _ _ Eb) as Hlb.
  repeat split.
  - by rewrite !length_insert.
  - intros i Hi. rewrite !list_lookup_insert_ne by lia. done.
  - intros Q HQ i t Hi Ht.
    destruct (decide (i = b)) as [->|Hib].
    + rewrite list_lookup_insert_eq in Ht by (by rewrite length_insert).
      injection Ht as <-. by apply (HQ a).
    + rewrite list_lookup_insert_ne in Ht by done.
      destruct (decide (i = a)) as [->|Hia].
      * rewrite list_lookup_insert_eq in Ht by done.
        injection Ht as <-. by apply (HQ b).
      * rewrite list_lookup_insert_ne in Ht by done. by apply (HQ i).
Qed.

Lemma swap_tasks_lookup (a b : nat) (l l' : list task) (ta tb : task) :
  l !! a = Some ta -> l !! b = Some tb -> swap_tasks a b l = Some l' ->
  l' !! a = Some tb /\ l' !! b = Some ta /\
  forall i, i <> a -> i <> b -> l' !! i = l !! i.
Proof.
  intros Ea Eb H. unfold swap_tasks in H. rewrite Ea, Eb in H. simpl in H.
  injection H as <-.
  pose proof (lookup_lt_Some _ _ _ Ea) as Hla.
  pose proof (lookup_lt_Some _ _ _ Eb) as Hlb.
  split; [|split].
  - destruct (decide (a = b)) as [->|Hab].
    + rewrite list_lookup_insert_eq by (by rewrite length_insert). congruence.
    + rewrite list_lookup_insert_ne by done.
      by rewrite list_lookup_insert_eq.
  - by rewrite list_lookup_insert_eq by (by rewrite length_insert).
  - intros i Hia Hib. by rewrite !list_lookup_insert_ne.
Qed.

(** The scan leaves at [start] a payload whose index is not below
    that of any node it went over. *)
Lemma sort_scan_max (fuel : nat) (start cur last : nat) (l l' : list task) :
  (start < cur)%nat -> (cur <= last)%nat ->
  (forall j ts tj, (start < j < cur)%nat -> l !! start = Some ts ->
     l !! j = Some tj -> index tj <= index ts) ->
  sort_scan fuel "n" start cur last l = Some l' ->
  seg_pres start last l l' /\
  (forall j ts tj, (start < j <= last)%nat -> l' !! start = Some ts ->
     l' !! j = Some tj -> index tj <= index ts).
Proof.
  revert cur l. induction fuel as [|fuel IH]; intros cur l Hsc Hcl Hmax H;
    [discriminate|].
  simpl in H.
  destruct (l !! start) as [ta|] eqn:Ea; [|discriminate].
  destruct (l !! cur) as [tb|] eqn:Eb; [|discriminate]. simpl in H.
  destruct (if compare_n ta tb =? 1
            then swap_tasks start cur l else Some l) as [l1|] eqn:E;
    [|discriminate].
  simpl in H.
  assert (Hseg1 : seg_pres start last l l1).
  { destruct (_ =? 1); [|injection E as <-; apply seg_pres_refl].
    eapply swap_tasks_seg; [done|lia..]. }
  assert (Hmax1 : forall j ts tj, (start < j < S cur)%nat ->
            l1 !! start = Some ts -> l1 !! j = Some tj -> index tj <= index ts).
  { intros j ts tj Hj Hs Ht. unfold compare_n in E.
    destruct (index ta <? index tb) eqn:Elt; simpl in E.
    - apply Z.ltb_lt in Elt.
      destruct (swap_tasks_lookup _ _ _ _ _ _ Ea Eb E) as (Hs' & Hc' & Ho').
      rewrite Hs' in Hs. injection Hs as <-.
      destruct (decide (j = cur)) as [->|Hjc].
      + rewrite Hc' in Ht. injection Ht as <-. lia.
      + rewrite Ho' in Ht by lia.
        pose proof (Hmax j ta tj ltac:(lia) eq_refl Ht). lia.
    - apply Z.ltb_ge in Elt. injection E as <-.
      rewrite Ea in Hs. injection Hs as <-.
      destruct (decide (j = cur)) as [->|Hjc].
      + rewrite Eb in Ht. injection Ht as <-. lia.
      + apply (Hmax j); [lia|done..]. }
  case_decide as Hcur.
  - injection H as <-. subst last. split; [done|].
    intros j ts tj Hj. apply Hmax1. lia.
  - destruct (next l1 cur) as [cur'|] eqn:En; [|discriminate]. simpl in H.
    apply next_Some in En as [-> _].
    destruct (IH (S cur) l1 ltac:(lia) ltac:(lia) Hmax1 H) as [Hseg' Hmax'].
    split; [by eapply seg_pres_trans|done].
Qed.

Lemma sort_tasks_sorted (fuel : nat) (first last : nat) (l l' : list task) :
  (first <= last)%nat ->
  sort_tasks fuel "n" first last l = Some l' ->
  seg_pres first last l l' /\ index_sorted first last l'.
Proof.
  revert first last l l'.
  induction fuel as [|fuel IH]; intros first last l l' Hfl H; [discriminate|].
  simpl in H. case_decide as Heq.
  - injection H as <-. subst last. split; [apply seg_pres_refl|].
    intros i j ti tj Hi Hij Hj Ei Ej.
    assert (i = j) as -> by lia. rewrite Ei in Ej. injection Ej as <-. lia.
  - destruct (next l first) as [cur|] eqn:En; [|discriminate]. simpl in H.
    apply next_Some in En as [-> Hlen].
    destruct (sort_scan _ _ _ _ _ _) as [l1|] eqn:E1; [|discriminate].
    simpl in H.
    destruct (swap_tasks first last l1) as [l2|] eqn:E2; [|discriminate].
    simpl in H.
    apply sort_scan_max in E1 as [Hseg1 Hmax1]; [|lia|lia|intros; lia].
    pose proof (swap_tasks_seg first last _ _ _ _ E2 ltac:(lia) ltac:(lia))
      as Hseg2.
    (* the last node now holds the greatest index of the segment *)
    assert (Hmax2 : forall j tl tj, (first <= j <= last)%nat ->
              l2 !! last = Some tl -> l2 !! j = Some tj -> index tj <= index tl).
    { intros j tl tj Hj El Ej.
      pose proof E2 as E2'. unfold swap_tasks in E2'.
      destruct (l1 !! first) as [ta|] eqn:Ea; [|discriminate].
      destruct (l1 !! last) as [tb|] eqn:Eb; [|discriminate].
      destruct (swap_tasks_lookup first last l1 l2 ta tb Ea Eb E2)
        as (Hf & Hl & Ho).
      rewrite Hl in El. injection El as <-.
      destruct (decide (j = last)) as [->|Hjl].
      { rewrite Hl in Ej. injection Ej as <-. lia. }
      destruct (decide (j = first)) as [->|Hjf].
      { rewrite Hf in Ej. injection Ej as <-.
        apply (Hmax1 last ta tb); [lia|done..]. }
      rewrite Ho in Ej by done. apply (Hmax1 j ta tj); [lia|done..]. }
    assert (Hlast : (last < length l2)%nat).
    { unfold swap_tasks in E2.
      destruct (l1 !! first); [|discriminate].
      destruct (l1 !! last) eqn:Eb; [|discriminate].
      simpl in E2. injection E2 as <-. rewrite !length_insert.
      by apply lookup_lt_Some in Eb. }
    destruct last as [|last']; [lia|]. simpl in H.
    rewrite bool_decide_true in H by (destruct first; simpl; congruence).
    rewrite (next_lt l2 last') in H by lia.
    rewrite bool_decide_true in H by congruence. simpl in H.
    destruct (sort_tasks fuel "n" first last' l2) as [l3|] eqn:E3;
      [|discriminate].
    simpl in H.
    apply IH in E3 as [Hseg3 Hsorted3]; [|lia].
    assert (l' = l3) as ->.
    { destruct (next l3 (S last')) as [c|] eqn:En; [|by injection H as <-].
      apply next_Some in En as [-> _]. simpl in H.
      rewrite bool_decide_false in H by (intros Hc; by apply Hc).
      simpl in H. by injection H as <-. }
    split.
    + eapply seg_pres_trans; [exact Hseg1|].
      eapply seg_pres_trans; [exact Hseg2|].
      eapply seg_pres_widen; [| |exact Hseg3]; lia.
    + intros i j ti tj Hi Hij Hj Ei Ej.
      destruct (decide (j <= last')%nat) as [Hjl|Hjl].
      { by apply (Hsorted3 i j). }
      assert (j = S last') as -> by lia.
      destruct Hseg3 as (Hl3 & Ho3 & Hq3).
      rewrite Ho3 in Ej by lia.
      destruct (decide (i = S last')) as [->|Hil].
      { rewrite Ho3 in Ei by lia. rewrite Ei in Ej. injection Ej as <-. lia. }
      apply (Hq3 (fun t => index t <= index tj)) with i; [|lia|done].
      intros k t Hk Ek. apply (Hmax2 k tj t); [lia|done..].
Qed.

Lemma StronglySorted_lookup_le (l : list Z) :
  (forall i j x y, (i <= j)%nat -> l !! i = Some x -> l !! j = Some y -> x <= y) ->
  StronglySorted Z.le l.
Proof.
  induction l as [|x l IH]; intros H; constructor.
  - apply IH. intros i j a b Hij Ha Hb. by apply (H (S i) (S j)); [lia|..].
  - apply Forall_lookup. intros i y Hy. by apply (H 0%nat (S i)); [lia|..].
Qed.

Lemma sort_wrapper_index_sorted (l l' : list task) :
  sort_wrapper "n" l = Some l' ->
  l' ≡ₚ l /\ StronglySorted Z.le (index <$> l').
Proof.
  unfold sort_wrapper. intros H.
  destruct l as [|t l0]; [discriminate|]. simpl (_ !! _) in H.
  cbn [mbind option_bind] in H.
  rewrite find_last_spec in H by (simpl; lia).
  split; [eapply sort_tasks_perm, H|].
  pose proof (Permutation_length (sort_tasks_perm _ _ _ _ _ _ H)) as Hlen.
  apply sort_tasks_sorted in H as [_ Hs]; [|lia].
  apply StronglySorted_lookup_le. intros i j x y Hij Hx Hy.
  rewrite list_lookup_fmap in Hx, Hy.
  destruct (l' !! i) as [ti|] eqn:Ei; [|discriminate].
  destruct (l' !! j) as [tj|] eqn:Ej; [|discriminate].
  simpl in Hx, Hy. injection Hx as <-. injection Hy as <-.
  apply (Hs i j); [lia|done| |done..].
  apply lookup_lt_Some in Ej. lia.
Qed.

Lemma sort_wrapper_index_seq (l l' : list task) :
  index <$> l ≡ₚ seqZ 0 (Z.of_nat (length l)) ->
  sort_wrapper "n" l = Some l' ->
  index <$> l' = seqZ 0 (Z.of_nat (length l')).
Proof.
  intros Hp H. apply sort_wrapper_index_sorted in H as [Hperm Hsorted].
  rewrite (Permutation_length Hperm).
  apply (StronglySorted_unique Z.le); [done| |by rewrite Hperm].
  apply StronglySorted_lookup_le. intros i j x y Hij Hx Hy.
  apply lookup_seqZ in Hx as [-> _]. apply lookup_seqZ in Hy as [-> _]. lia.
Qed.

(** ** remove_char leaves a line without the character as it is *)

Lemma cstring_terminated (l : list ascii) : is_Some (cstring (l ++ [NUL])).
Proof.
  induction l as [|c l [text IH]]; simpl; [eauto|].
  destruct (Ascii.eqb c NUL); [eauto|]. rewrite IH. simpl. eauto.
Qed.

Lemma cstring_lookup (l : list ascii) (text : string) (j : nat) :
  cstring l = Some text -> (j < String.length text)%nat ->
  exists c, l !! j = Some c /\ Ascii.eqb c NUL = false.
Proof.
  revert text j. induction l as [|c l IH]; intros text j H Hj; [discriminate|].
  simpl in H. destruct (Ascii.eqb c NUL) eqn:E.
  - injection H as <-. simpl in Hj. lia.
  - destruct (cstring l) as [text'|] eqn:E'; [|discriminate].
    simpl in H. injection H as <-. destruct j as [|j]; [eauto|].
    simpl in Hj. apply (IH text' j eq_refl). lia.
Qed.

Lemma remove_loop_id (n : nat) (str : buffer) (i : nat) (remove : ascii) :
  (forall j, (i <= j < i + n)%nat ->
     exists c, str !! j = Some c /\ Ascii.eqb c NUL = false /\
       Ascii.eqb c remove = false) ->
  remove_loop n str i 0 remove = Some str.
Proof.
  revert i. induction n as [|n IH]; intros i H; [reflexivity|].
  destruct (H i ltac:(lia)) as (c & Hc & Hnul & Hrem).
  cbn [remove_loop]. rewrite Nat.add_0_r, Hc. cbn [mbind option_bind].
  rewrite Hnul. unfold poke. rewrite Hc. cbn [mbind option_bind].
  rewrite list_insert_id by done.
  destruct (length str) as [|k] eqn:Ek.
  { apply lookup_lt_Some in Hc. lia. }
  cbn [remove_skip]. rewrite Hc. cbn [mbind option_bind].
  rewrite Hrem, Hnul. cbn [orb mbind option_bind].
  rewrite Nat.add_0_r, Hc. cbn [mbind option_bind]. rewrite Hnul.
  apply IH. intros j Hj. apply H. lia.
Qed.

Lemma remove_char_id (line : string) (remove : ascii) :
  (forall c, c ∈ list_ascii_of_string line -> c <> remove) ->
  remove_char (line_buffer line) remove = Some (line_buffer line).
Proof.
  intros Hno. unfold remove_char, cstr_at, line_buffer. rewrite drop_0.
  destruct (cstring_terminated (list_ascii_of_string line)) as [text E].
  rewrite E. cbn [mbind option_bind].
  apply remove_loop_id. intros j Hj.
  destruct (cstring_lookup _ _ j E ltac:(lia)) as (c & Hc & Hnul).
  exists c. split; [done|]. split; [done|].
  apply Ascii.eqb_neq, Hno.
  apply lookup_app_Some in Hc as [Hc|[_ Hc]].
  - by eapply list_elem_of_lookup_2.
  - destruct (j - length (list_ascii_of_string line))%nat; [|done].
    injection Hc as <-. discriminate.
Qed.

(** ** The indexes after a list build and after a sort *)

Section ParserProperties.

Context {config : ConfigH} {libc : LibcTime}.

(** The build loop numbers the list from its head, also when the
    16-bit counter wraps and a new head is taken. *)
Lemma get_tasks_loop_index (lines : list string) (hd hd' : list task)
    (counter : Z) :
  index <$> hd = seqZ 0 (Z.of_nat (length hd)) ->
  (counter = Z.of_nat (length hd) /\ Z.of_nat (length hd) < 65536) \/
  (counter = 0 /\ Z.of_nat (length hd) = 65536) ->
  get_tasks_loop lines hd counter = Some (Some hd') ->
  index <$> hd' = seqZ 0 (Z.of_nat (length hd')).
Proof.
  revert hd counter. induction lines as [|line rest IH]; intros hd counter Hi Hc H.
  - simpl in H. by injection H as <-.
  - simpl in H.
    destruct (parse_line line) as [[this|]|]; simpl in H; try discriminate.
    destruct (uuid this); [|discriminate].
    destruct (description this); [|discriminate].
    destruct (counter =? 0) eqn:E0.
    + apply Z.eqb_eq in E0. subst counter.
      apply IH in H; [done|reflexivity|].
      left. split; [reflexivity|simpl; lia].
    + apply Z.eqb_neq in E0.
      destruct Hc as [[-> Hlt]|[? _]]; [|done].
      apply IH in H; [done| |].
      * rewrite fmap_app, length_app, Nat.add_1_r, seqZ_S, Hi. reflexivity.
      * unfold to_ushort. rewrite length_app. simpl.
        destruct (decide (Z.of_nat (length hd) + 1 < 65536)).
        -- left. rewrite Z.mod_small by lia. lia.
        -- right. replace (Z.of_nat (length hd) + 1) with 65536 by lia.
           split; [reflexivity|lia].
Qed.

Lemma get_tasks_of_loop (sort_mode : ascii) (lines : list string)
    (hd : list task) :
  get_tasks_loop lines [] 0 = Some (Some hd) ->
  exists l, get_tasks sort_mode lines = Some l /\ l ≡ₚ hd.
Proof.
  intros H. unfold get_tasks. rewrite H. simpl.
  destruct hd as [|t hd0]; [by exists []|].
  apply sort_wrapper_some. done.
Qed.

(** C3, amended.  The list build numbers the records by position:
    before the sort that ends it, the index fields read head to tail
    are 0,1,...,n-1.  So after every rebuild, which ends with a sort
    in the configured mode, the index fields are a permutation of
    0,1,...,n-1, and they are 0,1,...,n-1 in that order when the sort
    mode is ['n'].  A sort exchanges whole payloads, index included,
    so the index stays with its record and is not reassigned: every
    sort leaves the index values a permutation of what they were
    before it, and a sort in mode ['n'] leaves them in ascending
    order. *)
Theorem index_after_build_and_sort (sort_mode : ascii) :
  (forall lines hd,
     get_tasks_loop lines [] 0 = Some (Some hd) ->
     index <$> hd = seqZ 0 (Z.of_nat (length hd)) /\
     exists l, get_tasks sort_mode lines = Some l /\ l ≡ₚ hd /\
       index <$> l ≡ₚ seqZ 0 (Z.of_nat (length l)) /\
       (sort_mode = "n"%char -> index <$> l = seqZ 0 (Z.of_nat (length l)))) /\
  (forall lines l,
     get_tasks sort_mode lines = Some l ->
     index <$> l ≡ₚ seqZ 0 (Z.of_nat (length l)) /\
     (sort_mode = "n"%char -> index <$> l = seqZ 0 (Z.of_nat (length l)))) /\
  (forall l, l <> [] ->
     exists l', sort_wrapper sort_mode l = Some l' /\ l' ≡ₚ l /\
       index <$> l' ≡ₚ index <$> l /\
       (sort_mode = "n"%char -> StronglySorted Z.le (index <$> l')) /\
       (index <$> l ≡ₚ seqZ 0 (Z.of_nat (length l)) ->
        index <$> l' ≡ₚ seqZ 0 (Z.of_nat (length l')) /\
        (sort_mode = "n"%char ->
         index <$> l' = seqZ 0 (Z.of_nat (length l'))))).
Proof.
  assert (Hsort : forall l, l <> [] ->
     exists l', sort_wrapper sort_mode l = Some l' /\ l' ≡ₚ l /\
       index <$> l' ≡ₚ index <$> l /\
       (sort_mode = "n"%char -> StronglySorted Z.le (index <$> l')) /\
       (index <$> l ≡ₚ seqZ 0 (Z.of_nat (length l)) ->
        index <$> l' ≡ₚ seqZ 0 (Z.of_nat (length l')) /\
        (sort_mode = "n"%char ->
         index <$> l' = seqZ 0 (Z.of_nat (length l'))))).
  { intros l Hl. destruct (sort_wrapper_some sort_mode l Hl) as (l' & E & Hp).
    exists l'. split; [done|]. split; [done|]. split; [by rewrite Hp|].
    split.
    - intros ->. by destruct (sort_wrapper_index_sorted l l' E).
    - intros Hi. split.
      + by rewrite Hp.
      + intros ->. by apply (sort_wrapper_index_seq l). }
  assert (Hbuild : forall lines hd,
     get_tasks_loop lines [] 0 = Some (Some hd) ->
     index <$> hd = seqZ 0 (Z.of_nat (length hd)) /\
     exists l, get_tasks sort_mode lines = Some l /\ l ≡ₚ hd /\
       index <$> l ≡ₚ seqZ 0 (Z.of_nat (length l)) /\
       (sort_mode = "n"%char -> index <$> l = seqZ 0 (Z.of_nat (length l)))).
  { intros lines hd H.
    assert (Hi : index <$> hd = seqZ 0 (Z.of_nat (length hd))).
    { apply (get_tasks_loop_index lines [] hd 0); [reflexivity| |done].
      left. split; [reflexivity|simpl; lia]. }
    split; [done|].
    unfold get_tasks. rewrite H. simpl.
    destruct hd as [|t hd0].
    - exists []. repeat split; done.
    - destruct (Hsort (t :: hd0)) as (l' & E & Hp & _ & _ & Hidx); [done|].
      exists l'. split; [done|]. split; [done|].
      apply Hidx. by rewrite Hi. }
  split; [exact Hbuild|]. split; [|exact Hsort].
  intros lines l H.
  destruct (get_tasks_loop lines [] 0) as [[hd|]|] eqn:E.
  - destruct (Hbuild lines hd E) as (_ & l0 & E0 & _ & Hperm & Hn).
    assert (l0 = l) as -> by congruence. done.
  - unfold get_tasks in H. rewrite E in H. simpl in H. injection H as <-.
    split; done.
  - unfold get_tasks in H. rewrite E in H. discriminate.
Qed.

(** ** A record that does not parse *)

Lemma get_tasks_loop_rejected (before after : list string) (line : string)
    (hd : list task) (counter : Z) :
  Forall complete_record before -> rejected_record line ->
  get_tasks_loop (before ++ line :: after) hd counter = Some None.
Proof.
  intros Hb Hr. revert hd counter.
  induction Hb as [|l0 before (tsk & E & [u Eu] & [d Ed]) _ IH];
    intros hd counter; simpl.
  - destruct Hr as [E|(tsk & E & Hm)]; rewrite E; simpl; [done|].
    destruct (uuid tsk), (description tsk); try done; by destruct Hm.
  - rewrite E. simpl. rewrite Eu, Ed. apply IH.
Qed.

Lemma get_tasks_loop_complete (lines : list string) (hd hd' : list task)
    (counter : Z) :
  get_tasks_loop lines hd counter = Some (Some hd') ->
  Forall complete_record lines.
Proof.
  revert hd counter. induction lines as [|line rest IH]; intros hd counter H.
  - constructor.
  - simpl in H.
    destruct (parse_line line) as [[this|]|] eqn:E; simpl in H;
      try discriminate.
    destruct (uuid this) eqn:Eu; [|discriminate].
    destruct (description this) eqn:Ed; [|discriminate].
    constructor; [|by eapply IH].
    exists this. rewrite Eu, Ed. eauto.
Qed.

(** C2, amended.  [parse_task] returns [NULL] exactly when it has
    counted fewer than 2 tokens.  Such a record is not added to the
    list, and [get_tasks] returns [NULL] at once: the whole list
    build fails, as it does when a parsed record lacks its uuid or
    its description.  A list with records is returned only if every
    line gave a record with both. *)
Theorem get_tasks_fails_on_rejected_record (sort_mode : ascii) :
  (forall line : buffer,
     parse_task line = Some None <->
     exists token b olds tsk tokencounter,
       strtok line 0 = Some (token, b, olds) /\
       parse_loop (S (length line)) token b olds malloc_task 0
       = Some (tsk, tokencounter) /\
       tokencounter < 2) /\
  (forall before line after,
     Forall complete_record before -> rejected_record line ->
     get_tasks sort_mode (before ++ line :: after) = Some []) /\
  (forall lines l,
     get_tasks sort_mode lines = Some l -> l <> [] ->
     Forall complete_record lines).
Proof.
  split; [|split].
  - intros line. unfold parse_task. split.
    + intros H.
      destruct (strtok _ _) as [[[token b] olds]|] eqn:Es; [|discriminate].
      cbn -[parse_loop] in H.
      destruct (parse_loop _ _ _ _ _ _) as [[tsk tc]|] eqn:E;
        [|discriminate].
      cbn -[parse_loop] in H. destruct (tc <? 2) eqn:Elt; [|discriminate].
      apply Z.ltb_lt in Elt. exists token, b, olds, tsk, tc. done.
    + intros (token & b & olds & tsk & tc & -> & E & Hlt).
      cbn -[parse_loop]. rewrite E. cbn -[parse_loop].
      apply Z.ltb_lt in Hlt. by rewrite Hlt.
  - intros before line after Hb Hr. unfold get_tasks.
    by rewrite (get_tasks_loop_rejected before after line [] 0 Hb Hr).
  - intros lines l H Hl. unfold get_tasks in H.
    destruct (get_tasks_loop lines [] 0) as [[hd|]|] eqn:E; simpl in H;
      [|by injection H as <-|discriminate].
    by eapply get_tasks_loop_complete.
Qed.

End ParserProperties.

(** C2, as stated, fails: the second line has one field only, so
    [parse_task] returns [NULL] for it, and the whole load returns
    [NULL], although the lines around it are complete records (which
    load without it). *)
Lemma one_bad_record_fails_the_load :
  let good1 := quoted "{'description':'water plants','uuid':'u1'}" in
  let bad := quoted "{'description':'only'}" in
  let good2 := quoted "{'description':'pay rent','uuid':'u2'}" in
  sample_parse_line bad = Some None /\
  sample_get_tasks "n" [good1; bad; good2] = Some [] /\
  fmap (M := list) description <$> sample_get_tasks "n" [good1; good2]
  = Some [Some "water plants"%string; Some "pay rent"%string].
Proof. vm_compute. repeat split. Qed.

Lemma get_tasks_fails_on_rejected_record_witness :
  let good1 := quoted "{'description':'water plants','uuid':'u1'}" in
  let bad := quoted "{'description':'only'}" in
  let good2 := quoted "{'description':'pay rent','uuid':'u2'}" in
  sample_get_tasks "n" ([good1] ++ bad :: [good2]) = Some [].
Proof.
  intros good1 bad good2.
  apply (proj1 (proj2 (get_tasks_fails_on_rejected_record
                         (config := sample_config) (libc := sample_libc)
                         "n"))).
  - constructor; [|constructor]. eexists. split; [vm_compute; reflexivity|].
    split; eexists; reflexivity.
  - left. vm_compute. reflexivity.
Defined.

(** C3, as stated, fails: two records are loaded with the sort mode
    ['p']; the record read second has the smaller project and ends up
    first, with its index 1. *)
Lemma index_follows_payload :
  let lines := [quoted "{'description':'d1','uuid':'u1','project':'B'}";
                quoted "{'description':'d2','uuid':'u2','project':'A'}"] in
  exists l : list task, sample_get_tasks "p" lines = Some l /\
    index <$> l = [1; 0] /\
    index <$> l <> seqZ 0 (Z.of_nat (length l)) /\
    project <$> l = [Some "A"%string; Some "B"%string].
Proof.
  eexists. split; [vm_compute; reflexivity|].
  split; [reflexivity|]. split; [discriminate|reflexivity].
Qed.

Lemma index_after_build_and_sort_witness :
  let lines := [quoted "{'description':'d1','uuid':'u1','project':'B'}";
                quoted "{'description':'d2','uuid':'u2','project':'A'}"] in
  exists l, sample_get_tasks "n" lines = Some l /\
    index <$> l = seqZ 0 (Z.of_nat (length l)).
Proof.
  intros lines.
  destruct (proj1 (index_after_build_and_sort (config := sample_config)
                     (libc := sample_libc) "n")
              lines
              [set_index 0 (mk_task 0 (Some "u1"%string) None 0 0 0 0
                              (Some "B"%string) NUL (Some "d1"%string) true);
               set_index 1 (mk_task 0 (Some "u2"%string) None 0 0 0 0
                              (Some "A"%string) NUL (Some "d2"%string) true)])
    as (_ & l & E & _ & _ & Hn).
  { vm_compute. reflexivity. }
  exists l. split; [exact E|]. apply Hn. reflexivity.
Defined.

(** ** The filter pass *)

Lemma count_visible_drop (l : list task) (p : nat) (t : task) :
  l !! p = Some t ->
  count_visible (drop p l) = Z.b2z (is_filtered t) + count_visible (drop (S p) l).
Proof. intros H. by rewrite (drop_S _ _ _ H). Qed.

Lemma count_visible_hidden (l : list task) (p q : nat) :
  (p <= q)%nat ->
  (forall i t, (p <= i < q)%nat -> l !! i = Some t -> is_filtered t = false) ->
  count_visible (drop p l) = count_visible (drop q l).
Proof.
  intros Hpq. induction Hpq as [|q Hpq IH]; intros Hh; [done|].
  rewrite IH by (intros i t Hi; apply Hh; lia).
  destruct (l !! q) as [t|] eqn:E.
  - rewrite (count_visible_drop _ _ _ E), (Hh q t); [done|lia|done].
  - apply lookup_ge_None in E. by rewrite !drop_ge by lia.
Qed.

Lemma count_visible_ext (l l' : list task) (p : nat) :
  length l = length l' ->
  (forall i, (p <= i)%nat -> l !! i = l' !! i) ->
  count_visible (drop p l) = count_visible (drop p l').
Proof.
  intros Hlen H. f_equal. apply list_eq. intros i.
  rewrite !lookup_drop. apply H. lia.
Qed.

Lemma frame_refl (s : state) : frame s s.
Proof. by constructor. Qed.

Lemma frame_trans (s1 s2 s3 : state) : frame s1 s2 -> frame s2 s3 -> frame s1 s3.
Proof. intros [] []. constructor; congruence. Qed.

Lemma pos_of_next (l : list task) (p : nat) :
  (p < length l)%nat -> pos_of l (next l p) = S p.
Proof.
  intros H. unfold next. case_decide; simpl; lia.
Qed.

Lemma skip_hidden_spec (fuel : nat) (cur : option nat) (s : state) :
  (forall p, cur = Some p -> (p < length (head s))%nat) ->
  (length (head s) - pos_of (head s) cur < fuel)%nat ->
  exists cur' s',
    skip_hidden fuel cur s = Some (cur', s') /\
    head s' = head s /\ taskcount s' = taskcount s /\
    active_filters s' = active_filters s /\ frame s s' /\
    (pos_of (head s) cur <= pos_of (head s) cur')%nat /\
    totaltaskcount s' = totaltaskcount s
      + (Z.of_nat (pos_of (head s) cur') - Z.of_nat (pos_of (head s) cur)) /\
    (forall p', cur' = Some p' ->
       exists t, head s !! p' = Some t /\ is_filtered t = true) /\
    (forall i t, (pos_of (head s) cur <= i < pos_of (head s) cur')%nat ->
       head s !! i = Some t -> is_filtered t = false).
Proof.
  revert cur s. induction fuel as [|fuel IH]; intros cur s Hok Hf; [lia|].
  simpl. destruct cur as [p|].
  - specialize (Hok p eq_refl).
    destruct (lookup_lt_is_Some_2 (head s) p Hok) as [t Et]. rewrite Et. simpl.
    destruct (is_filtered t) eqn:Ev.
    + exists (Some p), s.
      split_and!; try done; try (simpl; lia).
      intros p' [= <-]. eauto.
    + destruct (IH (next (head s) p)
                  (set_totaltaskcount (totaltaskcount s + 1) s))
        as (cur' & s' & E & Hh & Htc & Haf & Hfr & Hle & Htot & Hvis & Hhid).
      { simpl. intros q Hq. apply next_Some in Hq. lia. }
      { simpl. rewrite pos_of_next by done. simpl in Hf. lia. }
      simpl in Hh, Htc, Haf, Hle, Htot, Hvis, Hhid.
      rewrite pos_of_next in Hle, Htot, Hhid by done.
      exists cur', s'.
      split_and!; try done; try (simpl; lia).
      * destruct Hfr. by constructor.
      * intros i ti Hi Hti. simpl in Hi.
        destruct (decide (i = p)) as [->|Hne]; [congruence|].
        apply (Hhid i); [lia|done].
  - exists None, s.
    split_and!; try done; try (simpl; lia).
Qed.

Lemma count_visible_all (l : list task) :
  Forall (fun t => is_filtered t = true) l ->
  count_visible l = Z.of_nat (length l).
Proof.
  induction 1 as [|t l Ht _ IH]; [done|].
  cbn [count_visible foldr length]. fold (count_visible l).
  rewrite IH, Ht. simpl Z.b2z. lia.
Qed.

Lemma count_visible_none (l : list task) :
  Forall (fun t => is_filtered t = false) l -> count_visible l = 0.
Proof.
  induction 1 as [|t l Ht _ IH]; [done|].
  cbn [count_visible foldr]. fold (count_visible l). by rewrite IH, Ht.
Qed.

Lemma filter_of_key_valid (c : Z) (tmpstr : string) (s : state) :
  valid_filter_key c ->
  strchr_found "acdptACDPT" c = true /\
  exists f, filter_of_key c tmpstr s = (f, s) /\ 0 <= mode f /\
    well_formed_filter f /\
    (clear_key c -> mode f = FILTER_CLEAR) /\
    (~ clear_key c -> mode f <> FILTER_CLEAR /\ filter_string f = Some tmpstr).
Proof.
  unfold valid_filter_key, clear_key. simpl.
  intros [<-|[<-|[<-|[<-|[<-|[<-|[<-|[<-|[<-|[<-|[]]]]]]]]]]];
    (split; [reflexivity|]); eexists; (split; [reflexivity|]);
    (split; [done|]); unfold well_formed_filter; simpl;
    (split; [eauto|]); (split; [try done; intros [?|?]; done|]);
    try (intros _; split; [done|reflexivity]);
    intros H; exfalso; apply H; auto.
Qed.

Section EngineProperties.

Context {posix : RegexLib}.

Lemma match_string_some (h : option string) (n : string) :
  exists m, match_string h (Some n) = Some m /\ (m = 0 \/ m = 1).
Proof.
  unfold match_string. destruct h as [h|]; simpl; [|eauto].
  destruct (regcomp n) as [r|]; [|eauto].
  destruct (regexec r h); eauto.
Qed.

Lemma task_match_some (t : task) (n : string) :
  exists m, task_match t (Some n) = Some m /\ (m = 0 \/ m = 1).
Proof.
  unfold task_match.
  destruct (match_string_some (project t) n) as (m1 & -> & H1).
  destruct (match_string_some (description t) n) as (m2 & -> & H2).
  destruct (match_string_some (tags t) n) as (m3 & -> & H3).
  simpl.
  destruct H1 as [-> | ->], H2 as [-> | ->], H3 as [-> | ->]; simpl; eauto.
Qed.

Lemma filter_match_some (f : task_filter) (t : task) :
  well_formed_filter f ->
  exists m, filter_match f t = Some m /\ (m = 0 \/ m = 1).
Proof.
  intros H. unfold filter_match.
  destruct (mode f =? FILTER_CLEAR) eqn:Ec.
  - apply Z.eqb_eq in Ec. rewrite Ec. simpl. eauto.
  - destruct H as [H|[n Hn]]; [apply Z.eqb_neq in Ec; done|]. rewrite Hn.
    repeat case_match; auto using match_string_some, task_match_some.
Qed.

Lemma filter_case_match (f : task_filter) (t : task) (s : state) :
  filter_case f t s =
  m ← filter_match f t;
  Some (m, if mode f =? FILTER_CLEAR
           then match active_filters s with
                | [] => s
                | _ :: _ => set_active_filters [] s
                end
           else s).
Proof.
  unfold filter_case, filter_match.
  destruct (mode f =? FILTER_DESCRIPTION) eqn:E2.
  { apply Z.eqb_eq in E2. rewrite E2. simpl. done. }
  destruct (mode f =? FILTER_TAGS) eqn:E3.
  { apply Z.eqb_eq in E3. rewrite E3. simpl. done. }
  destruct (mode f =? FILTER_PROJECT) eqn:E4.
  { apply Z.eqb_eq in E4. rewrite E4. simpl. done. }
  destruct (mode f =? FILTER_CLEAR) eqn:E1; done.
Qed.


Lemma filter_loop_step (fuel : nat) (f : task_filter) (p : nat) (s s1 : state)
    (t : task) (m : Z) :
  head s !! p = Some t -> filter_case f t s = Some (m, s1) ->
  filter_loop (S fuel) f (Some p) s =
  let s4 := filter_turn p t m s1 in
  if keeps_hidden f s4
  then '(cur2, s5) ← skip_hidden (S (length (head s4))) (next (head s4) p) s4;
       filter_loop fuel f cur2 s5
  else filter_loop fuel f (next (head s4) p) s4.
Proof.
  intros H1 H2. cbn [filter_loop]. rewrite H1.
  cbn [mbind option_bind]. rewrite H2. reflexivity.
Qed.

Lemma filter_loop_spec (f : task_filter) (fuel : nat) (cur : option nat)
    (s : state) :
  (forall p, cur = Some p ->
     (p < length (head s))%nat /\
     (keeps_hidden f s = true ->
      exists t, head s !! p = Some t /\ is_filtered t = true)) ->
  (length (head s) - pos_of (head s) cur < fuel)%nat ->
  well_formed_filter f ->
  exists s',
    filter_loop fuel f cur s = Some s' /\
    length (head s') = length (head s) /\
    (forall i, (i < pos_of (head s) cur)%nat -> head s' !! i = head s !! i) /\
    (forall i t, (pos_of (head s) cur <= i)%nat -> head s !! i = Some t ->
       head s' !! i = refilter (keeps_hidden f s) f t) /\
    taskcount s' = taskcount s
      + count_visible (drop (pos_of (head s) cur) (head s')) /\
    totaltaskcount s' = totaltaskcount s
      + (Z.of_nat (length (head s)) - Z.of_nat (pos_of (head s) cur)) /\
    active_filters s' =
      (if (mode f =? FILTER_CLEAR)
          && bool_decide (pos_of (head s) cur < length (head s))%nat
       then [] else active_filters s) /\
    frame s s'.
Proof.
  revert cur s. induction fuel as [|fuel IH]; intros cur s Hok Hf Hstr; [lia|].
  destruct cur as [p|]; cycle 1.
  { exists s. simpl. rewrite drop_all. simpl.
    rewrite bool_decide_false by lia. rewrite andb_false_r.
    split_and!; try done; try lia. intros i t Hi Ht.
    apply lookup_lt_Some in Ht. lia. }
  destruct (Hok p eq_refl) as [Hp Hvis]. simpl in Hf.
  destruct (lookup_lt_is_Some_2 (head s) p Hp) as [t Et].
  destruct (filter_match_some f t Hstr) as (m & Em & Hm).
  pose proof (filter_case_match f t s) as Ecase. rewrite Em in Ecase.
  cbn [mbind option_bind] in Ecase.
  rewrite (filter_loop_step fuel f p s _ t m Et Ecase). cbv zeta.
  set (s1 := if mode f =? FILTER_CLEAR
             then match active_filters s with
                  | [] => s
                  | _ :: _ => set_active_filters [] s
                  end
             else s).
  assert (Hs1 : head s1 = head s /\ taskcount s1 = taskcount s /\
                totaltaskcount s1 = totaltaskcount s /\ frame s s1 /\
                active_filters s1 =
                  if mode f =? FILTER_CLEAR then [] else active_filters s).
  { unfold s1. destruct (mode f =? FILTER_CLEAR); [|by split_and!].
    destruct (active_filters s) eqn:Ea; split_and!; done. }
  destruct Hs1 as (Hh1 & Htc1 & Htot1 & Hfr1 & Haf1).
  set (t' := set_is_filtered (flag m) t).
  set (s4 := filter_turn p t m s1).
  assert (Hh4 : head s4 = <[p := t']> (head s)) by (simpl; by rewrite Hh1).
  assert (Hlen4 : length (head s4) = length (head s))
    by (by rewrite Hh4, length_insert).
  assert (Hk4 : keeps_hidden f s4 = keeps_hidden f s).
  { unfold keeps_hidden. simpl. by rewrite (frame_persist _ _ Hfr1). }
  assert (Hfr4 : frame s s4) by (destruct Hfr1; by constructor).
  assert (Htc4 : taskcount s4 = taskcount s + Z.b2z (flag m))
    by (simpl; by rewrite Htc1).
  assert (Htot4 : totaltaskcount s4 = totaltaskcount s + 1)
    by (simpl; by rewrite Htot1).
  assert (Haf4 : active_filters s4 =
                 if mode f =? FILTER_CLEAR then [] else active_filters s)
    by done.
  rewrite Hk4.
  assert (Hpos1 : pos_of (head s4) (next (head s4) p) = S p)
    by (apply pos_of_next; lia).
  assert (Hp' : head s4 !! p = Some t')
    by (rewrite Hh4; by apply list_lookup_insert_eq).
  assert (Hne4 : forall i, i <> p -> head s4 !! i = head s !! i)
    by (intros i Hi; rewrite Hh4; by apply list_lookup_insert_ne).
  destruct (keeps_hidden f s) eqn:Ek.
  - (* the pass keeps what is hidden: skip to the next task shown *)
    assert (Hmode : (mode f =? FILTER_CLEAR) = false).
    { unfold keeps_hidden in Ek. apply andb_true_iff in Ek as [_ Ek].
      by apply negb_true_iff in Ek. }
    destruct (Hvis eq_refl) as (t0 & Et0 & Hv0).
    assert (t0 = t) as -> by congruence.
    destruct (skip_hidden_spec (S (length (head s4))) (next (head s4) p) s4)
      as (cur2 & s5 & E5 & Hh5 & Htc5 & Haf5 & Hfr5 & Hle5 & Htot5 & Hvis5 & Hhid5).
    { intros q Hq. apply next_Some in Hq. lia. }
    { lia. }
    rewrite E5. simpl. rewrite Hpos1 in Hle5, Htot5, Hhid5.
    destruct (IH cur2 s5) as (s' & E & Hlen & Hlt & Hge & Htc & Htot & Haf & Hfr).
    { intros q ->. destruct (Hvis5 q eq_refl) as (tq & Etq & Hvq).
      rewrite Hh5. split; [by apply lookup_lt_Some in Etq|]. eauto. }
    { rewrite Hh5, Hlen4. lia. }
    { done. }
    rewrite Hh5 in Hlen, Hlt, Hge, Htc, Htot, Haf.
    assert (Hk5 : keeps_hidden f s5 = true).
    { unfold keeps_hidden. rewrite (frame_persist _ _ Hfr5).
      fold (keeps_hidden f s4). by rewrite Hk4. }
    rewrite Hk5 in Hge.
    set (p2 := pos_of (head s4) cur2) in *.
    assert (Hp2 : (p2 <= length (head s))%nat).
    { unfold p2, pos_of. destruct cur2 as [q|]; [|lia].
      destruct (Hvis5 q eq_refl) as (tq & Etq & _).
      apply lookup_lt_Some in Etq. lia. }
    assert (Hbetween : forall i ti, (S p <= i < p2)%nat ->
              head s !! i = Some ti -> is_filtered ti = false).
    { intros i ti Hi Hti. apply (Hhid5 i); [done|]. by rewrite Hne4 by lia. }
    exists s'. cbn [pos_of]. split; [exact E|]. split; [congruence|].
    split; [|split].
    + intros i Hi. simpl in Hi. rewrite Hlt by lia. apply Hne4. lia.
    + intros i ti Hi Hti. simpl in Hi. unfold refilter.
      destruct (decide (i = p)) as [->|Hip].
      * rewrite Hlt by lia. rewrite Hp'.
        assert (ti = t) as -> by congruence.
        rewrite Hv0. simpl. by rewrite Em.
      * destruct (decide (i < p2)%nat) as [Hlt2|Hge2].
        -- rewrite Hlt by done. rewrite Hne4 by done.
           rewrite (Hbetween i ti) by (done || lia). simpl. done.
        -- rewrite (Hge i ti); [done|lia|]. by rewrite Hne4.
    + split; [|split; [|split]].
      * rewrite Htc, Htc5, Htc4.
        assert (Hs'p : head s' !! p = Some t') by (rewrite Hlt by lia; done).
        rewrite (count_visible_drop _ _ _ Hs'p).
        rewrite (count_visible_hidden (head s') (S p) p2); [simpl; lia|lia|].
        intros i ti Hi Hti. rewrite Hlt in Hti by lia.
        rewrite Hne4 in Hti by lia. by apply (Hbetween i).
      * rewrite Htot, Htot5, Htot4, Hlen4. lia.
      * rewrite Haf, Haf5, Haf4, Hmode. done.
      * eapply frame_trans; [exact Hfr4|]. eapply frame_trans; done.
  - (* every task is looked at *)
    destruct (IH (next (head s4) p) s4)
      as (s' & E & Hlen & Hlt & Hge & Htc & Htot & Haf & Hfr).
    { intros q Hq. apply next_Some in Hq as [-> Hq].
      split; [lia|]. intros Hk. rewrite Hk4 in Hk. congruence. }
    { rewrite Hpos1. lia. }
    { done. }
    rewrite Hpos1 in Hlt, Hge, Htc, Htot, Haf. rewrite Hk4 in Hge.
    exists s'. cbn [pos_of]. split; [exact E|]. split; [congruence|].
    split; [|split].
    + intros i Hi. simpl in Hi. rewrite Hlt by lia. apply Hne4. lia.
    + intros i ti Hi Hti. simpl in Hi. unfold refilter. simpl.
      destruct (decide (i = p)) as [->|Hip].
      * rewrite Hlt by lia. rewrite Hp'.
        assert (ti = t) as -> by congruence. by rewrite Em.
      * rewrite (Hge i ti); [done|lia|]. by rewrite Hne4.
    + split; [|split; [|split]].
      * rewrite Htc, Htc4.
        assert (Hs'p : head s' !! p = Some t') by (rewrite Hlt by lia; done).
        rewrite (count_visible_drop _ _ _ Hs'p). simpl. lia.
      * rewrite Htot, Htot4, Hlen4. unfold pos_of. lia.
      * rewrite Haf, Haf4, Hlen4.
        rewrite (bool_decide_true (p < _)%nat) by done.
        rewrite andb_true_r.
        destruct (mode f =? FILTER_CLEAR); [|done].
        simpl. destruct (bool_decide (S p < length (head s))%nat); reflexivity.
      * eapply frame_trans; done.
Qed.

Lemma pos_of_head_ptr (l : list task) : pos_of l (head_ptr l) = 0%nat.
Proof. by destruct l. Qed.

Lemma head_ptr_lt (l : list task) (p : nat) :
  head_ptr l = Some p -> (p < length l)%nat.
Proof. destruct l; intros [= <-]. simpl. lia. Qed.

(** The pass of [filter_tasks] as a whole: it returns, every task is
    re-filtered in place, and the counters are those of the new list. *)
Lemma filter_tasks_spec (f : task_filter) (s : state) :
  well_formed_filter f ->
  exists s',
    filter_tasks f s = Some s' /\
    length (head s') = length (head s) /\
    (forall i t, head s !! i = Some t ->
       head s' !! i = refilter (keeps_hidden f s) f t) /\
    taskcount s' = count_visible (head s') /\
    totaltaskcount s' = Z.of_nat (length (head s)) /\
    active_filters s' =
      (if (mode f =? FILTER_CLEAR) && bool_decide (0 < length (head s))%nat
       then [] else active_filters s) /\
    frame s s'.
Proof.
  intros Hstr. unfold filter_tasks.
  set (s1 := set_totaltaskcount 0 (set_taskcount 0 s)).
  assert (Hfr1 : frame s s1) by (by constructor).
  change (negb (cfg_filter_persist s1 =? 0) && negb (mode f =? FILTER_CLEAR))
    with (keeps_hidden f s).
  change (head s1) with (head s).
  destruct (keeps_hidden f s) eqn:Ek.
  - destruct (skip_hidden_spec (S (length (head s))) (head_ptr (head s)) s1)
      as (cur1 & s2 & E2 & Hh2 & Htc2 & Haf2 & Hfr2 & Hle2 & Htot2 & Hvis2 & Hhid2).
    { intros p Hp. by apply head_ptr_lt. }
    { change (head s1) with (head s). lia. }
    change (head s1) with (head s) in *.
    rewrite pos_of_head_ptr in Hle2, Htot2, Hhid2.
    rewrite E2. cbn [mbind option_bind].
    assert (Hk2 : keeps_hidden f s2 = true).
    { unfold keeps_hidden. rewrite (frame_persist _ _ Hfr2). exact Ek. }
    destruct (filter_loop_spec f (S (length (head s2))) cur1 s2)
      as (s' & E & Hlen & Hlt & Hge & Htc & Htot & Haf & Hfr).
    { intros q ->. destruct (Hvis2 q eq_refl) as (tq & Etq & Hvq).
      rewrite Hh2. split; [by apply lookup_lt_Some in Etq|]. eauto. }
    { lia. }
    { done. }
    rewrite Hh2 in Hlen, Hlt, Hge, Htc, Htot, Haf. rewrite Hk2 in Hge.
    set (p1 := pos_of (head s) cur1) in *.
    assert (Hmode : (mode f =? FILTER_CLEAR) = false).
    { unfold keeps_hidden in Ek. apply andb_true_iff in Ek as [_ Ek].
      by apply negb_true_iff in Ek. }
    exists s'. split; [exact E|]. split; [done|]. split; [|split; [|split; [|split]]].
    + intros i t Ht. destruct (decide (i < p1)%nat) as [Hi|Hi].
      * rewrite Hlt by done. rewrite Ht. unfold refilter.
        rewrite (Hhid2 i t) by (done || lia). done.
      * apply Hge; [lia|done].
    + rewrite Htc, Htc2. simpl.
      rewrite <- (count_visible_hidden (head s') 0 p1); [done|lia|].
      intros i t Hi Ht. rewrite Hlt in Ht by lia. apply (Hhid2 i); [lia|done].
    + rewrite Htot, Htot2. simpl. lia.
    + rewrite Haf, Haf2, Hmode. done.
    + eapply frame_trans; [exact Hfr1|]. eapply frame_trans; done.
  - destruct (filter_loop_spec f (S (length (head s))) (head_ptr (head s)) s1)
      as (s' & E & Hlen & Hlt & Hge & Htc & Htot & Haf & Hfr).
    { intros p Hp. split; [by apply head_ptr_lt|].
      intros Hk. change (keeps_hidden f s1) with (keeps_hidden f s) in Hk.
      congruence. }
    { change (head s1) with (head s). lia. }
    { done. }
    change (head s1) with (head s) in *.
    change (keeps_hidden f s1) with (keeps_hidden f s) in Hge.
    rewrite pos_of_head_ptr in Hlt, Hge, Htc, Htot, Haf. rewrite Ek in Hge.
    exists s'. split; [exact E|]. split; [done|]. split; [|split; [|split; [|split]]].
    + intros i t Ht. apply Hge; [lia|done].
    + rewrite Htc. simpl. by rewrite drop_0.
    + rewrite Htot. simpl. lia.
    + exact Haf.
    + eapply frame_trans; done.
Qed.

Lemma add_filter_spec (f : task_filter) (s : state) :
  well_formed_filter f -> 0 <= mode f ->
  exists s1 s',
    filter_tasks f s = Some s1 /\ add_filter f s = Some s' /\
    head s' = head s1 /\ taskcount s' = taskcount s1 /\
    totaltaskcount s' = totaltaskcount s1 /\ frame s1 s'.
Proof.
  intros Hwf Hmode. unfold add_filter.
  apply Z.leb_le in Hmode. rewrite Hmode.
  destruct (filter_tasks_spec f s Hwf) as (s1 & E & _). rewrite E.
  cbn [mbind option_bind]. exists s1.
  destruct (negb (cfg_filter_persist s1 =? 0) && negb (mode f =? FILTER_CLEAR)).
  - destruct (negb (cfg_filter_cascade s1 =? 0));
      eexists; (split; [done|]); (split; [reflexivity|]);
      split_and!; try done; by constructor.
  - exists s1. split_and!; done.
Qed.

(** C5.  With filter persistence on, for every task list and every
    two filters [F1] then [F2] where [F2] is not [FILTER_CLEAR], the
    tasks shown after [F2] are among those shown after [F1]: a task
    that [F1] left hidden stays as it is, and a task that [F1] left
    shown gets the flag that [F2] computes for it. *)
Theorem filter_persist_narrows (F1 F2 : task_filter) (s0 : state) :
  well_formed_filter F1 -> well_formed_filter F2 ->
  cfg_filter_persist s0 <> 0 -> mode F2 <> FILTER_CLEAR ->
  exists s1 s2,
    filter_tasks F1 s0 = Some s1 /\ filter_tasks F2 s1 = Some s2 /\
    length (head s2) = length (head s1) /\
    forall i t1, head s1 !! i = Some t1 ->
      exists t2, head s2 !! i = Some t2 /\
        (is_filtered t2 = true -> is_filtered t1 = true) /\
        (is_filtered t1 = false -> t2 = t1) /\
        (is_filtered t1 = true ->
         exists m, filter_match F2 t1 = Some m /\
           t2 = set_is_filtered (flag m) t1).
Proof.
  intros Hwf1 Hwf2 Hp Hm2.
  destruct (filter_tasks_spec F1 s0 Hwf1) as (s1 & E1 & _ & _ & _ & _ & _ & Hfr1).
  destruct (filter_tasks_spec F2 s1 Hwf2) as (s2 & E2 & Hlen & Hre & _).
  exists s1, s2. split; [done|]. split; [done|]. split; [done|].
  assert (Hk : keeps_hidden F2 s1 = true).
  { unfold keeps_hidden. rewrite (frame_persist _ _ Hfr1).
    apply andb_true_iff. split; apply negb_true_iff; by apply Z.eqb_neq. }
  rewrite Hk in Hre. intros i t1 Ht1. specialize (Hre i t1 Ht1).
  unfold refilter in Hre. destruct (is_filtered t1) eqn:Ev; simpl in Hre.
  - destruct (filter_match_some F2 t1 Hwf2) as (m & Em & _).
    rewrite Em in Hre. simpl in Hre.
    exists (set_is_filtered (flag m) t1). split; [done|].
    split; [done|]. split; [done|]. eauto.
  - exists t1. split; [done|]. split; [congruence|]. split; [done|]. done.
Qed.

Lemma check_curs_pos_frame (s : state) :
  head (check_curs_pos s) = head s /\
  taskcount (check_curs_pos s) = taskcount s /\
  totaltaskcount (check_curs_pos s) = totaltaskcount s /\
  statusbar (check_curs_pos s) = statusbar s.
Proof.
  unfold check_curs_pos.
  repeat match goal with
         | |- context [if ?c then _ else _] => destruct c
         end; done.
Qed.

Lemma check_curs_pos_globals (s : state) :
  active_filters (check_curs_pos s) = active_filters s /\
  searchstring (check_curs_pos s) = searchstring s /\
  cfg_sortmode (check_curs_pos s) = cfg_sortmode s /\
  cfg_filter_persist (check_curs_pos s) = cfg_filter_persist s /\
  cfg_filter_cascade (check_curs_pos s) = cfg_filter_cascade s /\
  size0 (check_curs_pos s) = size0 s /\ size1 (check_curs_pos s) = size1 s.
Proof.
  unfold check_curs_pos.
  repeat match goal with
         | |- context [if ?c then _ else _] => destruct c
         end; done.
Qed.

(** The reset of [key_filter], from the state [s3] that [add_filter]
    leaves with no task counted. *)
Lemma key_filter_reset (c : Z) (tmpstr : string) (s s3 : state)
    (f : task_filter) :
  strchr_found "acdptACDPT" c = true ->
  filter_of_key c tmpstr (key_filter_prompt c s) = (f, key_filter_prompt c s) ->
  add_filter f (key_filter_prompt c s) = Some s3 ->
  taskcount s3 = 0 ->
  exists s',
    key_filter c tmpstr s = Some s' /\
    statusbar s' = "filter yielded no results; reset"%string /\
    length (head s') = length (head s3) /\
    Forall (fun t => is_filtered t = true) (head s') /\
    taskcount s' = Z.of_nat (length (head s')) /\
    totaltaskcount s' = Z.of_nat (length (head s')).
Proof.
  intros Hkey Hf Hadd Hzero. unfold key_filter.
  rewrite Hkey. cbn [negb]. rewrite Hf, Hadd. cbn [mbind option_bind].
  rewrite Hzero. cbn [Z.eqb].
  destruct (filter_tasks_spec (mk_filter FILTER_CLEAR None) s3)
    as (s4 & E & Hlen & Hre & Htc & Htot & _); [by left|].
  rewrite E. cbn [mbind option_bind].
  eexists. split; [reflexivity|].
  destruct (check_curs_pos_frame
              (statusbar_message "filter yielded no results; reset" s4))
    as (-> & -> & -> & ->).
  cbn [head taskcount totaltaskcount statusbar statusbar_message].
  assert (Hall : Forall (fun t => is_filtered t = true) (head s4)).
  { apply Forall_lookup. intros i t' Ht'.
    destruct (lookup_lt_is_Some_2 (head s3) i) as [t Ht].
    { rewrite <- Hlen. by apply lookup_lt_Some in Ht'. }
    rewrite (Hre i t Ht) in Ht'. unfold refilter, keeps_hidden in Ht'.
    simpl in Ht'. rewrite andb_false_r in Ht'. simpl in Ht'.
    by injection Ht' as <-. }
  split; [done|]. split; [done|]. split; [done|]. split.
  - rewrite Htc. by apply count_visible_all.
  - rewrite Htot. by rewrite Hlen.
Qed.

Lemma refilter_shown (k : bool) (f : task_filter) (t t' : task) :
  refilter k f t = Some t' -> set_is_filtered true t' = set_is_filtered true t.
Proof.
  unfold refilter. destruct (k && negb (is_filtered t)).
  - by intros [= <-].
  - destruct (filter_match f t) as [m|]; [|discriminate].
    simpl. by intros [= <-].
Qed.

(** The reset of [key_filter] gives back the list that the filter
    worked on, every task shown. *)
Lemma key_filter_reset_list (c : Z) (tmpstr : string) (s s3 : state)
    (f : task_filter) :
  strchr_found "acdptACDPT" c = true ->
  filter_of_key c tmpstr (key_filter_prompt c s) = (f, key_filter_prompt c s) ->
  add_filter f (key_filter_prompt c s) = Some s3 ->
  taskcount s3 = 0 ->
  exists s',
    key_filter c tmpstr s = Some s' /\
    head s' = set_is_filtered true <$> head s3 /\
    active_filters s' =
      match head s3 with [] => active_filters s3 | _ :: _ => [] end /\
    searchstring s' = searchstring s3 /\
    cfg_sortmode s' = cfg_sortmode s3 /\
    cfg_filter_persist s' = cfg_filter_persist s3 /\
    cfg_filter_cascade s' = cfg_filter_cascade s3 /\
    size0 s' = size0 s3 /\ size1 s' = size1 s3.
Proof.
  intros Hkey Hf Hadd Hzero. unfold key_filter.
  rewrite Hkey. cbn [negb]. rewrite Hf, Hadd. cbn [mbind option_bind].
  rewrite Hzero. cbn [Z.eqb].
  destruct (filter_tasks_spec (mk_filter FILTER_CLEAR None) s3)
    as (s4 & E & Hlen & Hre & _ & _ & Haf & Hfr); [by left|].
  rewrite E. cbn [mbind option_bind].
  eexists. split; [reflexivity|].
  destruct (check_curs_pos_frame
              (statusbar_message "filter yielded no results; reset" s4))
    as (-> & _).
  destruct (check_curs_pos_globals
              (statusbar_message "filter yielded no results; reset" s4))
    as (-> & -> & -> & -> & -> & -> & ->).
  cbn [head active_filters searchstring cfg_sortmode cfg_filter_persist
       cfg_filter_cascade size0 size1 statusbar_message].
  destruct Hfr. split_and!; try done.
  - apply list_eq. intros i. rewrite list_lookup_fmap.
    destruct (head s3 !! i) as [t|] eqn:Et.
    + rewrite (Hre i t Et). unfold refilter, keeps_hidden, filter_match.
      simpl. by rewrite andb_false_r.
    + apply lookup_ge_None in Et. apply lookup_ge_None. lia.
  - rewrite Haf. simpl. by destruct (head s3).
Qed.


Lemma filter_match_invalid (f : task_filter) (pat : string) (t : task) :
  regcomp pat = None -> filter_string f = Some pat ->
  mode f <> FILTER_CLEAR -> filter_match f t = Some 0.
Proof.
  intros Hre Hpat Hmode.
  assert (Hms : forall h, match_string h (Some pat) = Some 0).
  { intros [h|]; unfold match_string; simpl; [|done]. by rewrite Hre. }
  unfold filter_match. rewrite Hpat.
  apply Z.eqb_neq in Hmode. rewrite Hmode.
  unfold task_match. rewrite !Hms. simpl.
  repeat case_match; done.
Qed.

(** An invalid pattern hides every task. *)
Lemma add_filter_invalid (f : task_filter) (pat : string) (s : state) :
  regcomp pat = None -> filter_string f = Some pat ->
  0 <= mode f -> mode f <> FILTER_CLEAR ->
  exists s',
    add_filter f s = Some s' /\ length (head s') = length (head s) /\
    Forall (fun t => is_filtered t = false) (head s') /\ taskcount s' = 0.
Proof.
  intros Hre Hpat Hpos Hmode.
  assert (Hwf : well_formed_filter f) by (right; rewrite Hpat; eauto).
  destruct (add_filter_spec f s Hwf Hpos) as (s1 & s' & E1 & E & Hh & Htc & _).
  destruct (filter_tasks_spec f s Hwf) as (s1' & E1' & Hlen & Hrf & Htc1 & _).
  assert (s1' = s1) as -> by congruence.
  assert (Hall : Forall (fun t => is_filtered t = false) (head s1)).
  { apply Forall_lookup. intros i t' Ht'.
    destruct (lookup_lt_is_Some_2 (head s) i) as [t Ht].
    { rewrite <- Hlen. by apply lookup_lt_Some in Ht'. }
    rewrite (Hrf i t Ht) in Ht'. unfold refilter in Ht'.
    rewrite (filter_match_invalid f pat t Hre Hpat Hmode) in Ht'.
    destruct (keeps_hidden f s && negb (is_filtered t)) eqn:Ek;
      simpl in Ht'; injection Ht' as <-; [|done].
    apply andb_true_iff in Ek as [_ Ek]. by apply negb_true_iff in Ek. }
  exists s'. split; [done|]. rewrite Hh, Htc, Htc1.
  split; [done|]. split; [done|]. by apply count_visible_none.
Qed.


End EngineProperties.

(** ** The search walk *)

Lemma count_visible_nonneg (l : list task) : 0 <= count_visible l.
Proof.
  induction l as [|t l IH]; [done|].
  cbn [count_visible foldr]. fold (count_visible l).
  destruct (is_filtered t); simpl; lia.
Qed.

Lemma count_visible_take_S (l : list task) (i : nat) (t : task) :
  l !! i = Some t ->
  count_visible (take (S i) l) = count_visible (take i l) + Z.b2z (is_filtered t).
Proof.
  revert i. induction l as [|x l IH]; intros [|i] H; try discriminate.
  - injection H as ->. unfold count_visible. simpl. lia.
  - change (take (S (S i)) (x :: l)) with (x :: take (S i) l).
    change (take (S i) (x :: l)) with (x :: take i l).
    cbn [count_visible foldr].
    fold (count_visible (take (S i) l)). fold (count_visible (take i l)).
    rewrite (IH i H). lia.
Qed.

Lemma count_visible_take_mono (l : list task) (i j : nat) :
  (i <= j)%nat -> count_visible (take i l) <= count_visible (take j l).
Proof.
  induction 1 as [|j Hij IH]; [lia|].
  destruct (l !! j) as [t|] eqn:E.
  - rewrite (count_visible_take_S _ _ _ E). destruct (is_filtered t); simpl; lia.
  - apply lookup_ge_None in E. rewrite (take_ge l (S j)) by lia.
    by rewrite (take_ge l j) in IH by lia.
Qed.

(** The node that [sel_task] returns is shown, and it is the one
    that makes the count of tasks shown reach the selected line. *)
Lemma sel_task_from_spec (l : list task) (p0 : nat) (i sel : Z) (p : nat) :
  sel_task_from l p0 i sel = Some p -> -1 <= i < sel -> sel <= 32767 ->
  exists k t, p = (p0 + k)%nat /\ l !! k = Some t /\ is_filtered t = true /\
    i + count_visible (take (S k) l) = sel.
Proof.
  revert p0 i. induction l as [|t l IH]; intros p0 i H Hi Hs; [discriminate|].
  simpl in H. rewrite to_short_id in H by (destruct (is_filtered t); simpl; lia).
  destruct (i + Z.b2z (is_filtered t) =? sel) eqn:E.
  - apply Z.eqb_eq in E. injection H as <-.
    exists 0%nat, t. destruct (is_filtered t) eqn:Ev; simpl in E; [|lia].
    split; [lia|]. split; [done|]. split; [done|].
    rewrite (count_visible_take_S (t :: l) 0%nat t eq_refl), take_0, Ev.
    simpl. lia.
  - apply Z.eqb_neq in E.
    destruct (IH (S p0) (i + Z.b2z (is_filtered t)) H) as (k & t' & -> & Hk & Hv & Hc).
    { destruct (is_filtered t); simpl in *; lia. }
    { done. }
    exists (S k), t'. split; [lia|]. split; [done|]. split; [done|].
    change (take (S (S k)) (t :: l)) with (t :: take (S k) l).
    cbn [count_visible foldr]. fold (count_visible (take (S k) l)). lia.
Qed.

Section SearchProperties.

Context {posix : RegexLib}.

Lemma search_loop_wrap (fuel : nat) (pos cur : nat) (s : state) (t : task) :
  next (head s) cur = None -> head s !! 0%nat = Some t ->
  search_loop (S fuel) pos cur s
  = search_check fuel pos 0 t (set_selline (if is_filtered t then 0 else -1) s).
Proof.
  intros Hn Ht. cbn [search_loop]. rewrite Hn.
  destruct (head s) as [|t0 l0] eqn:El; [discriminate|].
  simpl in Ht. injection Ht as ->. reflexivity.
Qed.

Lemma search_loop_shown (fuel : nat) (pos cur c : nat) (s : state) (t : task) :
  next (head s) cur = Some c -> head s !! c = Some t -> is_filtered t = true ->
  search_loop (S fuel) pos cur s
  = search_check fuel pos c t (set_selline (to_short (selline s + 1)) s).
Proof.
  intros Hn Ht Hv. cbn [search_loop]. rewrite Hn, Ht.
  cbn [mbind option_bind]. rewrite Hv. reflexivity.
Qed.

Lemma search_loop_hidden (fuel : nat) (pos cur c : nat) (s : state) (t : task) :
  next (head s) cur = Some c -> head s !! c = Some t -> is_filtered t = false ->
  search_loop (S fuel) pos cur s = search_loop fuel pos c s.
Proof.
  intros Hn Ht Hv. cbn [search_loop]. rewrite Hn, Ht.
  cbn [mbind option_bind]. rewrite Hv. reflexivity.
Qed.

Section Walk.

Variable s0 : state.
Variable p : nat.
Variable tp : task.
Variable mp : Z.
Hypothesis Hp : head s0 !! p = Some tp.
Hypothesis Hshown : is_filtered tp = true.
Hypothesis Hsel : count_visible (take (S p) (head s0)) - 1 <= 32767.
Hypothesis Hmp : task_match tp (searchstring s0) = Some mp.
Hypothesis Hothers : forall i t, i <> p -> head s0 !! i = Some t ->
  is_filtered t = true \/ i = 0%nat ->
  task_match t (searchstring s0) = Some 0.

(** From the head to the start. *)
Lemma search_from_head (fuel cur : nat) :
  (cur < p)%nat -> (p - cur <= fuel)%nat ->
  search_loop fuel p cur
    (set_selline (count_visible (take (S cur) (head s0)) - 1) s0)
  = Some (search_end s0 p mp).
Proof.
  revert cur. induction fuel as [|fuel IH]; intros cur Hc Hf; [lia|].
  pose proof (lookup_lt_Some _ _ _ Hp) as Hlen.
  set (s := set_selline _ s0).
  assert (Hn : next (head s) cur = Some (S cur)) by (apply next_lt; simpl; lia).
  destruct (lookup_lt_is_Some_2 (head s0) (S cur) ltac:(lia)) as [t Ht].
  pose proof (count_visible_take_S _ _ _ Ht) as Hcnt.
  pose proof (count_visible_take_mono (head s0) (S (S cur)) (S p) ltac:(lia)) as Hmono.
  pose proof (count_visible_nonneg (take (S cur) (head s0))) as Hnn.
  destruct (is_filtered t) eqn:Ev.
  - rewrite (search_loop_shown fuel p cur (S cur) s t Hn Ht Ev).
    unfold search_check.
    change (searchstring (set_selline _ s)) with (searchstring s0).
    change (selline s) with (count_visible (take (S cur) (head s0)) - 1).
    simpl Z.b2z in Hcnt.
    rewrite to_short_id by lia.
    replace (count_visible (take (S cur) (head s0)) - 1 + 1)
      with (count_visible (take (S (S cur)) (head s0)) - 1) by lia.
    destruct (decide (S cur = p)) as [Heq|Hne].
    + assert (t = tp) as -> by (rewrite Heq in Ht; congruence).
      rewrite Hmp. cbn [mbind option_bind]. unfold search_end. rewrite Heq.
      by destruct (mp =? 1).
    + rewrite (Hothers (S cur) t Hne Ht (or_introl Ev)).
      cbn [mbind option_bind Z.eqb].
      apply IH; lia.
  - rewrite (search_loop_hidden fuel p cur (S cur) s t Hn Ht Ev).
    assert (S cur <> p) by (intros Heq; rewrite Heq in Ht; congruence).
    simpl Z.b2z in Hcnt. unfold s.
    replace (count_visible (take (S cur) (head s0)) - 1)
      with (count_visible (take (S (S cur)) (head s0)) - 1) by lia.
    apply IH; lia.
Qed.

(** From the start to the end of the list, and around. *)
Lemma search_from_start (fuel cur : nat) (x : Z) :
  (p <= cur)%nat -> (cur < length (head s0))%nat ->
  (length (head s0) - cur + p <= fuel)%nat ->
  search_loop fuel p cur (set_selline x s0) = Some (search_end s0 p mp).
Proof.
  revert cur x. induction fuel as [|fuel IH]; intros cur x Hpc Hc Hf; [lia|].
  set (s := set_selline x s0).
  destruct (decide (S cur < length (head s0))%nat) as [Hlt|Hge].
  - assert (Hn : next (head s) cur = Some (S cur)) by (by apply next_lt).
    destruct (lookup_lt_is_Some_2 (head s0) (S cur) Hlt) as [t Ht].
    destruct (is_filtered t) eqn:Ev.
    + rewrite (search_loop_shown fuel p cur (S cur) s t Hn Ht Ev).
      unfold search_check.
      change (searchstring (set_selline _ s)) with (searchstring s0).
      rewrite (Hothers (S cur) t ltac:(lia) Ht (or_introl Ev)).
      cbn [mbind option_bind Z.eqb]. rewrite decide_False by lia.
      apply IH; lia.
    + rewrite (search_loop_hidden fuel p cur (S cur) s t Hn Ht Ev).
      apply IH; lia.
  - assert (Hn : next (head s) cur = None) by (apply next_ge; simpl; lia).
    destruct (lookup_lt_is_Some_2 (head s0) 0%nat ltac:(lia)) as [t Ht].
    rewrite (search_loop_wrap fuel p cur s t Hn Ht).
    unfold search_check.
    change (searchstring (set_selline _ s)) with (searchstring s0).
    assert (Hx : (if is_filtered t then 0 else -1)
                 = count_visible (take 1 (head s0)) - 1).
    { rewrite (count_visible_take_S _ 0%nat t Ht), take_0.
      destruct (is_filtered t); reflexivity. }
    rewrite Hx.
    destruct (decide (0%nat = p)) as [Heq|Hne].
    + subst p. assert (t = tp) as -> by congruence.
      rewrite Hmp. cbn [mbind option_bind]. unfold search_end.
      by destruct (mp =? 1).
    + rewrite (Hothers 0%nat t Hne Ht (or_intror eq_refl)).
      cbn [mbind option_bind Z.eqb].
      apply search_from_head; lia.
Qed.

End Walk.

Lemma set_selline_same (s : state) : set_selline (selline s) s = s.
Proof. by destruct s. Qed.

(** C7, amended.  The walk starts from the task selected, which is
    shown.  If no candidate other than this start matches (the
    candidates are the tasks shown and, when the walk wraps, the
    head), the walk closes on the start and tests it as well: when
    the start does not match, "no matches" is written and the
    selected line is the one before the search; when the start
    matches, it is accepted as the result, nothing is written, and
    the selected line is again the one before the search. *)
Theorem search_closes_on_start (s : state) (p : nat) (str : string) :
  sel_task s = Some p -> 0 <= selline s <= 32767 ->
  searchstring s = Some str ->
  (forall i t, i <> p -> head s !! i = Some t ->
     is_filtered t = true \/ i = 0%nat -> task_match t (Some str) = Some 0) ->
  exists tp, head s !! p = Some tp /\ is_filtered tp = true /\
    (task_match tp (Some str) = Some 0 ->
     find_next_search_result (sel_task s) s
     = Some (statusbar_message ("no matches: " ++ str) s)) /\
    (task_match tp (Some str) = Some 1 ->
     find_next_search_result (sel_task s) s = Some s).
Proof.
  intros Hsel Hrange Hstr Hothers.
  destruct (sel_task_from_spec (head s) 0 (-1) (selline s) p Hsel)
    as (k & tp & -> & Hp & Hshown & Hcount); [lia..|].
  simpl in *. exists tp. split; [done|]. split; [done|].
  assert (Hwalk : forall mp, task_match tp (Some str) = Some mp ->
            find_next_search_result (Some k) s = Some (search_end s k mp)).
  { intros mp Hmp. unfold find_next_search_result.
    cbn [mbind option_bind]. rewrite Hp. cbn [mbind option_bind].
    rewrite <- (set_selline_same s) at 2.
    pose proof (lookup_lt_Some _ _ _ Hp) as Hlen.
    apply (search_from_start s k tp mp Hp Hshown);
      [lia|by rewrite Hstr|rewrite Hstr; exact Hothers|lia|lia|lia]. }
  rewrite Hsel.
  assert (Hend : count_visible (take (S k) (head s)) - 1 = selline s) by lia.
  split; intros Hmp; rewrite (Hwalk _ Hmp); unfold search_end;
    rewrite Hend, set_selline_same; [|done].
  unfold no_matches_message. by rewrite Hstr.
Qed.

End SearchProperties.

(** ** The cursor *)

Lemma check_curs_pos_keeps (s : state) :
  taskcount (check_curs_pos s) = taskcount s /\
  size1 (check_curs_pos s) = size1 s /\
  (is_short (selline s) -> is_short (selline (check_curs_pos s))).
Proof.
  unfold check_curs_pos, is_short.
  repeat match goal with
         | |- context [if ?c then _ else _] => destruct c
         end; simpl; split_and!; try done; intros; try lia;
    apply to_short_range.
Qed.

(** The [switch] of [key_scroll] leaves the counters and the screen,
    and a selected line that is a [short]. *)
Lemma key_scroll_switch (d : Z) (s : state) :
  exists s1, key_scroll d s = check_curs_pos s1 /\
    taskcount s1 = taskcount s /\ size1 s1 = size1 s /\
    (is_short (selline s) -> is_short (selline s1)).
Proof.
  unfold key_scroll.
  set (s1 := if d =? -1 then _ else _). exists s1. split; [done|].
  unfold s1, is_short.
  repeat match goal with
         | |- context [if ?c then _ else _] => destruct c
         end; simpl; split_and!; try done; intros; try lia;
    apply to_short_range.
Qed.

Lemma key_scroll_keeps (d : Z) (s : state) :
  taskcount (key_scroll d s) = taskcount s /\
  size1 (key_scroll d s) = size1 s /\
  (is_short (selline s) -> is_short (selline (key_scroll d s))).
Proof.
  destruct (key_scroll_switch d s) as (s1 & -> & H1 & H2 & H3).
  destruct (check_curs_pos_keeps s1) as (-> & -> & H). auto.
Qed.

Lemma check_curs_pos_bounds (s : state) :
  1 <= taskcount s -> is_short (selline s) -> 3 <= size1 s <= 32770 ->
  in_view (check_curs_pos s).
Proof.
  intros Htc Hsel Hsize. unfold is_short in Hsel. unfold in_view.
  assert (Hon : onscreentasks s = size1 s - 3).
  { unfold onscreentasks. apply to_short_id. lia. }
  unfold check_curs_pos.
  destruct (selline s <? 0) eqn:E1.
  - apply Z.ltb_lt in E1. cbn [selline set_selline pageoffset].
    destruct (0 <? pageoffset s) eqn:E2.
    + cbn. unfold onscreentasks in *. cbn. lia.
    + apply Z.ltb_ge in E2.
      change (onscreentasks (set_selline 0 s)) with (onscreentasks s).
      destruct (0 >? pageoffset s + onscreentasks s) eqn:E3.
      * cbn. unfold onscreentasks in *. cbn. rewrite to_short_id by lia. lia.
      * cbn. unfold onscreentasks in *. cbn. lia.
  - apply Z.ltb_ge in E1.
    destruct (selline s >=? taskcount s) eqn:E4.
    + apply Z.geb_le in E4. cbn [selline set_selline pageoffset].
      rewrite (to_short_id (taskcount s - 1)) by lia.
      change (onscreentasks (set_selline _ s)) with (onscreentasks s).
      destruct (taskcount s - 1 <? pageoffset s) eqn:E2.
      * cbn. unfold onscreentasks in *. cbn. rewrite to_short_id by lia. lia.
      * apply Z.ltb_ge in E2.
        destruct (taskcount s - 1 >? pageoffset s + onscreentasks s) eqn:E3.
        -- cbn. unfold onscreentasks in *. cbn.
           rewrite !to_short_id by lia. lia.
        -- cbn. unfold onscreentasks in *. cbn.
           rewrite to_short_id by lia. lia.
    + assert (selline s < taskcount s).
      { destruct (Z.geb_spec (selline s) (taskcount s)); [discriminate|lia]. }
      destruct (selline s <? pageoffset s) eqn:E2.
      * cbn. unfold onscreentasks in *. cbn. lia.
      * apply Z.ltb_ge in E2.
        destruct (selline s >? pageoffset s + onscreentasks s) eqn:E3.
        -- cbn. unfold onscreentasks in *. cbn.
           rewrite to_short_id by lia. lia.
        -- cbn. unfold onscreentasks in *. cbn. lia.
Qed.

(** [check_screen_size] runs before every key is read: it leaves a
    screen of at least 5 lines. *)
Lemma check_screen_size_lines (projlen : Z) (readings : list (Z * Z))
    (s s' : state) :
  check_screen_size projlen readings s = Some s' -> 5 <= size1 s'.
Proof.
  induction readings as [|[columns lines] rest IH]; [discriminate|].
  simpl. destruct (_ || _) eqn:E; [exact IH|].
  intros [= <-]. simpl. apply orb_false_iff in E as [_ E].
  apply Z.ltb_ge in E. lia.
Qed.

(** C8.  For every sequence of keys handled by [key_scroll] (scroll
    by one, jump to the first or the last entry; any other direction
    only runs the check) followed by [check_curs_pos], when at least
    one task is shown, on a screen of at least 3 lines, the selected
    line is within 0 and [taskcount - 1], and
    [pageoffset <= selline <= pageoffset + onscreentasks], where
    [onscreentasks] is the number of lines minus 3; so the bound also
    holds with the number of lines minus the title and status rows.
    The same holds right after each key, since [key_scroll] ends with
    the check. *)
Theorem scroll_keeps_selection_in_view (directions : list Z) (s : state) :
  1 <= taskcount s -> is_short (selline s) -> 3 <= size1 s <= 32770 ->
  let s' := scroll_run directions s in
  taskcount s' = taskcount s /\ size1 s' = size1 s /\
  in_view s' /\
  onscreentasks s' = size1 s' - 3 /\
  selline s' <= pageoffset s' + (size1 s' - 2) /\
  forall d, in_view (key_scroll d (foldl (fun s d => key_scroll d s) s directions)).
Proof.
  intros Htc Hsel Hsize. unfold scroll_run.
  assert (Hrun : forall s0, taskcount s0 = taskcount s -> size1 s0 = size1 s ->
            is_short (selline s0) ->
            let s1 := foldl (fun s d => key_scroll d s) s0 directions in
            taskcount s1 = taskcount s /\ size1 s1 = size1 s /\
            is_short (selline s1)).
  { induction directions as [|d ds IH]; intros s0 H1 H2 H3; [done|].
    simpl. destruct (key_scroll_keeps d s0) as (K1 & K2 & K3).
    apply IH; [congruence|congruence|auto]. }
  destruct (Hrun s eq_refl eq_refl Hsel) as (R1 & R2 & R3).
  set (s1 := foldl _ s directions) in *.
  destruct (check_curs_pos_keeps s1) as (C1 & C2 & _).
  pose proof (check_curs_pos_bounds s1 ltac:(lia) R3 ltac:(lia)) as B.
  cbv zeta. rewrite C1, C2, R1, R2.
  assert (Hon : onscreentasks (check_curs_pos s1) = size1 s - 3).
  { unfold onscreentasks. rewrite C2, R2. apply to_short_id. lia. }
  split; [done|]. split; [done|]. split; [done|]. split; [done|]. split.
  - destruct B as [_ B]. rewrite Hon in B. lia.
  - intros d. destruct (key_scroll_switch d s1) as (s2 & -> & K1 & K2 & K3).
    apply check_curs_pos_bounds; [lia|auto|lia].
Qed.

Lemma scroll_keeps_selection_in_view_witness :
  let s := sample_state [described 0 None "a"; described 1 None "b";
                         described 2 None "c"] 0 None in
  in_view (scroll_run [1; 1; 1; 2; -1; -2] s).
Proof.
  intros s.
  destruct (scroll_keeps_selection_in_view [1; 1; 1; 2; -1; -2] s)
    as (_ & _ & H & _).
  - simpl. lia.
  - unfold is_short. simpl. lia.
  - simpl. lia.
  - exact H.
Defined.

(** C7, as stated, fails: the first of two tasks is selected and is
    the only one that matches "al".  The walk finds no match on the
    other task, closes on the start, accepts it, and returns without
    writing "no matches": the state comes back as it was. *)
Lemma search_accepts_the_start :
  let s := sample_state [described 0 None "alpha"; described 1 None "beta"]
             0 (Some "al"%string) in
  sel_task s = Some 0%nat /\
  task_match (posix := sample_regex) (described 1 None "beta")
    (Some "al"%string) = Some 0 /\
  find_next_search_result (posix := sample_regex) (sel_task s) s = Some s /\
  statusbar s <> no_matches_message s.
Proof.
  split; [reflexivity|]. split; [reflexivity|].
  split; [vm_compute; reflexivity|discriminate].
Qed.

Lemma search_closes_on_start_witness :
  let s := sample_state [described 0 None "alpha"; described 1 None "beta"]
             1 (Some "zz"%string) in
  find_next_search_result (posix := sample_regex) (sel_task s) s
  = Some (statusbar_message "no matches: zz" s).
Proof.
  intros s.
  destruct (search_closes_on_start (posix := sample_regex)
              s 1%nat "zz"%string) as (tp & Hp & _ & Hno & _).
  - reflexivity.
  - simpl. lia.
  - reflexivity.
  - intros [|[|i]] t Hi Ht _; [|done|destruct i; discriminate].
    injection Ht as <-. reflexivity.
  - apply Hno. injection Hp as <-. reflexivity.
Defined.

Lemma filter_persist_narrows_witness :
  let s0 := sample_state [described 0 (Some "A"%string) "alpha";
                          described 1 (Some "B"%string) "beta";
                          described 2 (Some "A"%string) "gamma"] 0 None in
  let F1 := mk_filter FILTER_PROJECT (Some "A"%string) in
  let F2 := mk_filter FILTER_DESCRIPTION (Some "a"%string) in
  exists s1 s2,
    filter_tasks (posix := sample_regex) F1 s0 = Some s1 /\
    filter_tasks (posix := sample_regex) F2 s1 = Some s2 /\
    is_filtered <$> head s1 = [true; false; true] /\
    is_filtered <$> head s2 = [true; false; true].
Proof.
  intros s0 F1 F2.
  destruct (filter_persist_narrows (posix := sample_regex)
              F1 F2 s0) as (s1 & s2 & E1 & E2 & _).
  - right. eexists. reflexivity.
  - right. eexists. reflexivity.
  - simpl. lia.
  - discriminate.
  - exists s1, s2. split; [exact E1|]. split; [exact E2|].
    vm_compute in E1. injection E1 as <-.
    vm_compute in E2. injection E2 as <-. split; reflexivity.
Defined.



(** ** The comparator is transitive, and the sort sorts *)

Lemma code_range (c : ascii) : 0 <= code c.
Proof. unfold code. lia. Qed.

Lemma strcmp_le_trans (a b c : string) :
  strcmp a b <= 0 -> strcmp b c <= 0 ->
  strcmp a c <= 0 /\ (strcmp a c = 0 -> strcmp a b = 0 /\ strcmp b c = 0).
Proof.
  revert b c. induction a as [|k a IH]; intros [|d b] [|e c]; simpl;
    try pose proof (code_range k) as Rk; try pose proof (code_range d) as Rd;
    try pose proof (code_range e) as Re;
    repeat match goal with
           | |- context [?x =? ?y] =>
               destruct (Z.eqb_spec x y)
           end; try lia.
  intros L1 L2. destruct (IH b c L1 L2). lia.
Qed.

Lemma compare_n_trans (a b c : task) :
  compare_n a b = 1 -> compare_n b c = 1 -> compare_n a c = 1.
Proof.
  unfold compare_n.
  destruct (Z.ltb_spec (index a) (index b)); [|discriminate].
  destruct (Z.ltb_spec (index b) (index c)); [|discriminate].
  destruct (Z.ltb_spec (index a) (index c)); [done|lia].
Qed.

Lemma compare_p_trans (a b c : task) :
  compare_p a b = 1 -> compare_p b c = 1 -> compare_p a c = 1.
Proof.
  unfold compare_p.
  destruct (project a) as [pa|], (project b) as [pb|], (project c) as [pc|];
    try discriminate; try done.
  cbv zeta. intros H1 H2.
  assert (L1 : strcmp pa pb <= 0).
  { destruct (Z.eqb_spec (strcmp pa pb) 0); [lia|].
    destruct (Z.ltb_spec (strcmp pa pb) 0); [lia|discriminate]. }
  assert (L2 : strcmp pb pc <= 0).
  { destruct (Z.eqb_spec (strcmp pb pc) 0); [lia|].
    destruct (Z.ltb_spec (strcmp pb pc) 0); [lia|discriminate]. }
  destruct (strcmp_le_trans pa pb pc L1 L2) as [L3 L4].
  destruct (Z.eqb_spec (strcmp pa pc) 0) as [E|E].
  - destruct (L4 E) as [E1 E2]. rewrite E1, E2 in *. simpl in H1, H2.
    by apply compare_n_trans with b.
  - destruct (Z.ltb_spec (strcmp pa pc) 0); [done|lia].
Qed.

Lemma compare_r_trans (a b c : task) :
  compare_r a b = 1 -> compare_r b c = 1 -> compare_r a c = 1.
Proof.
  unfold compare_r. rewrite !priority_switch.
  generalize (compare_p_trans a b c).
  generalize (compare_p a b), (compare_p b c), (compare_p a c).
  generalize (priority a), (priority b), (priority c).
  intros x y z ab bc ac Hp.
  repeat match goal with
         | |- context [Ascii.eqb ?u ?v] =>
             destruct (Ascii.eqb_spec u v); subst; cbn [orb]
         end; try discriminate; try done.
Qed.

Lemma compare_d_trans (a b c : task) :
  compare_d a b = 1 -> compare_d b c = 1 -> compare_d a c = 1.
Proof.
  unfold compare_d.
  destruct (Z.eqb_spec (due a) 0), (Z.eqb_spec (due b) 0),
    (Z.eqb_spec (due c) 0); try discriminate; try done.
  - apply compare_r_trans.
  - destruct (Z.ltb_spec (due a) (due b)); [|discriminate].
    destruct (Z.ltb_spec (due b) (due c)); [|discriminate].
    destruct (Z.ltb_spec (due a) (due c)); [done|lia].
Qed.

Lemma compare_tasks_trans (sort_mode : ascii) (a b c : task) :
  compare_tasks a b sort_mode = 1 -> compare_tasks b c sort_mode = 1 ->
  compare_tasks a c sort_mode = 1.
Proof.
  destruct (compare_tasks_dispatch sort_mode) as [H|[H|[H|H]]]; rewrite !H.
  - apply compare_n_trans.
  - apply compare_p_trans.
  - apply compare_r_trans.
  - apply compare_d_trans.
Qed.

(** The scan leaves at [start] a payload that sorts before none of
    the nodes it went over. *)
Lemma sort_scan_last (fuel : nat) (sort_mode : ascii) (start cur last : nat)
    (l l' : list task) :
  (start < cur)%nat -> (cur <= last)%nat ->
  (forall j ts tj, (start < j < cur)%nat -> l !! start = Some ts ->
     l !! j = Some tj -> compare_tasks ts tj sort_mode <> 1) ->
  sort_scan fuel sort_mode start cur last l = Some l' ->
  seg_pres start last l l' /\
  (forall j ts tj, (start < j <= last)%nat -> l' !! start = Some ts ->
     l' !! j = Some tj -> compare_tasks ts tj sort_mode <> 1).
Proof.
  revert cur l. induction fuel as [|fuel IH]; intros cur l Hsc Hcl Hmax H;
    [discriminate|].
  simpl in H.
  destruct (l !! start) as [ta|] eqn:Ea; [|discriminate].
  destruct (l !! cur) as [tb|] eqn:Eb; [|discriminate]. simpl in H.
  destruct (if compare_tasks ta tb sort_mode =? 1
            then swap_tasks start cur l else Some l) as [l1|] eqn:E;
    [|discriminate].
  simpl in H.
  assert (Hseg1 : seg_pres start last l l1).
  { destruct (_ =? 1); [|injection E as <-; apply seg_pres_refl].
    eapply swap_tasks_seg; [done|lia..]. }
  assert (Hmax1 : forall j ts tj, (start < j < S cur)%nat ->
            l1 !! start = Some ts -> l1 !! j = Some tj ->
            compare_tasks ts tj sort_mode <> 1).
  { intros j ts tj Hj Hs Ht.
    destruct (Z.eqb_spec (compare_tasks ta tb sort_mode) 1) as [Elt|Elt].
    - destruct (swap_tasks_lookup _ _ _ _ _ _ Ea Eb E) as (Hs' & Hc' & Ho').
      rewrite Hs' in Hs. injection Hs as <-.
      destruct (decide (j = cur)) as [->|Hjc].
      + rewrite Hc' in Ht. injection Ht as <-.
        intros Hba. exact (compare_tasks_asym sort_mode ta tb (conj Elt Hba)).
      + rewrite Ho' in Ht by lia. intros Hbj.
        apply (Hmax j ta tj ltac:(lia) eq_refl Ht).
        by apply compare_tasks_trans with tb.
    - injection E as <-.
      rewrite Ea in Hs. injection Hs as <-.
      destruct (decide (j = cur)) as [->|Hjc].
      + rewrite Eb in Ht. by injection Ht as <-.
      + apply (Hmax j); [lia|done..]. }
  case_decide as Hcur.
  - injection H as <-. subst last. split; [done|].
    intros j ts tj Hj. apply Hmax1. lia.
  - destruct (next l1 cur) as [cur'|] eqn:En; [|discriminate]. simpl in H.
    apply next_Some in En as [-> _].
    destruct (IH (S cur) l1 ltac:(lia) ltac:(lia) Hmax1 H) as [Hseg' Hmax'].
    split; [by eapply seg_pres_trans|done].
Qed.

Lemma sort_tasks_ordered (fuel : nat) (sort_mode : ascii) (first last : nat)
    (l l' : list task) :
  (first <= last)%nat ->
  sort_tasks fuel sort_mode first last l = Some l' ->
  seg_pres first last l l' /\ ordered_seg sort_mode first last l'.
Proof.
  revert first last l l'.
  induction fuel as [|fuel IH]; intros first last l l' Hfl H; [discriminate|].
  simpl in H. case_decide as Heq.
  - injection H as <-. subst last. split; [apply seg_pres_refl|].
    intros i j ti tj Hi Hij Hj Ei Ej. lia.
  - destruct (next l first) as [cur|] eqn:En; [|discriminate]. simpl in H.
    apply next_Some in En as [-> Hlen].
    destruct (sort_scan _ _ _ _ _ _) as [l1|] eqn:E1; [|discriminate].
    simpl in H.
    destruct (swap_tasks first last l1) as [l2|] eqn:E2; [|discriminate].
    simpl in H.
    apply sort_scan_last in E1 as [Hseg1 Hmax1]; [|lia|lia|intros; lia].
    pose proof (swap_tasks_seg first last _ _ _ _ E2 ltac:(lia) ltac:(lia))
      as Hseg2.
    (* the last node now holds a payload that sorts before no other *)
    assert (Hmax2 : forall j tl tj, (first <= j < last)%nat ->
              l2 !! last = Some tl -> l2 !! j = Some tj ->
              compare_tasks tl tj sort_mode <> 1).
    { intros j tl tj Hj El Ej.
      pose proof E2 as E2'. unfold swap_tasks in E2'.
      destruct (l1 !! first) as [ta|] eqn:Ea; [|discriminate].
      destruct (l1 !! last) as [tb|] eqn:Eb; [|discriminate].
      destruct (swap_tasks_lookup first last l1 l2 ta tb Ea Eb E2)
        as (Hf & Hl & Ho).
      rewrite Hl in El. injection El as <-.
      destruct (decide (j = first)) as [->|Hjf].
      { rewrite Hf in Ej. injection Ej as <-.
        apply (Hmax1 last ta tb); [lia|done..]. }
      rewrite Ho in Ej by lia. apply (Hmax1 j ta tj); [lia|done..]. }
    assert (Hlast : (last < length l2)%nat).
    { unfold swap_tasks in E2.
      destruct (l1 !! first); [|discriminate].
      destruct (l1 !! last) eqn:Eb; [|discriminate].
      simpl in E2. injection E2 as <-. rewrite !length_insert.
      by apply lookup_lt_Some in Eb. }
    destruct last as [|last']; [lia|]. simpl in H.
    rewrite bool_decide_true in H by (destruct first; simpl; congruence).
    rewrite (next_lt l2 last') in H by lia.
    rewrite bool_decide_true in H by congruence. simpl in H.
    destruct (sort_tasks fuel sort_mode first last' l2) as [l3|] eqn:E3;
      [|discriminate].
    simpl in H.
    apply IH in E3 as [Hseg3 Hsorted3]; [|lia].
    assert (l' = l3) as ->.
    { destruct (next l3 (S last')) as [c|] eqn:En; [|by injection H as <-].
      apply next_Some in En as [-> _]. simpl in H.
      rewrite bool_decide_false in H by (intros Hc; by apply Hc).
      simpl in H. by injection H as <-. }
    split.
    + eapply seg_pres_trans; [exact Hseg1|].
      eapply seg_pres_trans; [exact Hseg2|].
      eapply seg_pres_widen; [| |exact Hseg3]; lia.
    + intros i j ti tj Hi Hij Hj Ei Ej.
      destruct (decide (j <= last')%nat) as [Hjl|Hjl].
      { by apply (Hsorted3 i j). }
      assert (j = S last') as -> by lia.
      destruct Hseg3 as (Hl3 & Ho3 & Hq3).
      rewrite Ho3 in Ej by lia.
      apply (Hq3 (fun t => compare_tasks tj t sort_mode <> 1)) with i;
        [|lia|done].
      intros k t Hk Ek. apply (Hmax2 k tj t); [lia|done..].
Qed.

Lemma sort_wrapper_ordered_aux (sort_mode : ascii) (l l' : list task) :
  sort_wrapper sort_mode l = Some l' -> ordered sort_mode l'.
Proof.
  unfold sort_wrapper. intros H.
  destruct l as [|t l0]; [discriminate|]. simpl (_ !! _) in H.
  cbn [mbind option_bind] in H.
  rewrite find_last_spec in H by (simpl; lia).
  pose proof (Permutation_length (sort_tasks_perm _ _ _ _ _ _ H)) as Hlen.
  apply sort_tasks_ordered in H as [_ Hs]; [|lia].
  intros i j ti tj Hij Ei Ej.
  apply (Hs i j); [lia|done| |done..].
  apply lookup_lt_Some in Ej. lia.
Qed.

(** X1.  [sort_wrapper] returns on every list that is not empty, in
    every sort mode, also one that [compare_tasks] does not know; the
    list it leaves holds the same records, and no record of it is
    followed, however far behind, by one that [compare_tasks] puts
    before it. *)
Theorem sort_wrapper_sorts (sort_mode : ascii) (l : list task) :
  l <> [] ->
  exists l', sort_wrapper sort_mode l = Some l' /\ l' ≡ₚ l /\
    ordered sort_mode l'.
Proof.
  intros Hl. destruct (sort_wrapper_some sort_mode l Hl) as (l' & E & Hp).
  exists l'. split; [done|]. split; [done|].
  by eapply sort_wrapper_ordered_aux.
Qed.

(** X2.  [compare_tasks] is transitive in every sort mode: if it puts
    [a] before [b] and [b] before [c], it puts [a] before [c]. *)
Theorem compare_tasks_transitive (sort_mode : ascii) (a b c : task) :
  compare_tasks a b sort_mode = 1 -> compare_tasks b c sort_mode = 1 ->
  compare_tasks a c sort_mode = 1.
Proof. exact (compare_tasks_trans sort_mode a b c). Qed.

Lemma compare_tasks_transitive_witness :
  compare_tasks (sample_task 0 (Some "A"%string) 5)
    (sample_task 2 None 0) "d" = 1.
Proof.
  apply (compare_tasks_transitive "d" _ (sample_task 1 (Some "B"%string) 9));
    reflexivity.
Defined.

(** X3.  The order of mode ['r'].  A task with a priority sorts
    before one without; ['H'] sorts before ['M'] and ['L'], and ['M']
    before ['L']; two tasks of one priority are ordered as mode ['p']
    orders them; and a task whose priority is none of the three
    letters is left unordered against a task whose priority is one of
    them: the comparator answers 0 both ways. *)
Theorem compare_tasks_priority_order (a b : task) :
  (priority a <> NUL -> priority b = NUL -> sorts_before "r" a b) /\
  (priority a = "H"%char -> priority b = "M"%char \/ priority b = "L"%char ->
   sorts_before "r" a b) /\
  (priority a = "M"%char -> priority b = "L"%char -> sorts_before "r" a b) /\
  (priority a = priority b ->
   compare_tasks a b "r" = compare_tasks a b "p") /\
  (priority a <> NUL -> ~ known_priority (priority a) ->
   known_priority (priority b) ->
   compare_tasks a b "r" = 0 /\ compare_tasks b a "r" = 0).
Proof.
  unfold sorts_before, known_priority. cbn [compare_tasks]. unfold compare_r.
  rewrite !priority_switch.
  generalize (compare_p a b), (compare_p b a).
  generalize (priority a), (priority b). intros x y ab ba.
  split_and!.
  - intros Hx ->. cbn. destruct (Ascii.eqb_spec x NUL); done.
  - intros -> [-> | ->]; done.
  - intros -> ->; done.
  - intros ->. rewrite Ascii.eqb_refl. by destruct (Ascii.eqb y NUL).
  - intros Hx Hk Hy.
    destruct (Ascii.eqb_spec x NUL); [done|].
    assert (Hxy : x <> y) by (intros ->; done).
    assert (Hyx : y <> x) by congruence.
    apply Ascii.eqb_neq in Hxy, Hyx. rewrite Hxy, Hyx.
    assert (Ascii.eqb x "H" = false) by (apply Ascii.eqb_neq; tauto).
    assert (Ascii.eqb x "M" = false) by (apply Ascii.eqb_neq; tauto).
    assert (Ascii.eqb x "L" = false) by (apply Ascii.eqb_neq; tauto).
    destruct Hy as [-> | [-> | ->]]; cbn; rewrite ?H, ?H0, ?H1; cbn;
      rewrite ?H, ?H0, ?H1; done.
Qed.

(** X4.  The order of mode ['d'].  A task with a due date sorts
    before one without; of two tasks with a due date the earlier
    sorts first; two tasks without a due date are ordered as mode
    ['r'] orders them. *)
Theorem compare_tasks_due_order (a b : task) :
  (due a <> 0 -> due b = 0 -> sorts_before "d" a b) /\
  (due a <> 0 -> due b <> 0 -> due a < due b -> sorts_before "d" a b) /\
  (due a = 0 -> due b = 0 ->
   compare_tasks a b "d" = compare_tasks a b "r").
Proof.
  unfold sorts_before. cbn [compare_tasks]. unfold compare_d.
  split_and!.
  - intros Ha ->. apply Z.eqb_neq in Ha. rewrite Ha. done.
  - intros Ha Hb Hlt. apply Z.eqb_neq in Ha, Hb. rewrite Ha, Hb.
    destruct (Z.ltb_spec (due a) (due b)); [|lia].
    destruct (Z.ltb_spec (due b) (due a)); [lia|done].
  - intros -> ->. done.
Qed.

(** swap twice *)
Lemma swap_tasks_twice_aux (a b : nat) (l l' : list task) :
  swap_tasks a b l = Some l' -> swap_tasks a b l' = Some l.
Proof.
  intros H.
  pose proof H as H'. unfold swap_tasks in H'.
  destruct (l !! a) as [ta|] eqn:Ea; [|discriminate].
  destruct (l !! b) as [tb|] eqn:Eb; [|discriminate].
  destruct (swap_tasks_lookup a b l l' ta tb Ea Eb H) as (Ha & Hb & Ho).
  unfold swap_tasks. rewrite Ha, Hb. cbn. f_equal.
  apply list_eq. intros i.
  pose proof (swap_tasks_length _ _ _ _ H) as Hlen.
  pose proof (lookup_lt_Some _ _ _ Ea). pose proof (lookup_lt_Some _ _ _ Eb).
  destruct (decide (i = b)) as [->|Hib].
  - rewrite list_lookup_insert_eq by (rewrite length_insert; lia). done.
  - rewrite list_lookup_insert_ne by done.
    destruct (decide (i = a)) as [->|Hia].
    + rewrite list_lookup_insert_eq by lia. done.
    + rewrite list_lookup_insert_ne by done. by apply Ho.
Qed.

(** X5.  [swap_tasks] on two nodes of the list exchanges their
    payloads and leaves every other node as it is; a second call on
    the same two nodes gives the list back. *)
Theorem swap_tasks_twice (a b : nat) (l : list task) :
  (a < length l)%nat -> (b < length l)%nat ->
  exists l', swap_tasks a b l = Some l' /\ swap_tasks a b l' = Some l /\
    l' !! a = l !! b /\ l' !! b = l !! a /\
    (forall i, i <> a -> i <> b -> l' !! i = l !! i).
Proof.
  intros Ha Hb. destruct (swap_tasks_some a b l Ha Hb) as [l' E].
  exists l'. split; [done|]. split; [by apply swap_tasks_twice_aux|].
  destruct (lookup_lt_is_Some_2 l a Ha) as [ta Ea].
  destruct (lookup_lt_is_Some_2 l b Hb) as [tb Eb].
  destruct (swap_tasks_lookup a b l l' ta tb Ea Eb E) as (H1 & H2 & H3).
  rewrite Ea, Eb. done.
Qed.

(** ** The filter pass: counters, clearing, persistence *)

Section FilterMore.

Context {posix : RegexLib}.

Lemma filter_match_flag (f : task_filter) (v : bool) (t : task) :
  filter_match f (set_is_filtered v t) = filter_match f t.
Proof. reflexivity. Qed.

Lemma refilter_payload (k : bool) (f : task_filter) (t t' : task) :
  refilter k f t = Some t' -> t' = set_is_filtered (is_filtered t') t.
Proof.
  unfold refilter. destruct (k && negb (is_filtered t)).
  - intros [= <-]. by destruct t.
  - destruct (filter_match f t) as [m|]; [|discriminate].
    simpl. intros [= <-]. reflexivity.
Qed.

(** X6.  A pass of [filter_tasks] with a filter that is
    [FILTER_CLEAR] or carries a pattern returns; it keeps the length
    of the list and, node by node, everything of a record but its
    [is_filtered] flag; afterwards [taskcount] is the number of
    records shown, [totaltaskcount] the number of records, and the
    other globals are as they were. *)
Theorem filter_tasks_counts (f : task_filter) (s : state) :
  well_formed_filter f ->
  exists s',
    filter_tasks f s = Some s' /\
    length (head s') = length (head s) /\
    (forall i t, head s !! i = Some t ->
       exists t', head s' !! i = Some t' /\
         t' = set_is_filtered (is_filtered t') t) /\
    taskcount s' = count_visible (head s') /\
    totaltaskcount s' = Z.of_nat (length (head s)) /\
    0 <= taskcount s' <= totaltaskcount s' /\
    frame s s'.
Proof.
  intros Hwf.
  destruct (filter_tasks_spec f s Hwf)
    as (s' & E & Hlen & Hre & Htc & Htot & _ & Hfr).
  exists s'. split_and!; try done.
  - intros i t Ht. specialize (Hre i t Ht).
    destruct (refilter _ f t) as [t'|] eqn:Er.
    + exists t'. split; [done|]. by eapply refilter_payload.
    + apply lookup_lt_Some in Ht. rewrite <- Hlen in Ht.
      apply lookup_lt_is_Some_2 in Ht as [? Ht]. congruence.
  - rewrite Htc. apply count_visible_nonneg.
  - rewrite Htc, Htot, <- Hlen. clear.
    induction (head s') as [|t l IH]; [done|].
    cbn [count_visible foldr length]. fold (count_visible l).
    destruct (is_filtered t); simpl Z.b2z; lia.
Qed.

(** X7.  A pass with a [FILTER_CLEAR] filter shows every record
    and changes nothing else of it, whatever the persistence setting
    and whatever was hidden; both counters become the length of the
    list, and the chain of active filters is emptied, unless the list
    is empty, in which case the chain stays. *)
Theorem filter_clear_shows_all (f : task_filter) (s : state) :
  mode f = FILTER_CLEAR ->
  exists s',
    filter_tasks f s = Some s' /\
    head s' = set_is_filtered true <$> head s /\
    taskcount s' = Z.of_nat (length (head s)) /\
    totaltaskcount s' = Z.of_nat (length (head s)) /\
    active_filters s' =
      match head s with [] => active_filters s | _ :: _ => [] end /\
    frame s s'.
Proof.
  intros Hm.
  destruct (filter_tasks_spec f s (or_introl Hm))
    as (s' & E & Hlen & Hre & Htc & Htot & Haf & Hfr).
  assert (Hk : keeps_hidden f s = false).
  { unfold keeps_hidden. rewrite Hm. simpl. apply andb_false_r. }
  assert (Hh : head s' = set_is_filtered true <$> head s).
  { apply list_eq. intros i. rewrite list_lookup_fmap.
    destruct (head s !! i) as [t|] eqn:Et.
    - rewrite (Hre i t Et), Hk. unfold refilter, filter_match.
      rewrite Hm. reflexivity.
    - apply lookup_ge_None in Et. apply lookup_ge_None. lia. }
  exists s'. split_and!; try done.
  - rewrite Htc, Hh. rewrite count_visible_all.
    + by rewrite length_fmap.
    + apply Forall_fmap, Forall_true. done.
  - rewrite Haf, Hm. simpl. destruct (head s); done.
Qed.

(** X8.  Without persistence, or when the second filter is
    [FILTER_CLEAR], a pass forgets the one before it: [F1] then [F2]
    leaves the list and both counters as [F2] alone does. *)
Theorem filter_replaces_without_persistence (F1 F2 : task_filter)
    (s0 : state) :
  well_formed_filter F1 -> well_formed_filter F2 ->
  cfg_filter_persist s0 = 0 \/ mode F2 = FILTER_CLEAR ->
  exists s1 s2 s2',
    filter_tasks F1 s0 = Some s1 /\ filter_tasks F2 s1 = Some s2 /\
    filter_tasks F2 s0 = Some s2' /\
    head s2 = head s2' /\ taskcount s2 = taskcount s2' /\
    totaltaskcount s2 = totaltaskcount s2'.
Proof.
  intros Hwf1 Hwf2 Hoff.
  destruct (filter_tasks_spec F1 s0 Hwf1)
    as (s1 & E1 & Hlen1 & Hre1 & _ & _ & _ & Hfr1).
  destruct (filter_tasks_spec F2 s1 Hwf2)
    as (s2 & E2 & Hlen2 & Hre2 & Htc2 & Htot2 & _).
  destruct (filter_tasks_spec F2 s0 Hwf2)
    as (s2' & E2' & Hlen2' & Hre2' & Htc2' & Htot2' & _).
  assert (Hk0 : keeps_hidden F2 s0 = false).
  { unfold keeps_hidden. destruct Hoff as [-> | ->]; [done|].
    apply andb_false_r. }
  assert (Hk1 : keeps_hidden F2 s1 = false).
  { unfold keeps_hidden. by rewrite (frame_persist _ _ Hfr1). }
  rewrite Hk1 in Hre2. rewrite Hk0 in Hre2'.
  assert (Hh : head s2 = head s2').
  { apply list_eq. intros i.
    destruct (head s0 !! i) as [t|] eqn:Et.
    - rewrite (Hre2' i t Et).
      pose proof (Hre1 i t Et) as H1.
      destruct (refilter (keeps_hidden F1 s0) F1 t) as [t1|] eqn:Er.
      + rewrite (Hre2 i t1 H1).
        apply refilter_payload in Er. rewrite Er.
        unfold refilter. cbn [andb]. rewrite filter_match_flag.
        by destruct (filter_match F2 t).
      + apply lookup_lt_Some in Et. rewrite <- Hlen1 in Et.
        apply lookup_lt_is_Some_2 in Et as [? Et]. congruence.
    - apply lookup_ge_None in Et.
      rewrite (proj2 (lookup_ge_None _ _)) by lia.
      rewrite (proj2 (lookup_ge_None _ _)) by lia. done. }
  exists s1, s2, s2'. split_and!; try done.
  - by rewrite Htc2, Htc2', Hh.
  - rewrite Htot2, Htot2'. lia.
Qed.

(** X9.  [add_filter] does nothing for a negative mode.  Otherwise
    it returns when the pass does, with the list and the counters of
    the pass; the chain it leaves is the one of the pass for
    [FILTER_CLEAR], is unchanged without persistence, is the new
    filter alone with persistence and without cascade, and is the old
    chain with the new filter at its end with both. *)
Theorem add_filter_chain (f : task_filter) (s : state) :
  (mode f < 0 -> add_filter f s = Some s) /\
  (well_formed_filter f -> 0 <= mode f ->
   exists s1 s',
     filter_tasks f s = Some s1 /\ add_filter f s = Some s' /\
     head s' = head s1 /\ taskcount s' = taskcount s1 /\
     totaltaskcount s' = totaltaskcount s1 /\ frame s s' /\
     active_filters s' =
       if mode f =? FILTER_CLEAR
       then match head s with [] => active_filters s | _ :: _ => [] end
       else if cfg_filter_persist s =? 0 then active_filters s
       else if cfg_filter_cascade s =? 0 then [f]
       else active_filters s ++ [f]).
Proof.
  split.
  - intros Hneg. unfold add_filter.
    destruct (Z.leb_spec 0 (mode f)); [lia|done].
  - intros Hwf Hmode.
    destruct (filter_tasks_spec f s Hwf)
      as (s1 & E1 & Hlen & _ & _ & _ & Haf & Hfr).
    unfold add_filter. apply Z.leb_le in Hmode. rewrite Hmode, E1.
    cbn [mbind option_bind].
    rewrite (frame_persist _ _ Hfr), (frame_cascade _ _ Hfr).
    exists s1.
    destruct (Z.eqb_spec (mode f) FILTER_CLEAR) as [Hc|Hc].
    + cbn [negb andb]. rewrite andb_false_r. exists s1.
      split_and!; try done. rewrite Haf.
      cbn [andb]. destruct (head s); done.
    + cbn [negb andb] in *. rewrite andb_true_r.
      cbn [andb] in Haf.
      destruct (cfg_filter_persist s =? 0) eqn:Ep; cbn [negb].
      * exists s1. split_and!; done.
      * destruct (cfg_filter_cascade s =? 0) eqn:Ecas; cbn [negb];
          eexists; (split; [done|]); (split; [reflexivity|]);
          split_and!; try done; cbn; try (by rewrite Haf);
          destruct Hfr; by constructor.
Qed.

End FilterMore.

Lemma check_curs_pos_rest (s : state) :
  head (check_curs_pos s) = head s /\
  taskcount (check_curs_pos s) = taskcount s /\
  totaltaskcount (check_curs_pos s) = totaltaskcount s /\
  active_filters (check_curs_pos s) = active_filters s /\
  searchstring (check_curs_pos s) = searchstring s /\
  cfg_sortmode (check_curs_pos s) = cfg_sortmode s /\
  statusbar (check_curs_pos s) = statusbar s.
Proof.
  unfold check_curs_pos.
  repeat match goal with
         | |- context [if ?c then _ else _] => destruct c
         end; done.
Qed.

Lemma filter_of_key_other (c : Z) (tmpstr : string) (s : state) :
  ~ valid_filter_key c ->
  filter_of_key c tmpstr s
  = (mk_filter (-1) None, statusbar_message "invalid filter mode" s).
Proof.
  unfold valid_filter_key, filter_of_key. simpl. intros H.
  repeat match goal with
         | |- context [?x =? ?y] =>
             destruct (Z.eqb_spec x y); [exfalso; apply H; subst c; auto 20|]
         end.
  reflexivity.
Qed.

Section KeyFilterMore.

Context {posix : RegexLib}.


End KeyFilterMore.

(** ** task_count *)

Lemma task_count_loop_spec (l : list task) (s : state) :
  task_count_loop l s
  = set_totaltaskcount (totaltaskcount s + Z.of_nat (length l))
      (set_taskcount (taskcount s + Z.of_nat (length l)) s).
Proof.
  revert s. induction l as [|t l IH]; intros s.
  - simpl. rewrite !Z.add_0_r. by destruct s.
  - cbn [task_count_loop]. rewrite IH. unfold set_totaltaskcount, set_taskcount.
    cbn. f_equal; rewrite Nat2Z.inj_succ; lia.
Qed.

Lemma task_count_spec (s : state) :
  task_count s
  = set_totaltaskcount (Z.of_nat (length (head s)))
      (set_taskcount (Z.of_nat (length (head s))) s).
Proof. unfold task_count. rewrite task_count_loop_spec. reflexivity. Qed.

(** ** max_project_length *)

Lemma to_char_id (z : Z) : -128 <= z <= 127 -> to_char z = z.
Proof. intros H. unfold to_char. rewrite Z.mod_small; lia. Qed.

Lemma strlen_nonneg (str : string) : 0 <= strlen str.
Proof. unfold strlen. lia. Qed.

Lemma max_project_length_loop_spec (l : list task) (len : Z) :
  0 <= len <= 126 ->
  (forall t p, t ∈ l -> project t = Some p -> strlen p <= 126) ->
  let r := max_project_length_loop l len in
  len <= r <= 126 /\
  (forall t p, t ∈ l -> project t = Some p -> strlen p <= r) /\
  (r = len \/ exists t p, t ∈ l /\ project t = Some p /\ r = strlen p).
Proof.
  revert len. induction l as [|t l IH]; intros len Hlen Hshort; cbn zeta.
  - simpl. split; [lia|]. split; [|by left]. intros t p Ht. by apply elem_of_nil in Ht.
  - cbn [max_project_length_loop].
    set (len' := match project t with
                 | Some p => _
                 | None => len
                 end).
    assert (Hlen' : len <= len' <= 126 /\
              (forall p, project t = Some p -> strlen p <= len') /\
              (len' = len \/ exists p, project t = Some p /\ len' = strlen p)).
    { unfold len'. destruct (project t) as [p|] eqn:Ep.
      - pose proof (Hshort t p ltac:(left) Ep) as Hp.
        pose proof (strlen_nonneg p).
        rewrite to_char_id by lia.
        destruct (Z.gtb_spec (strlen p) len).
        + split; [lia|]. split; [intros ? [= <-]; lia|]. right. eauto.
        + split; [lia|]. split; [intros ? [= <-]; lia|]. by left.
      - split; [lia|]. split; [done|]. by left. }
    destruct Hlen' as (H1 & H2 & H3).
    destruct (IH len' ltac:(lia)) as (I1 & I2 & I3).
    { intros u p Hu. apply Hshort. by right. }
    split; [lia|]. split.
    + intros u p Hu Ep. apply elem_of_cons in Hu as [->|Hu].
      * specialize (H2 p Ep). lia.
      * by apply (I2 u).
    + destruct I3 as [I3|(u & p & Hu & Ep & I3)].
      * destruct H3 as [H3|(p & Ep & H3)]; [left; lia|].
        right. exists t, p. split; [by left|]. split; [done|lia].
      * right. exists u, p. split; [by right|]. done.
Qed.

Lemma max_project_length_spec (s : state) :
  (forall t p, t ∈ head s -> project t = Some p -> strlen p <= 126) ->
  1 <= max_project_length s <= 127 /\
  (forall t p, t ∈ head s -> project t = Some p ->
     strlen p < max_project_length s) /\
  (max_project_length s = 1 \/
   exists t p, t ∈ head s /\ project t = Some p /\
     max_project_length s = strlen p + 1).
Proof.
  intros Hshort. unfold max_project_length.
  destruct (max_project_length_loop_spec (head s) 0 ltac:(lia) Hshort)
    as (H1 & H2 & H3).
  rewrite to_char_id by lia. split; [lia|]. split.
  - intros t p Ht Ep. specialize (H2 t p Ht Ep). lia.
  - destruct H3 as [->|(t & p & Ht & Ep & ->)]; [by left|].
    right. eauto.
Qed.

(** X11.  When no project name is longer than 126 characters,
    [max_project_length] is one more than the length of the longest
    project name of the list, hidden tasks included, and is 1 when no
    task has a project; it is greater than the length of every
    project name. *)
Theorem max_project_length_bound (s : state) :
  (forall t p, t ∈ head s -> project t = Some p -> strlen p <= 126) ->
  1 <= max_project_length s <= 127 /\
  (forall t p, t ∈ head s -> project t = Some p ->
     strlen p < max_project_length s) /\
  (max_project_length s = 1 \/
   exists t p, t ∈ head s /\ project t = Some p /\
     max_project_length s = strlen p + 1).
Proof. exact (max_project_length_spec s). Qed.

(** ** pad_string *)

Lemma append_length (x y : string) :
  String.length (x ++ y) = (String.length x + String.length y)%nat.
Proof. induction x as [|c x IH]; simpl; [done|]. by rewrite IH. Qed.

Lemma append_assoc (x y z : string) :
  ((x ++ y) ++ z = x ++ (y ++ z))%string.
Proof. induction x as [|c x IH]; simpl; [done|]. by rewrite IH. Qed.

Lemma append_nil_r (x : string) : (x ++ "")%string = x.
Proof. induction x as [|c x IH]; simpl; [done|]. by rewrite IH. Qed.

Lemma substring_0_length (n : nat) (str : string) :
  (n <= String.length str)%nat -> String.length (substring 0 n str) = n.
Proof.
  revert str. induction n as [|n IH]; intros [|c str] H; simpl in *;
    try done; try lia.
  rewrite IH; [done|lia].
Qed.

Lemma spaces_length (n : nat) : String.length (spaces n) = n.
Proof. induction n as [|n IH]; simpl; [done|]. by rewrite IH. Qed.

Lemma spaces_app (a b : nat) : spaces (a + b) = (spaces a ++ spaces b)%string.
Proof. induction a as [|a IH]; simpl; [done|]. by rewrite IH. Qed.

Lemma spaces_snoc (n : nat) : (spaces n ++ " ")%string = spaces (S n).
Proof. induction n as [|n IH]; simpl; [done|]. by rewrite IH. Qed.

Lemma printf_s_space (w : Z) : 0 < w -> printf_s w " " = spaces (Z.to_nat w).
Proof.
  intros H. unfold printf_s. destruct (Z.ltb_spec 0 w); [|lia].
  simpl String.length. rewrite spaces_snoc.
  f_equal. lia.
Qed.

Lemma printf_s_right (w : Z) (str : string) :
  0 < w -> printf_s w str
           = (spaces (Z.to_nat (w - Z.of_nat (String.length str))) ++ str)%string.
Proof. intros H. unfold printf_s. by destruct (Z.ltb_spec 0 w); [|lia]. Qed.

Lemma printf_s_exact (w : Z) (str : string) :
  w = Z.of_nat (String.length str) -> printf_s w str = str.
Proof.
  intros ->. unfold printf_s. destruct (Z.ltb_spec 0 (Z.of_nat (String.length str))).
  - by rewrite Z.sub_diag.
  - destruct (Z.ltb_spec (Z.of_nat (String.length str)) 0); [lia|done].
Qed.

Lemma decimal_short (z : Z) :
  0 <= z < 1000 -> (String.length (decimal z) <= 3)%nat.
Proof.
  intros H.
  assert (Hall : forallb (fun n => (String.length (decimal (Z.of_nat n)) <=? 3)%nat)
                   (seq 0 1000) = true) by (vm_compute; reflexivity).
  rewrite forallb_forall in Hall.
  specialize (Hall (Z.to_nat z)).
  rewrite Z2Nat.id in Hall by lia.
  apply Nat.leb_le, Hall. apply in_seq. lia.
Qed.

Lemma format_of_length (widths : list Z) :
  Forall (fun w => 0 <= w < 1000) widths ->
  (String.length (format_of widths) <= 5 * length widths)%nat.
Proof.
  induction 1 as [|w rest Hw _ IH]; [simpl; lia|].
  cbn [format_of length]. rewrite !append_length.
  pose proof (decimal_short w Hw). simpl String.length. lia.
Qed.

Lemma cut_text_length (argstr : string) (w : Z) :
  strlen argstr <= w \/ 3 <= w ->
  Z.of_nat (String.length (cut_text argstr w)) <= w /\
  (w < strlen argstr -> Z.of_nat (String.length (cut_text argstr w)) = w).
Proof.
  unfold cut_text, strlen. intros H. cbv zeta.
  destruct (Z.gtb_spec (Z.of_nat (String.length (c_str argstr))) w) as [Hgt|Hle].
  - destruct H as [H|H]; [lia|].
    rewrite append_length, substring_0_length by lia. simpl String.length. lia.
  - lia.
Qed.

Ltac len_tac :=
  rewrite ?append_length, ?spaces_length; simpl String.length;
  repeat match goal with n := _ : Z |- _ => unfold n in * end; lia.

Lemma pad_string_spec (argstr : string) (length lpad rpad : Z)
    (align : ascii) :
  0 <= lpad -> 0 <= rpad -> 0 < length - lpad - rpad ->
  length + rpad < 1000 ->
  strlen argstr <= length - lpad - rpad \/ 3 <= length - lpad - rpad ->
  let txt := cut_text argstr (length - lpad - rpad) in
  let n := Z.of_nat (String.length txt) in
  exists ret,
    pad_string argstr length lpad rpad align = Some (Some ret) /\
    ret = (if Ascii.eqb align "l"
           then spaces (Z.to_nat lpad) ++ txt
                ++ spaces (Z.to_nat (rpad + length - n))
           else spaces (Z.to_nat (lpad + length - n)) ++ txt
                ++ spaces (Z.to_nat rpad))%string /\
    Z.of_nat (String.length ret) = length + lpad + rpad /\
    n <= length - lpad - rpad.
Proof.
  intros Hl Hr Hw Hbig Hfit txt n.
  destruct (cut_text_length argstr (length - lpad - rpad) Hfit) as [Hn _].
  fold txt in Hn. fold n in Hn.
  unfold pad_string.
  destruct (Z.eqb_spec (length - lpad - rpad) 0) as [?|_]; [lia|].
  assert (Hcut : (if Z.of_nat (String.length (c_str argstr)) >? length - lpad - rpad
                  then if 3 <=? length - lpad - rpad
                       then Some (substring 0 (Z.to_nat (length - lpad - rpad - 3))
                                    (c_str argstr) ++ "...")%string
                       else None
                  else Some (c_str argstr)) = Some txt).
  { unfold txt, cut_text. cbv zeta.
    destruct (Z.gtb_spec (Z.of_nat (String.length (c_str argstr)))
                (length - lpad - rpad)) as [Hgt|Hle]; [|done].
    destruct Hfit as [Hfit|Hfit]; [unfold strlen in Hfit; lia|].
    by destruct (Z.leb_spec 3 (length - lpad - rpad)); [|lia]. }
  rewrite Hcut. cbn [mbind option_bind]. fold n.
  destruct (Ascii.eqb align "l").
  - (* left *)
    destruct (Z.ltb_spec 0 lpad) as [Hlp|Hlp];
    destruct (Z.ltb_spec 0 (rpad + length - n)) as [Hrp|Hrp]; cbn [andb].
    + rewrite !printf_s_space by lia. rewrite (printf_s_exact n txt) by reflexivity.
      assert (Hft : (String.length (format_of [lpad; n; (rpad + length - n)%Z])
                     <= 15)%nat).
      { apply (format_of_length [_; _; _]). repeat constructor; lia. }
      destruct (Z.ltb_spec (Z.of_nat (String.length
                  (format_of [lpad; n; rpad + length - n]))) 16); [|lia].
      cbn [andb].
      rewrite !append_length, !spaces_length.
      destruct (Z.ltb_spec (Z.of_nat (Z.to_nat lpad +
                 (String.length txt + Z.to_nat (rpad + length - n))))
                 (n + lpad + (rpad + length - n) + 1)); [|unfold n in *; lia].
      eexists. split; [reflexivity|]. split; [done|]. len_tac.
    + assert (n = length /\ rpad = 0 /\ lpad = 0) by lia. lia.
    + assert (lpad = 0) as -> by lia.
      rewrite !printf_s_space by lia. rewrite (printf_s_exact n txt) by reflexivity.
      assert (Hft : (String.length (format_of [n; (rpad + length - n)%Z])
                     <= 10)%nat).
      { apply (format_of_length [_; _]). repeat constructor; lia. }
      destruct (Z.ltb_spec (Z.of_nat (String.length
                  (format_of [n; rpad + length - n]))) 16); [|lia].
      cbn [andb].
      rewrite !append_length, !spaces_length.
      destruct (Z.ltb_spec (Z.of_nat
                 (String.length txt + Z.to_nat (rpad + length - n)))
                 (n + 0 + (rpad + length - n) + 1)); [|unfold n in *; lia].
      eexists. split; [reflexivity|]. split; [done|]. len_tac.
    + assert (lpad = 0) as -> by lia.
      assert (Hrl : rpad + length - n = 0) by lia.
      rewrite (printf_s_exact n txt) by reflexivity.
      assert (Hft : (String.length (format_of [n]) <= 5)%nat).
      { apply (format_of_length [_]). repeat constructor; lia. }
      destruct (Z.ltb_spec (Z.of_nat (String.length (format_of [n]))) 16);
        [|lia].
      cbn [andb]. rewrite Hrl.
      destruct (Z.ltb_spec (Z.of_nat (String.length txt)) (n + 0 + 0 + 1));
        [|unfold n in *; lia].
      eexists. split; [reflexivity|]. split.
      * simpl. by rewrite append_nil_r.
      * len_tac.
  - (* right *)
    assert (Hlen : 0 < length) by lia.
    rewrite (printf_s_right length txt Hlen). fold n.
    destruct (Z.ltb_spec 0 lpad) as [Hlp|Hlp];
    destruct (Z.ltb_spec 0 rpad) as [Hrp|Hrp]; cbn [andb].
    + rewrite !printf_s_space by lia.
      assert (Hft : (String.length (format_of [lpad; length; rpad])
                     <= 15)%nat).
      { apply (format_of_length [_; _; _]). repeat constructor; lia. }
      destruct (Z.ltb_spec (Z.of_nat (String.length
                  (format_of [lpad; length; rpad]))) 16); [|lia].
      cbn [andb].
      rewrite !append_length, !spaces_length.
      destruct (Z.ltb_spec (Z.of_nat (Z.to_nat lpad +
                 (Z.to_nat (length - n) + String.length txt + Z.to_nat rpad)))
                 (length + lpad + rpad + 1)); [|unfold n in *; lia].
      eexists. split; [reflexivity|]. split.
      * rewrite append_assoc, <- (append_assoc (spaces (Z.to_nat lpad))).
        rewrite <- spaces_app. do 2 f_equal. lia.
      * len_tac.
    + assert (rpad = 0) as -> by lia.
      rewrite !printf_s_space by lia.
      assert (Hft : (String.length (format_of [lpad; length]) <= 10)%nat).
      { apply (format_of_length [_; _]). repeat constructor; lia. }
      destruct (Z.ltb_spec (Z.of_nat (String.length
                  (format_of [lpad; length]))) 16); [|lia].
      cbn [andb].
      rewrite !append_length, !spaces_length.
      destruct (Z.ltb_spec (Z.of_nat (Z.to_nat lpad +
                 (Z.to_nat (length - n) + String.length txt)))
                 (length + lpad + 0 + 1)); [|unfold n in *; lia].
      eexists. split; [reflexivity|]. split.
      * simpl. rewrite append_nil_r, <- append_assoc, <- spaces_app.
        do 2 f_equal. lia.
      * len_tac.
    + assert (lpad = 0) as -> by lia.
      rewrite !printf_s_space by lia.
      assert (Hft : (String.length (format_of [length; rpad]) <= 10)%nat).
      { apply (format_of_length [_; _]). repeat constructor; lia. }
      destruct (Z.ltb_spec (Z.of_nat (String.length
                  (format_of [length; rpad]))) 16); [|lia].
      cbn [andb].
      rewrite !append_length, !spaces_length.
      destruct (Z.ltb_spec (Z.of_nat
                 (Z.to_nat (length - n) + String.length txt + Z.to_nat rpad))
                 (length + 0 + rpad + 1)); [|unfold n in *; lia].
      eexists. split; [reflexivity|]. split.
      * rewrite append_assoc. do 2 f_equal.
      * len_tac.
    + assert (lpad = 0) as -> by lia. assert (rpad = 0) as -> by lia.
      assert (Hft : (String.length (format_of [length]) <= 5)%nat).
      { apply (format_of_length [_]). repeat constructor; lia. }
      destruct (Z.ltb_spec (Z.of_nat (String.length (format_of [length]))) 16);
        [|lia].
      cbn [andb].
      rewrite !append_length, !spaces_length.
      destruct (Z.ltb_spec (Z.of_nat
                 (Z.to_nat (length - n) + String.length txt))
                 (length + 0 + 0 + 1)); [|unfold n in *; lia].
      eexists. split; [reflexivity|]. split.
      * simpl. rewrite append_nil_r. do 2 f_equal.
      * len_tac.
Qed.

(** X12.  [pad_string] on a field of at least one column, with
    paddings that are not negative and a total under 1000 columns,
    and with a text that fits the field or a field of at least three
    columns: the text is cut to the field when it is longer, its last
    three characters then being dots; it is set to the left and
    filled up with spaces for the alignment ['l'], to the right
    otherwise, between [lpad] and [rpad] spaces; and the result is
    [length + lpad + rpad] characters long. *)
Theorem pad_string_text (argstr : string) (length lpad rpad : Z)
    (align : ascii) :
  0 <= lpad -> 0 <= rpad -> 0 < length - lpad - rpad ->
  length + rpad < 1000 ->
  strlen argstr <= length - lpad - rpad \/ 3 <= length - lpad - rpad ->
  let txt := cut_text argstr (length - lpad - rpad) in
  let n := Z.of_nat (String.length txt) in
  exists ret,
    pad_string argstr length lpad rpad align = Some (Some ret) /\
    ret = (if Ascii.eqb align "l"
           then spaces (Z.to_nat lpad) ++ txt
                ++ spaces (Z.to_nat (rpad + length - n))
           else spaces (Z.to_nat (lpad + length - n)) ++ txt
                ++ spaces (Z.to_nat rpad))%string /\
    Z.of_nat (String.length ret) = length + lpad + rpad /\
    n <= length - lpad - rpad.
Proof. exact (pad_string_spec argstr length lpad rpad align). Qed.

(** ** print_task_list *)

Section ScreenProperties.

Context {clock : LibcClock}.

Lemma print_task_list_loop_drawn (l : list task) (projlen desclen datelen : Z)
    (s : state) (counter thisline : Z) (screen : list drawn) (cur : task) :
  is_filtered cur = true ->
  pageoffset s <= counter <= pageoffset s + onscreentasks s ->
  print_task_list_loop (cur :: l) projlen desclen datelen s counter thisline
    screen
  = screen' ← draw_task projlen desclen datelen
                (if counter =? selline s then 1 else 0)
                (to_short (thisline + 1)) cur screen;
    print_task_list_loop l projlen desclen datelen s (to_short (counter + 1))
      (to_short (thisline + 1)) screen'.
Proof.
  intros Hv Hc. cbn [print_task_list_loop]. rewrite Hv. cbn [negb orb].
  destruct (Z.ltb_spec counter (pageoffset s)); [lia|].
  destruct (Z.gtb_spec counter (pageoffset s + onscreentasks s)); [lia|].
  cbn [orb]. unfold draw_task.
  destruct (pad_string _ projlen 0 1 "r") as [b1|]; [|done].
  cbn [mbind option_bind].
  destruct (umvaddstr _ _ 0 b1 screen) as [s1|]; [|done].
  cbn [mbind option_bind].
  destruct (description cur) as [d|]; [|done]. cbn [mbind option_bind].
  destruct (pad_string d desclen 0 1 "l") as [b2|]; [|done].
  cbn [mbind option_bind].
  destruct (umvaddstr _ _ (projlen + 1) b2 s1) as [s2|]; [|done].
  cbn [mbind option_bind].
  destruct (if negb (due cur =? 0) then _ else _) as [b3|]; [|done].
  cbn [mbind option_bind]. reflexivity.
Qed.

Lemma print_task_list_loop_skip (l : list task) (projlen desclen datelen : Z)
    (s : state) (counter thisline : Z) (screen : list drawn) (cur : task) :
  is_filtered cur = false \/ counter < pageoffset s
  \/ pageoffset s + onscreentasks s < counter ->
  print_task_list_loop (cur :: l) projlen desclen datelen s counter thisline
    screen
  = print_task_list_loop l projlen desclen datelen s
      (if is_filtered cur then to_short (counter + 1) else counter)
      thisline screen.
Proof.
  intros H. cbn [print_task_list_loop].
  destruct (is_filtered cur); cbn [negb orb]; [|done].
  destruct (Z.ltb_spec counter (pageoffset s)); [done|].
  destruct (Z.gtb_spec counter (pageoffset s + onscreentasks s)); [done|].
  destruct H as [H|[H|H]]; [done|lia|lia].
Qed.

Lemma print_task_list_loop_page (l : list task) (projlen desclen datelen : Z)
    (s : state) (counter thisline : Z) (screen : list drawn) :
  0 <= pageoffset s -> 0 <= onscreentasks s ->
  0 <= counter -> counter + Z.of_nat (length l) <= 32767 ->
  (counter <= pageoffset s + onscreentasks s + 1 ->
   thisline = Z.max counter (pageoffset s) - pageoffset s) ->
  print_task_list_loop l projlen desclen datelen s counter thisline screen
  = draw_page
      (take (Z.to_nat (pageoffset s + onscreentasks s + 1
                       - Z.max counter (pageoffset s)))
         (drop (Z.to_nat (pageoffset s - counter)) (shown l)))
      projlen desclen datelen s (Z.max counter (pageoffset s) - pageoffset s)
      screen.
Proof.
  intros Hpo Hon. revert counter thisline screen.
  induction l as [|cur l IH]; intros counter thisline screen Hc Hlen Htl.
  - simpl. by rewrite drop_nil, take_nil.
  - cbn [length] in Hlen. rewrite Nat2Z.inj_succ in Hlen.
    destruct (is_filtered cur) eqn:Hv.
    + unfold shown. cbn [List.filter]. rewrite Hv. fold (shown l).
      destruct (decide (counter < pageoffset s)) as [Hlt|Hge].
      * rewrite print_task_list_loop_skip by lia. rewrite Hv.
        rewrite to_short_id by lia.
        rewrite IH by lia.
        replace (Z.to_nat (pageoffset s - counter))
          with (S (Z.to_nat (pageoffset s - (counter + 1)))) by lia.
        cbn [drop].
        replace (Z.max (counter + 1) (pageoffset s)) with (pageoffset s) by lia.
        replace (Z.max counter (pageoffset s)) with (pageoffset s) by lia.
        done.
      * destruct (decide (counter <= pageoffset s + onscreentasks s))
          as [Hin|Hout].
        -- rewrite print_task_list_loop_drawn by (done || lia).
           replace (Z.to_nat (pageoffset s - counter)) with 0%nat by lia.
           cbn [drop].
           replace (Z.max counter (pageoffset s)) with counter in * by lia.
           replace (Z.to_nat (pageoffset s + onscreentasks s + 1 - counter))
             with (S (Z.to_nat (pageoffset s + onscreentasks s + 1
                                - (counter + 1)))) by lia.
           cbn [take draw_page].
           rewrite Htl by lia.
           rewrite !to_short_id by lia.
           replace (pageoffset s + (counter - pageoffset s)) with counter by lia.
           destruct (draw_task _ _ _ _ _ cur screen) as [screen'|]; [|done].
           cbn [mbind option_bind].
           rewrite IH by lia.
           replace (Z.to_nat (pageoffset s - (counter + 1))) with 0%nat by lia.
           replace (Z.max (counter + 1) (pageoffset s)) with (counter + 1) by lia.
           replace (counter + 1 - pageoffset s)
             with (counter - pageoffset s + 1) by lia.
           done.
        -- rewrite print_task_list_loop_skip by lia. rewrite Hv.
           rewrite to_short_id by lia.
           rewrite IH by lia.
           replace (Z.to_nat (pageoffset s + onscreentasks s + 1
                              - Z.max (counter + 1) (pageoffset s)))
             with 0%nat by lia.
           replace (Z.to_nat (pageoffset s + onscreentasks s + 1
                              - Z.max counter (pageoffset s)))
             with 0%nat by lia.
           done.
    + unfold shown. cbn [List.filter]. rewrite Hv. fold (shown l).
      rewrite print_task_list_loop_skip by auto. rewrite Hv.
      apply IH; lia.
Qed.

Lemma print_task_list_draws (projlen desclen datelen : Z) (s : state)
    (screen : list drawn) :
  0 <= pageoffset s -> 0 <= onscreentasks s ->
  Z.of_nat (length (head s)) <= 32767 ->
  print_task_list projlen desclen datelen s screen
  = draw_page (page_of s) projlen desclen datelen s 0 screen.
Proof.
  intros Hpo Hon Hlen. unfold print_task_list, page_of.
  rewrite (print_task_list_loop_page (head s) projlen desclen datelen s 0 0)
    by lia.
  replace (Z.max 0 (pageoffset s)) with (pageoffset s) by lia.
  rewrite Z.sub_diag, Z.sub_0_r.
  replace (pageoffset s + onscreentasks s + 1 - pageoffset s)
    with (onscreentasks s + 1) by lia.
  done.
Qed.

(** X13.  [print_task_list] draws the tasks of the page and no
    other: the tasks shown whose rank among the tasks shown lies
    between [pageoffset] and [pageoffset + onscreentasks], in the
    order of the list, the first on line 1 and each on the line after
    the one before; the task whose rank is [selline] is drawn in the
    selection colours.  It fails where drawing one of these fails,
    and hidden tasks and tasks off the page are never looked at. *)
Theorem print_task_list_page (projlen desclen datelen : Z) (s : state)
    (screen : list drawn) :
  0 <= pageoffset s -> 0 <= onscreentasks s ->
  Z.of_nat (length (head s)) <= 32767 ->
  print_task_list projlen desclen datelen s screen
  = draw_page (page_of s) projlen desclen datelen s 0 screen.
Proof. exact (print_task_list_draws projlen desclen datelen s screen). Qed.

End ScreenProperties.

(** ** The rows of the screen *)

Lemma pad_string_right (str : string) (length lpad rpad : Z) :
  0 <= lpad -> 0 <= rpad -> 0 < length - lpad - rpad ->
  length + rpad < 1000 ->
  strlen str <= length - lpad - rpad \/ 3 <= length - lpad - rpad ->
  pad_string str length lpad rpad "r"
  = Some (Some (right_justified str length lpad rpad)).
Proof.
  intros H1 H2 H3 H4 H5.
  destruct (pad_string_spec str length lpad rpad "r" H1 H2 H3 H4 H5)
    as (ret & E & -> & _).
  exact E.
Qed.

Lemma pad_string_left (str : string) (length lpad rpad : Z) :
  0 <= lpad -> 0 <= rpad -> 0 < length - lpad - rpad ->
  length + rpad < 1000 ->
  strlen str <= length - lpad - rpad \/ 3 <= length - lpad - rpad ->
  pad_string str length lpad rpad "l"
  = Some (Some (left_justified str length lpad rpad)).
Proof.
  intros H1 H2 H3 H4 H5.
  destruct (pad_string_spec str length lpad rpad "l" H1 H2 H3 H4 H5)
    as (ret & E & -> & _).
  exact E.
Qed.

Section RowProperties.

Context {clock : LibcClock}.

Lemma draw_task_row (projlen desclen datelen sel thisline : Z) (cur : task)
    (screen : list drawn) :
  2 <= projlen < 999 -> 4 <= desclen < 999 -> 3 <= datelen < 1000 ->
  strlen (project_text cur) <= projlen - 1 ->
  is_Some (description cur) ->
  draw_task projlen desclen datelen sel thisline cur screen
  = Some (screen ++ row_of projlen desclen datelen sel thisline cur).
Proof.
  intros Hp Hd Ht Hfit [d Ed]. unfold draw_task, row_of.
  fold (project_text cur).
  rewrite (pad_string_right (project_text cur) projlen 0 1) by lia.
  cbn [mbind option_bind umvaddstr].
  rewrite Ed. cbn [mbind option_bind default from_option id].
  rewrite (pad_string_left d desclen 0 1) by lia.
  cbn [mbind option_bind umvaddstr].
  assert (E3 : forall x, pad_string x datelen 0 0 "r"
                         = Some (Some (right_justified x datelen 0 0))).
  { intros x. apply pad_string_right; lia. }
  rewrite !E3. unfold date_text.
  destruct (negb (due cur =? 0)); [|destruct (negb (Ascii.eqb _ _))];
    cbn [mbind option_bind umvaddstr]; by rewrite <- !app_assoc.
Qed.

Lemma draw_page_rows (page : list task) (projlen desclen datelen : Z)
    (s : state) (k : Z) (screen : list drawn) :
  2 <= projlen < 999 -> 4 <= desclen < 999 -> 3 <= datelen < 1000 ->
  Forall (fun cur => strlen (project_text cur) <= projlen - 1 /\
                     is_Some (description cur)) page ->
  draw_page page projlen desclen datelen s k screen
  = Some (screen ++ rows_of page projlen desclen datelen s k).
Proof.
  intros Hp Hd Ht Hall. revert k screen.
  induction Hall as [|cur rest [Hfit Hdesc] _ IH]; intros k screen.
  - simpl. by rewrite app_nil_r.
  - cbn [draw_page rows_of]. rewrite draw_task_row by done.
    cbn [mbind option_bind]. rewrite IH. by rewrite <- app_assoc.
Qed.

Lemma page_of_subset (s : state) (t : task) :
  t ∈ page_of s -> t ∈ head s /\ is_filtered t = true.
Proof.
  unfold page_of, shown. intros H.
  apply elem_of_take in H as (i & H & _). rewrite lookup_drop in H.
  apply list_elem_of_lookup_2 in H.
  apply list_elem_of_In, filter_In in H as [H1 H2].
  by apply list_elem_of_In in H1.
Qed.

(** X14.  With columns wide enough (every project name shown fits
    its column, every task shown has a description), [print_task_list]
    returns, and adds to the screen three texts for each task of the
    page, in the order of the list: on line [k + 1] for the task
    number [k] of the page, the project right-justified at column 0,
    the description left-justified at column [projlen + 1] and cut
    with three dots when it is too long, and the due date, or
    without one the priority, right-justified at column
    [projlen + desclen + 1]; the colour pairs are 5, 6 and 7 for the
    selected task and 2, 3 and 4 for the others.  At most
    [onscreentasks + 1] tasks are drawn. *)
Theorem print_task_list_rows (projlen desclen datelen : Z) (s : state)
    (screen : list drawn) :
  0 <= pageoffset s -> 0 <= onscreentasks s ->
  Z.of_nat (length (head s)) <= 32767 ->
  2 <= projlen < 999 -> 4 <= desclen < 999 -> 3 <= datelen < 1000 ->
  (forall t, t ∈ head s -> is_filtered t = true ->
     strlen (project_text t) <= projlen - 1 /\ is_Some (description t)) ->
  print_task_list projlen desclen datelen s screen
  = Some (screen ++ rows_of (page_of s) projlen desclen datelen s 0) /\
  Z.of_nat (length (page_of s)) <= onscreentasks s + 1.
Proof.
  intros Hpo Hon Hlen Hp Hd Ht Hall. split.
  - rewrite print_task_list_draws by done.
    apply draw_page_rows; try done.
    apply Forall_forall. intros t Hin.
    apply page_of_subset in Hin as [Hin Hv]. by apply Hall.
  - unfold page_of. rewrite length_take. lia.
Qed.

Lemma pad_string_null (argstr : string) (length lpad rpad : Z) (align : ascii) :
  length - lpad - rpad = 0 ->
  pad_string argstr length lpad rpad align = Some None.
Proof. intros H. unfold pad_string. by rewrite H. Qed.

(** X15.  When no task has a project name (or only empty ones),
    [max_project_length] is 1, and [print_task_list] with that width
    has no result as soon as a task is on the page: [pad_string]
    returns [NULL] for the project column, whose width less the
    padding is 0, and [umvaddstr] takes the length of that pointer. *)
Theorem print_task_list_without_projects (desclen datelen : Z) (s : state)
    (screen : list drawn) :
  0 <= pageoffset s -> 0 <= onscreentasks s ->
  Z.of_nat (length (head s)) <= 32767 ->
  (forall t p, t ∈ head s -> project t = Some p -> strlen p = 0) ->
  page_of s <> [] ->
  max_project_length s = 1 /\
  print_task_list (max_project_length s) desclen datelen s screen = None.
Proof.
  intros Hpo Hon Hlen Hnone Hpage.
  assert (Hmax : max_project_length s = 1).
  { destruct (max_project_length_spec s) as (_ & _ & [H|(t & p & Ht & Ep & H)]).
    - intros t p Ht Ep. rewrite (Hnone t p Ht Ep). lia.
    - done.
    - rewrite H, (Hnone t p Ht Ep). done. }
  split; [done|]. rewrite Hmax.
  rewrite print_task_list_draws by done.
  destruct (page_of s) as [|cur rest]; [done|].
  cbn [draw_page]. unfold draw_task.
  rewrite (pad_string_null _ 1 0 1) by lia. reflexivity.
Qed.

End RowProperties.

(** ** key_sort *)

Lemma key_sort_valid (m : Z) (s : state) (sort_mode : ascii) :
  sort_mode_of_key (to_char m) = Some sort_mode ->
  key_sort m s
  = let s1 := set_cfg_sortmode sort_mode
                (statusbar_message
                   "enter sort mode: iNdex, Project, Due, pRiority" s) in
    hd ← sort_wrapper sort_mode (head s); Some (set_head hd s1).
Proof.
  unfold sort_mode_of_key, key_sort. cbv zeta.
  generalize (to_char m). intros c.
  repeat match goal with
         | |- context [c =? ?y] =>
             destruct (Z.eqb_spec c y); [subst c; intros [= <-]; reflexivity|]
         end.
  discriminate.
Qed.

Lemma key_sort_invalid (m : Z) (s : state) :
  sort_mode_of_key (to_char m) = None ->
  key_sort m s = Some (statusbar_message "invalid sort mode" s).
Proof.
  unfold sort_mode_of_key, key_sort. cbv zeta.
  generalize (to_char m). intros c.
  repeat match goal with
         | |- context [c =? ?y] =>
             destruct (Z.eqb_spec c y); [subst c; discriminate|]
         end.
  reflexivity.
Qed.

(** X16.  [key_sort] takes the four letters n, p, d and r in either
    case, the key being read as a [char].  For one of them, on a list
    that is not empty, the lower-case letter becomes the sort mode
    and the list is sorted by it: the same records, none followed by
    one that [compare_tasks] puts before it; the selected line, the
    page, the counter and the chain of filters stay.  For any other
    key nothing changes but the status bar, which reads "invalid sort
    mode". *)
Theorem key_sort_sorts (m : Z) (s : state) :
  (forall sort_mode,
     sort_mode_of_key (to_char m) = Some sort_mode -> head s <> [] ->
     exists s',
       key_sort m s = Some s' /\ cfg_sortmode s' = sort_mode /\
       head s' ≡ₚ head s /\ ordered sort_mode (head s') /\
       selline s' = selline s /\ pageoffset s' = pageoffset s /\
       taskcount s' = taskcount s /\
       active_filters s' = active_filters s) /\
  (sort_mode_of_key (to_char m) = None ->
   key_sort m s = Some (statusbar_message "invalid sort mode" s)).
Proof.
  split; [|apply key_sort_invalid].
  intros sort_mode Hm Hne. rewrite (key_sort_valid m s sort_mode Hm).
  cbv zeta.
  destruct (sort_wrapper_some sort_mode (head s) Hne) as (l' & E & Hp).
  rewrite E. cbn [mbind option_bind]. eexists. split; [reflexivity|].
  cbn. split_and!; try done.
  by eapply sort_wrapper_ordered_aux.
Qed.

(** ** sel_task, and the search that finds a task *)

Lemma count_visible_take_le (l : list task) (i : nat) :
  count_visible (take i l) <= count_visible l.
Proof.
  rewrite <- (take_ge l (Nat.max i (length l))) at 2 by lia.
  apply count_visible_take_mono. lia.
Qed.

Lemma sel_task_from_found (l : list task) (p0 : nat) (i : Z) (q : nat)
    (tq : task) :
  l !! q = Some tq -> is_filtered tq = true -> -1 <= i ->
  i + count_visible (take (S q) l) <= 32767 ->
  sel_task_from l p0 i (i + count_visible (take (S q) l)) = Some (p0 + q)%nat.
Proof.
  revert p0 i q. induction l as [|t l IH]; intros p0 i q Hq Hv Hi Hs;
    [discriminate|].
  pose proof (count_visible_nonneg (take q l)) as Hnn.
  destruct q as [|q].
  - injection Hq as <-.
    rewrite (count_visible_take_S (t :: l) 0%nat t eq_refl), take_0, Hv in *.
    change (count_visible []) with 0 in *. simpl Z.b2z in *.
    cbn [sel_task_from]. rewrite Hv. simpl Z.b2z.
    rewrite to_short_id by lia.
    replace (i + (0 + 1)) with (i + 1) by lia.
    rewrite Z.eqb_refl. f_equal. lia.
  - simpl in Hq.
    change (take (S (S q)) (t :: l)) with (t :: take (S q) l) in *.
    cbn [count_visible foldr] in *. fold (count_visible (take (S q) l)) in *.
    pose proof (count_visible_take_S l q tq Hq) as Hc. rewrite Hv in Hc.
    simpl Z.b2z in Hc.
    pose proof (count_visible_nonneg (take q l)) as Hnn'.
    cbn [sel_task_from].
    assert (Hb : 0 <= Z.b2z (is_filtered t) <= 1)
      by (destruct (is_filtered t); simpl; lia).
    rewrite to_short_id by lia.
    destruct (Z.eqb_spec (i + Z.b2z (is_filtered t))
                (i + (Z.b2z (is_filtered t) + count_visible (take (S q) l))))
      as [He|_]; [lia|].
    replace (i + (Z.b2z (is_filtered t) + count_visible (take (S q) l)))
      with (i + Z.b2z (is_filtered t) + count_visible (take (S q) l)) by lia.
    rewrite (IH (S p0) _ q Hq Hv).
    + f_equal. lia.
    + lia.
    + lia.
Qed.

Lemma sel_task_from_none (l : list task) (p0 : nat) (i sel : Z) :
  -1 <= i -> i + count_visible l < sel -> sel <= 32767 ->
  sel_task_from l p0 i sel = None.
Proof.
  revert p0 i. induction l as [|t l IH]; intros p0 i Hi Hs Hm; [done|].
  cbn [count_visible foldr] in Hs. fold (count_visible l) in Hs.
  pose proof (count_visible_nonneg l).
  cbn [sel_task_from].
  assert (Hb : 0 <= Z.b2z (is_filtered t) <= 1)
    by (destruct (is_filtered t); simpl; lia).
  rewrite to_short_id by lia.
  destruct (Z.eqb_spec (i + Z.b2z (is_filtered t)) sel); [lia|].
  apply IH; lia.
Qed.

Lemma sel_task_from_big (l : list task) (p0 : nat) (i sel : Z) :
  32767 < sel -> sel_task_from l p0 i sel = None.
Proof.
  intros Hsel. revert p0 i. induction l as [|t l IH]; intros p0 i; [done|].
  cbn [sel_task_from].
  pose proof (to_short_range (i + Z.b2z (is_filtered t))).
  destruct (Z.eqb_spec (to_short (i + Z.b2z (is_filtered t))) sel); [lia|].
  apply IH.
Qed.

(** The task shown with a given rank. *)
Lemma rank_exists (l : list task) (sel : Z) :
  0 <= sel < count_visible l ->
  exists q tq, l !! q = Some tq /\ is_filtered tq = true /\
    count_visible (take q l) = sel.
Proof.
  revert sel. induction l as [|t l IH]; intros sel Hs.
  - simpl in Hs. lia.
  - cbn [count_visible foldr] in Hs. fold (count_visible l) in Hs.
    destruct (is_filtered t) eqn:Hv; simpl Z.b2z in Hs.
    + destruct (decide (sel = 0)) as [->|Hne].
      * exists 0%nat, t. done.
      * destruct (IH (sel - 1)) as (q & tq & Hq & Hvq & Hc); [lia|].
        exists (S q), tq. split; [done|]. split; [done|].
        change (take (S q) (t :: l)) with (t :: take q l).
        cbn [count_visible foldr]. fold (count_visible (take q l)).
        rewrite Hv. simpl. lia.
    + destruct (IH sel) as (q & tq & Hq & Hvq & Hc); [lia|].
      exists (S q), tq. split; [done|]. split; [done|].
      change (take (S q) (t :: l)) with (t :: take q l).
      cbn [count_visible foldr]. fold (count_visible (take q l)).
      rewrite Hv. simpl. lia.
Qed.

(** X17.  [sel_task] returns the task shown that has [selline]
    tasks shown before it in the list, when [selline] is a line of
    the list; it returns [NULL] when [selline] is past the last task
    shown. *)
Theorem sel_task_selects (s : state) :
  count_visible (head s) <= 32768 ->
  (0 <= selline s < count_visible (head s) ->
   exists p t, sel_task s = Some p /\ head s !! p = Some t /\
     is_filtered t = true /\ count_visible (take p (head s)) = selline s) /\
  (count_visible (head s) <= selline s <= 32767 -> sel_task s = None).
Proof.
  intros Hmax. split.
  - intros Hs.
    destruct (rank_exists (head s) (selline s) Hs) as (q & tq & Hq & Hv & Hc).
    exists q, tq. split; [|done].
    pose proof (count_visible_take_S _ _ _ Hq) as HS. rewrite Hv in HS.
    simpl Z.b2z in HS.
    unfold sel_task.
    replace (selline s) with (-1 + count_visible (take (S q) (head s))) by lia.
    rewrite (sel_task_from_found (head s) 0 (-1) q tq Hq Hv); [done|lia|lia].
  - intros Hs. unfold sel_task. apply sel_task_from_none; lia.
Qed.

Section SearchMore.

Context {posix : RegexLib}.

Section WalkTo.

Variable s0 : state.
Variable p q : nat.
Variable tq : task.
Hypothesis Hq : head s0 !! q = Some tq.
Hypothesis Hvq : is_filtered tq = true.
Hypothesis Hmq : task_match tq (searchstring s0) = Some 1.
Hypothesis Hrank : rank_of (head s0) q <= 32767.

(** Down the list to [q]. *)
Lemma search_walk_to (fuel cur : nat) :
  (cur < q)%nat -> (q - cur <= fuel)%nat ->
  (forall i t, (cur < i < q)%nat -> head s0 !! i = Some t ->
     is_filtered t = true ->
     task_match t (searchstring s0) = Some 0 /\ i <> p) ->
  search_loop fuel p cur (set_selline (rank_of (head s0) cur) s0)
  = Some (set_selline (rank_of (head s0) q) s0).
Proof.
  unfold rank_of in *.
  revert cur. induction fuel as [|fuel IH]; intros cur Hc Hf Hno; [lia|].
  pose proof (lookup_lt_Some _ _ _ Hq) as Hlen.
  set (s := set_selline _ s0).
  assert (Hn : next (head s) cur = Some (S cur)) by (apply next_lt; simpl; lia).
  destruct (lookup_lt_is_Some_2 (head s0) (S cur) ltac:(lia)) as [t Ht].
  pose proof (count_visible_take_S _ _ _ Ht) as Hcnt.
  pose proof (count_visible_take_mono (head s0) (S (S cur)) (S q) ltac:(lia))
    as Hmono.
  pose proof (count_visible_nonneg (take (S cur) (head s0))) as Hnn.
  destruct (is_filtered t) eqn:Ev.
  - rewrite (search_loop_shown fuel p cur (S cur) s t Hn Ht Ev).
    unfold search_check.
    change (searchstring (set_selline _ s)) with (searchstring s0).
    change (selline s) with (count_visible (take (S cur) (head s0)) - 1).
    simpl Z.b2z in Hcnt.
    rewrite to_short_id by lia.
    replace (count_visible (take (S cur) (head s0)) - 1 + 1)
      with (count_visible (take (S (S cur)) (head s0)) - 1) by lia.
    destruct (decide (S cur = q)) as [Heq|Hne].
    + assert (t = tq) as -> by (rewrite Heq in Ht; congruence).
      rewrite Hmq. cbn [mbind option_bind Z.eqb Pos.eqb]. by rewrite Heq.
    + destruct (Hno (S cur) t ltac:(lia) Ht Ev) as [Hm Hp].
      rewrite Hm. cbn [mbind option_bind Z.eqb].
      rewrite decide_False by done.
      apply IH; [lia|lia|]. intros i ti Hi. apply Hno. lia.
  - rewrite (search_loop_hidden fuel p cur (S cur) s t Hn Ht Ev).
    assert (S cur <> q) by (intros Heq; rewrite Heq in Ht; congruence).
    simpl Z.b2z in Hcnt. unfold s.
    replace (count_visible (take (S cur) (head s0)) - 1)
      with (count_visible (take (S (S cur)) (head s0)) - 1) by lia.
    apply IH; [lia|lia|]. intros i ti Hi. apply Hno. lia.
Qed.

(** To the end of the list, around, and down to [q]. *)
Lemma search_walk_around (fuel cur : nat) (x : Z) :
  (q < p)%nat -> (p <= cur)%nat -> (cur < length (head s0))%nat ->
  (length (head s0) - cur + q <= fuel)%nat ->
  (forall i t, (cur < i \/ i < q)%nat -> head s0 !! i = Some t ->
     is_filtered t = true \/ i = 0%nat ->
     task_match t (searchstring s0) = Some 0) ->
  search_loop fuel p cur (set_selline x s0)
  = Some (set_selline (rank_of (head s0) q) s0).
Proof.
  revert cur x. induction fuel as [|fuel IH]; intros cur x Hqp Hpc Hc Hf Hno;
    [lia|].
  set (s := set_selline x s0).
  destruct (decide (S cur < length (head s0))%nat) as [Hlt|Hge].
  - assert (Hn : next (head s) cur = Some (S cur)) by (by apply next_lt).
    destruct (lookup_lt_is_Some_2 (head s0) (S cur) Hlt) as [t Ht].
    destruct (is_filtered t) eqn:Ev.
    + rewrite (search_loop_shown fuel p cur (S cur) s t Hn Ht Ev).
      unfold search_check.
      change (searchstring (set_selline _ s)) with (searchstring s0).
      rewrite (Hno (S cur) t ltac:(lia) Ht (or_introl Ev)).
      cbn [mbind option_bind Z.eqb]. rewrite decide_False by lia.
      apply IH; [lia|lia|lia|lia|]. intros i ti Hi. apply Hno. lia.
    + rewrite (search_loop_hidden fuel p cur (S cur) s t Hn Ht Ev).
      apply IH; [lia|lia|lia|lia|]. intros i ti Hi. apply Hno. lia.
  - assert (Hn : next (head s) cur = None) by (apply next_ge; simpl; lia).
    destruct (lookup_lt_is_Some_2 (head s0) 0%nat ltac:(lia)) as [t Ht].
    rewrite (search_loop_wrap fuel p cur s t Hn Ht).
    unfold search_check.
    change (searchstring (set_selline _ s)) with (searchstring s0).
    assert (Hx : (if is_filtered t then 0 else -1) = rank_of (head s0) 0).
    { unfold rank_of. rewrite (count_visible_take_S _ 0%nat t Ht), take_0.
      destruct (is_filtered t); reflexivity. }
    rewrite Hx.
    destruct (decide (q = 0%nat)) as [Heq|Hne].
    + subst q. assert (t = tq) as -> by congruence.
      rewrite Hmq. cbn [mbind option_bind Z.eqb Pos.eqb]. done.
    + rewrite (Hno 0%nat t ltac:(lia) Ht (or_intror eq_refl)).
      cbn [mbind option_bind Z.eqb]. rewrite decide_False by lia.
      apply search_walk_to; [lia|lia|].
      intros i ti Hi Hti Hvi. split; [|lia].
      apply (Hno i ti); [lia|done|by left].
Qed.

End WalkTo.

Lemma search_finds (s : state) (p q : nat) (str : string) (tq : task) :
  sel_task s = Some p -> 0 <= selline s ->
  count_visible (head s) <= 32768 ->
  searchstring s = Some str ->
  head s !! q = Some tq -> is_filtered tq = true ->
  task_match tq (Some str) = Some 1 -> q <> p ->
  (forall i t, passed p q i -> head s !! i = Some t ->
     is_filtered t = true \/ i = 0%nat -> task_match t (Some str) = Some 0) ->
  find_next_search_result (sel_task s) s
  = Some (set_selline (rank_of (head s) q) s) /\
  0 <= rank_of (head s) q < count_visible (head s) /\
  sel_task (set_selline (rank_of (head s) q) s) = Some q.
Proof.
  intros Hsel Hs0 Hmax Hstr Hq Hvq Hmq Hqp Hno.
  pose proof (count_visible_take_S _ _ _ Hq) as HSq. rewrite Hvq in HSq.
  simpl Z.b2z in HSq.
  pose proof (count_visible_nonneg (take q (head s))) as Hnnq.
  pose proof (count_visible_take_le (head s) (S q)) as Hleq.
  assert (Hrq : 0 <= rank_of (head s) q < count_visible (head s))
    by (unfold rank_of; lia).
  destruct (sel_task_from_spec (head s) 0 (-1) (selline s) p Hsel)
    as (k & tp & -> & Hp & Hshown & Hcount).
  { lia. }
  { destruct (decide (selline s <= 32767)); [done|].
    unfold sel_task in Hsel.
    rewrite sel_task_from_big in Hsel by lia. discriminate. }
  simpl in Hp, Hqp, Hno, Hsel. split; [|split; [done|]].
  - rewrite Hsel. unfold find_next_search_result.
    cbn [mbind option_bind]. rewrite Hp. cbn [mbind option_bind].
    pose proof (lookup_lt_Some _ _ _ Hp) as Hlenp.
    pose proof (lookup_lt_Some _ _ _ Hq) as Hlenq.
    assert (Hsk : selline s = rank_of (head s) k) by (unfold rank_of; lia).
    rewrite <- (set_selline_same s) at 2.
    destruct (decide (k < q)%nat) as [Hlt|Hge].
    + rewrite Hsk.
      apply (search_walk_to s k q tq Hq Hvq);
        [by rewrite Hstr|unfold rank_of; lia|lia|lia|].
      intros i t Hi Hti Hvi. rewrite Hstr. split; [|lia].
      apply (Hno i t); [|done|by left].
      unfold passed. rewrite decide_True by lia. lia.
    + apply (search_walk_around s k q tq Hq Hvq);
        [by rewrite Hstr|unfold rank_of; lia|lia|lia|lia|lia|].
      intros i t Hi Hti Hvi. rewrite Hstr.
      apply (Hno i t); [|done..].
      unfold passed. rewrite decide_False by lia. lia.
  - unfold sel_task. cbn [head selline set_selline].
    unfold rank_of.
    replace (count_visible (take (S q) (head s)) - 1)
      with (-1 + count_visible (take (S q) (head s))) by lia.
    rewrite (sel_task_from_found (head s) 0 (-1) q tq Hq Hvq); [done|lia|lia].
Qed.

(** X18.  The search from the selected task [p] stops on the first
    task shown that matches the search string, going down the list
    and around its end: when [q] is shown and matches, and no task
    shown that the walk passes between [p] and [q] matches (nor the
    head of the list, which the walk tests when it goes around), then
    [find_next_search_result] sets [selline] to the rank of [q] among
    the tasks shown and changes nothing else, and [sel_task] then
    returns [q]. *)
Theorem search_finds_next (s : state) (p q : nat) (str : string)
    (tq : task) :
  sel_task s = Some p -> 0 <= selline s ->
  count_visible (head s) <= 32768 ->
  searchstring s = Some str ->
  head s !! q = Some tq -> is_filtered tq = true ->
  task_match tq (Some str) = Some 1 -> q <> p ->
  (forall i t, passed p q i -> head s !! i = Some t ->
     is_filtered t = true \/ i = 0%nat -> task_match t (Some str) = Some 0) ->
  find_next_search_result (sel_task s) s
  = Some (set_selline (rank_of (head s) q) s) /\
  0 <= rank_of (head s) q < count_visible (head s) /\
  sel_task (set_selline (rank_of (head s) q) s) = Some q.
Proof. exact (search_finds s p q str tq). Qed.

End SearchMore.

(** ** The cursor, again *)

Lemma set_pageoffset_same (s : state) : set_pageoffset (pageoffset s) s = s.
Proof. by destruct s. Qed.

Lemma check_curs_pos_in_view (s : state) : in_view s -> check_curs_pos s = s.
Proof.
  unfold in_view, check_curs_pos. intros [H1 H2].
  destruct (Z.ltb_spec (selline s) 0); [lia|].
  destruct (Z.geb_spec (selline s) (taskcount s)); [lia|].
  destruct (Z.ltb_spec (selline s) (pageoffset s)); [lia|].
  destruct (Z.gtb_spec (selline s) (pageoffset s + onscreentasks s)); [lia|].
  done.
Qed.

(** X19.  With at least one task shown, [check_curs_pos] is
    idempotent: a second call changes nothing; and it leaves a state
    as it is when the selected line is a line of the list and is on
    the page. *)
Theorem check_curs_pos_idempotent (s : state) :
  1 <= taskcount s -> is_short (selline s) -> 3 <= size1 s <= 32770 ->
  check_curs_pos (check_curs_pos s) = check_curs_pos s /\
  (in_view s -> check_curs_pos s = s).
Proof.
  intros Htc Hsel Hsize. split; [|apply check_curs_pos_in_view].
  apply check_curs_pos_in_view. by apply check_curs_pos_bounds.
Qed.

Lemma check_curs_pos_selline (s : state) :
  0 <= selline s < taskcount s -> selline (check_curs_pos s) = selline s.
Proof.
  intros H. unfold check_curs_pos.
  destruct (Z.ltb_spec (selline s) 0); [lia|].
  destruct (Z.geb_spec (selline s) (taskcount s)); [lia|].
  repeat match goal with
         | |- context [if ?c then _ else _] => destruct c
         end; done.
Qed.

Lemma check_curs_pos_page (s : state) :
  0 <= selline s < taskcount s -> selline s <= 32767 ->
  3 <= size1 s <= 32770 ->
  selline (check_curs_pos s) = selline s /\
  taskcount (check_curs_pos s) = taskcount s /\
  size1 (check_curs_pos s) = size1 s /\
  pageoffset (check_curs_pos s)
  = (if selline s <? pageoffset s then selline s
     else if selline s >? pageoffset s + (size1 s - 3)
          then selline s - (size1 s - 3)
          else pageoffset s).
Proof.
  intros Hsel Hmax Hsize. unfold check_curs_pos, onscreentasks.
  destruct (Z.ltb_spec (selline s) 0); [lia|].
  destruct (Z.geb_spec (selline s) (taskcount s)); [lia|].
  rewrite (to_short_id (size1 s - 3)) by lia.
  destruct (Z.ltb_spec (selline s) (pageoffset s)); [done|].
  destruct (Z.gtb_spec (selline s) (pageoffset s + (size1 s - 3))); [|done].
  cbn. rewrite to_short_id by lia. done.
Qed.

(** One step down or up from a state in view. *)
Lemma key_scroll_down (s : state) :
  in_view s -> 3 <= size1 s <= 32770 -> taskcount s <= 32767 ->
  selline (key_scroll 1 s) = Z.min (selline s + 1) (taskcount s - 1) /\
  pageoffset s <= pageoffset (key_scroll 1 s) <= pageoffset s + 1 /\
  taskcount (key_scroll 1 s) = taskcount s /\
  size1 (key_scroll 1 s) = size1 s /\
  in_view (key_scroll 1 s).
Proof.
  unfold in_view, onscreentasks. intros [H1 H2] Hsize Htc.
  rewrite to_short_id in H2 by lia.
  unfold key_scroll. cbn [Z.eqb Pos.eqb].
  destruct (Z.ltb_spec (selline s) (taskcount s - 1)).
  - rewrite (to_short_id (selline s + 1)) by lia.
    destruct (check_curs_pos_page (set_selline (selline s + 1) s))
      as (-> & -> & -> & ->); cbn [selline taskcount size1 pageoffset
                                    set_selline]; [lia..|].
    rewrite to_short_id by lia.
    destruct (Z.ltb_spec (selline s + 1) (pageoffset s)); [lia|].
    destruct (Z.gtb_spec (selline s + 1) (pageoffset s + (size1 s - 3))); lia.
  - destruct (check_curs_pos_page s) as (-> & -> & -> & ->); [lia..|].
    rewrite to_short_id by lia.
    destruct (Z.ltb_spec (selline s) (pageoffset s)); [lia|].
    destruct (Z.gtb_spec (selline s) (pageoffset s + (size1 s - 3))); lia.
Qed.

Lemma key_scroll_up (s : state) :
  in_view s -> 3 <= size1 s <= 32770 -> taskcount s <= 32767 ->
  selline (key_scroll (-1) s) = Z.max (selline s - 1) 0 /\
  pageoffset s - 1 <= pageoffset (key_scroll (-1) s) <= pageoffset s /\
  taskcount (key_scroll (-1) s) = taskcount s /\
  size1 (key_scroll (-1) s) = size1 s /\
  in_view (key_scroll (-1) s).
Proof.
  unfold in_view, onscreentasks. intros [H1 H2] Hsize Htc.
  rewrite to_short_id in H2 by lia.
  unfold key_scroll. cbn [Z.eqb Pos.eqb].
  destruct (Z.gtb_spec (selline s) 0).
  - rewrite (to_short_id (selline s - 1)) by lia.
    destruct (check_curs_pos_page (set_selline (selline s - 1) s))
      as (-> & -> & -> & ->); cbn [selline taskcount size1 pageoffset
                                    set_selline]; [lia..|].
    rewrite to_short_id by lia.
    destruct (Z.ltb_spec (selline s - 1) (pageoffset s)); [lia|].
    destruct (Z.gtb_spec (selline s - 1) (pageoffset s + (size1 s - 3))); lia.
  - destruct (check_curs_pos_page s) as (-> & -> & -> & ->); [lia..|].
    rewrite to_short_id by lia.
    destruct (Z.ltb_spec (selline s) (pageoffset s)); [lia|].
    destruct (Z.gtb_spec (selline s) (pageoffset s + (size1 s - 3))); lia.
Qed.

(** X20.  From a state whose selected line is in view, the key
    down moves the selection one line down and the key up one line
    up, stopping at the last and at the first line; the page moves by
    at most one line and the selection stays in view; and away from
    the two ends the opposite key brings the selection back. *)
Theorem key_scroll_step (s : state) :
  in_view s -> 3 <= size1 s <= 32770 -> taskcount s <= 32767 ->
  let down := key_scroll 1 s in
  let up := key_scroll (-1) s in
  selline down = Z.min (selline s + 1) (taskcount s - 1) /\
  selline up = Z.max (selline s - 1) 0 /\
  pageoffset s <= pageoffset down <= pageoffset s + 1 /\
  pageoffset s - 1 <= pageoffset up <= pageoffset s /\
  in_view down /\ in_view up /\
  (selline s < taskcount s - 1 -> selline (key_scroll (-1) down) = selline s) /\
  (0 < selline s -> selline (key_scroll 1 up) = selline s).
Proof.
  intros Hv Hsize Htc. cbv zeta.
  destruct (key_scroll_down s Hv Hsize Htc) as (D1 & D2 & D3 & D4 & D5).
  destruct (key_scroll_up s Hv Hsize Htc) as (U1 & U2 & U3 & U4 & U5).
  pose proof Hv as [Hv1 _].
  split; [exact D1|]. split; [exact U1|]. split; [exact D2|].
  split; [exact U2|]. split; [exact D5|]. split; [exact U5|]. split.
  - intros Hlt.
    destruct (key_scroll_up (key_scroll 1 s) D5) as (E & _); [lia..|].
    rewrite E, D1. lia.
  - intros Hgt.
    destruct (key_scroll_down (key_scroll (-1) s) U5) as (E & _); [lia..|].
    rewrite E, U1, U3. lia.
Qed.

(** ** Loading, reloading, and the search keys *)

Section ParserMore.

Context {config : ConfigH} {libc : LibcTime}.

Lemma handle_field_shown (field content : string) (tsk tsk' : task) :
  handle_field field content tsk = Some tsk' ->
  is_filtered tsk' = is_filtered tsk.
Proof.
  unfold handle_field. intros H.
  repeat case_match; simplify_option_eq; reflexivity.
Qed.

Lemma parse_loop_shown (fuel : nat) (token : option nat) (b : list ascii)
    (olds : nat) (tsk tsk' : task) (tc tc' : Z) :
  parse_loop fuel token b olds tsk tc = Some (tsk', tc') ->
  is_filtered tsk' = is_filtered tsk.
Proof.
  revert token b olds tsk tc.
  induction fuel as [|fuel IH]; intros token b olds tsk tc H; [discriminate|].
  cbn [parse_loop] in H.
  destruct token as [tok|]; [|cbn in H; injection H as <- _; reflexivity].
  destruct (b !! tok) as [c0|]; [|discriminate]. cbn [mbind option_bind] in H.
  set (tok1 := if Ascii.eqb c0 "{" then S tok else tok) in H.
  destruct (b !! tok1) as [c1|]; [|discriminate].
  cbn [mbind option_bind] in H.
  set (tok2 := if Ascii.eqb c1 DQUOTE then S tok1 else tok1) in H.
  destruct (strchr b tok2 ":") as [[divider|]|]; [| |discriminate];
    cbn [mbind option_bind] in H; [|injection H as <- _; reflexivity].
  destruct (poke b divider NUL) as [b1|]; [|discriminate].
  cbn [mbind option_bind] in H.
  destruct (match divider with O => None | S d' => poke b1 d' NUL end)
    as [b2|]; [|discriminate].
  cbn [mbind option_bind] in H.
  destruct (cstr_at b2 tok2) as [field|]; [|discriminate].
  cbn [mbind option_bind] in H.
  assert (Hvalue : forall endchar,
    (d2 ← strchr b2 (divider + 2)%nat endchar;
     '(text, b3, olds3) ←
       match d2 with
       | Some divider2 =>
           b3 ← poke b2 divider2 NUL;
           text ← cstr_at b3 (divider + 2)%nat;
           Some (text, b3, olds)
       | None =>
           tmpcontent ← cstr_at b2 (divider + 2)%nat;
           gather (length b2) b2 olds tmpcontent endchar
       end;
     tsk' ← handle_field field text tsk;
     '(token', b4, olds4) ← strtok b3 olds3;
     parse_loop fuel token' b4 olds4 tsk' (tc + 1)) = Some (tsk', tc') ->
    is_filtered tsk' = is_filtered tsk).
  { intros endchar Hv.
    destruct (strchr b2 _ endchar) as [d2|]; [|discriminate].
    cbn [mbind option_bind] in Hv.
    destruct (match d2 with Some _ => _ | None => _ end)
      as [[[text b3] olds3]|]; [|discriminate].
    cbn [mbind option_bind] in Hv.
    destruct (handle_field field text tsk) as [tsk1|] eqn:Eh; [|discriminate].
    cbn [mbind option_bind] in Hv.
    destruct (strtok b3 olds3) as [[[token' b4] olds4]|]; [|discriminate].
    cbn [mbind option_bind] in Hv.
    rewrite (IH _ _ _ _ _ Hv). by eapply handle_field_shown. }
  destruct (str_eq field "tags" || str_eq field "annotations").
  { by apply (Hvalue "]"%char). }
  destruct (str_eq field "id").
  - destruct (strtok b2 olds) as [[[token' b3] olds3]|]; [|discriminate].
    cbn [mbind option_bind] in H. by eapply IH.
  - by apply (Hvalue DQUOTE).
Qed.

Lemma parse_line_shown (line : string) (tsk : task) :
  parse_line line = Some (Some tsk) -> is_filtered tsk = true.
Proof.
  unfold parse_line, parse_task. intros H.
  destruct (remove_char _ _) as [b|]; [|discriminate].
  cbn [mbind option_bind] in H.
  destruct (strtok b 0) as [[[token b1] olds]|]; [|discriminate].
  cbn [mbind option_bind] in H.
  destruct (parse_loop _ _ _ _ _ _) as [[t tc]|] eqn:E; [|discriminate].
  cbn [mbind option_bind] in H.
  destruct (tc <? 2); [discriminate|]. injection H as <-.
  by apply parse_loop_shown in E.
Qed.

Lemma get_tasks_loop_loaded (lines : list string) (hd hd' : list task)
    (counter : Z) :
  Forall loaded hd ->
  get_tasks_loop lines hd counter = Some (Some hd') -> Forall loaded hd'.
Proof.
  revert hd counter. induction lines as [|line rest IH]; intros hd counter Hhd H.
  - simpl in H. by injection H as <-.
  - simpl in H.
    destruct (parse_line line) as [[this|]|] eqn:E; simpl in H;
      try discriminate.
    destruct (uuid this) eqn:Eu; [|discriminate].
    destruct (description this) eqn:Ed; [|discriminate].
    apply parse_line_shown in E.
    assert (Hthis : loaded (set_index counter this)).
    { unfold loaded. simpl. rewrite Eu, Ed. eauto. }
    apply IH in H; [done|].
    destruct (counter =? 0); [by repeat constructor|].
    apply Forall_app. split; [done|by repeat constructor].
Qed.

Lemma get_tasks_loop_length (lines : list string) (hd hd' : list task)
    (counter : Z) :
  counter = Z.of_nat (length hd) ->
  Z.of_nat (length hd + length lines) < 65536 ->
  get_tasks_loop lines hd counter = Some (Some hd') ->
  length hd' = (length hd + length lines)%nat.
Proof.
  revert hd counter. induction lines as [|line rest IH]; intros hd counter Hc Hn H.
  - simpl in H. injection H as <-. simpl. lia.
  - simpl in H.
    destruct (parse_line line) as [[this|]|] eqn:E; simpl in H;
      try discriminate.
    destruct (uuid this) eqn:Eu; [|discriminate].
    destruct (description this) eqn:Ed; [|discriminate].
    cbn [length] in Hn.
    assert (Hhd : (if counter =? 0 then [set_index counter this]
                   else hd ++ [set_index counter this])
                  = hd ++ [set_index counter this]).
    { destruct (Z.eqb_spec counter 0) as [H0|]; [|done].
      destruct hd; [done|]. simpl in Hc. lia. }
    rewrite Hhd in H.
    apply IH in H.
    + rewrite H, length_app. simpl. lia.
    + rewrite length_app. simpl. unfold to_ushort.
      rewrite Z.mod_small by lia. lia.
    + rewrite length_app. simpl. lia.
Qed.

Lemma get_tasks_accepts (sort_mode : ascii) (lines : list string)
    (l : list task) :
  get_tasks sort_mode lines = Some l ->
  Forall loaded l /\
  (l <> [] -> Z.of_nat (length lines) < 65536 -> length l = length lines).
Proof.
  unfold get_tasks. intros H.
  destruct (get_tasks_loop lines [] 0) as [[hd|]|] eqn:E; simpl in H;
    [|by injection H as <-|discriminate].
  pose proof (get_tasks_loop_loaded lines [] hd 0 ltac:(constructor) E) as Hl.
  assert (Hp : l ≡ₚ hd).
  { destruct hd as [|t hd0]; [by injection H as <-|].
    destruct (sort_wrapper_some sort_mode (t :: hd0)) as (l' & E' & Hp);
      [done|]. congruence. }
  split; [by rewrite Hp|].
  intros _ Hn. rewrite (Permutation_length Hp).
  apply (get_tasks_loop_length lines [] hd 0) in E; [done|done|simpl; lia].
Qed.

(** X21.  Every record of a list that [get_tasks] returns is shown
    and has a uuid and a description; and a list that is not empty
    has one record for each line of the export, when the export has
    fewer than 65536 lines. *)
Theorem get_tasks_loaded (sort_mode : ascii) (lines : list string)
    (l : list task) :
  get_tasks sort_mode lines = Some l ->
  Forall loaded l /\
  (l <> [] -> Z.of_nat (length lines) < 65536 -> length l = length lines).
Proof. exact (get_tasks_accepts sort_mode lines l). Qed.

End ParserMore.

Section ReloadMore.

Context {posix : RegexLib} {config : ConfigH} {libc : LibcTime}.

(** X22.  The reload of [nc_main] loads the list anew and applies
    the first filter of the chain, and only the first.  Without an
    active filter every record loaded is shown and both counters are
    the length of the list.  With a chain that starts with [f], each
    record loaded is shown exactly when [f] matches it, whatever the
    other filters of the chain say; [taskcount] is the number of
    records shown, and the chain stays as it was. *)
Theorem nc_main_reload_refilters (lines : list string) (s : state)
    (l : list task) :
  get_tasks (cfg_sortmode s) lines = Some l ->
  (active_filters s = [] ->
   exists s',
     nc_main_reload lines s = Some s' /\ head s' = l /\
     taskcount s' = Z.of_nat (length l) /\
     totaltaskcount s' = Z.of_nat (length l) /\
     Forall (fun t => is_filtered t = true) (head s')) /\
  (forall f rest,
     active_filters s = f :: rest -> well_formed_filter f ->
     mode f <> FILTER_CLEAR ->
     exists s',
       nc_main_reload lines s = Some s' /\
       length (head s') = length l /\
       (forall i t, l !! i = Some t ->
          exists m, filter_match f t = Some m /\
            head s' !! i = Some (set_is_filtered (flag m) t)) /\
       taskcount s' = count_visible (head s') /\
       totaltaskcount s' = Z.of_nat (length l) /\
       active_filters s' = f :: rest).
Proof.
  intros Hget.
  destruct (get_tasks_accepts _ _ _ Hget) as [Hloaded _].
  unfold nc_main_reload, reload_tasks. rewrite Hget.
  cbn [mbind option_bind]. rewrite task_count_spec.
  cbn [head active_filters set_head set_taskcount set_totaltaskcount].
  split.
  - intros ->. eexists. split; [reflexivity|].
    destruct (check_curs_pos_frame
                (set_totaltaskcount (Z.of_nat (length l))
                   (set_taskcount (Z.of_nat (length l)) (set_head l s))))
      as (-> & -> & -> & _).
    cbn. split_and!; try done.
    eapply Forall_impl; [exact Hloaded|]. by intros t [Hv _].
  - intros f rest Hchain Hwf Hmode. rewrite Hchain.
    set (s2 := set_totaltaskcount _ _).
    destruct (filter_tasks_spec f s2 Hwf)
      as (s3 & E & Hlen & Hre & Htc & Htot & Haf & Hfr).
    rewrite E. cbn [mbind option_bind].
    eexists. split; [reflexivity|].
    destruct (check_curs_pos_frame s3) as (-> & -> & -> & _).
    destruct (check_curs_pos_rest s3) as (_ & _ & _ & -> & _).
    change (head s2) with l in *.
    split; [done|]. split; [|split; [done|split; [done|]]].
    + intros i t Ht. rewrite (Hre i t Ht).
      assert (Hv : is_filtered t = true).
      { apply list_elem_of_lookup_2 in Ht.
        rewrite Forall_forall in Hloaded. by destruct (Hloaded t Ht). }
      unfold refilter. rewrite Hv, andb_false_r.
      destruct (filter_match_some f t Hwf) as (m & Em & _).
      rewrite Em. simpl. eauto.
    + rewrite Haf. apply Z.eqb_neq in Hmode. rewrite Hmode. exact Hchain.
Qed.

End ReloadMore.

Section SearchKeys.

Context {posix : RegexLib}.

Lemma sel_task_ext (s s' : state) :
  head s' = head s -> selline s' = selline s -> sel_task s' = sel_task s.
Proof. unfold sel_task. by intros -> ->. Qed.

Lemma search_then_check (s : state) (q : nat) :
  taskcount s = count_visible (head s) -> 3 <= size1 s <= 32770 ->
  count_visible (head s) <= 32768 ->
  0 <= rank_of (head s) q < count_visible (head s) ->
  sel_task (set_selline (rank_of (head s) q) s) = Some q ->
  let s' := check_curs_pos (set_selline (rank_of (head s) q) s) in
  sel_task s' = Some q /\ in_view s' /\ head s' = head s /\
  selline s' = rank_of (head s) q /\ searchstring s' = searchstring s /\
  statusbar s' = statusbar s.
Proof.
  intros Htc Hsize Hmax Hr Hsel. cbv zeta.
  set (s1 := set_selline (rank_of (head s) q) s).
  destruct (check_curs_pos_page s1) as (E1 & _); [cbn; lia..|].
  destruct (check_curs_pos_rest s1) as (E2 & _ & _ & _ & E3 & _ & E4).
  split_and!; try done.
  - rewrite <- Hsel. by apply sel_task_ext.
  - apply check_curs_pos_bounds; [cbn; lia|unfold is_short; cbn; lia|done].
Qed.


End SearchKeys.

(** ** remove_char on a text with the character *)

Lemma remove_skip_spec (remove y : ascii) (rem : list ascii) (fuel : nat)
    (str : list ascii) (i offset : nat) :
  Forall (fun c => c = remove) rem ->
  Ascii.eqb y remove = false -> Ascii.eqb y NUL = false ->
  str !! i = (rem ++ [y]) !! 0%nat ->
  (forall j, (1 <= j <= length rem)%nat ->
     str !! (i + offset + j)%nat = (rem ++ [y]) !! j) ->
  (length rem < fuel)%nat ->
  remove_skip fuel str i offset remove
  = Some (<[i := y]> str, (offset + length rem)%nat).
Proof.
  revert fuel str offset.
  induction rem as [|x rem IH]; intros fuel str offset Hrem Hy Hnul Hi Hsrc Hf.
  - destruct fuel as [|fuel]; [simpl in Hf; lia|].
    cbn [remove_skip]. simpl in Hi. rewrite Hi. cbn [mbind option_bind].
    rewrite Hy, Hnul. cbn [orb].
    rewrite list_insert_id by done. by rewrite Nat.add_0_r.
  - destruct fuel as [|fuel]; [simpl in Hf; lia|].
    apply Forall_cons in Hrem as [-> Hrem].
    cbn [remove_skip]. simpl in Hi. rewrite Hi. cbn [mbind option_bind].
    rewrite Ascii.eqb_refl. cbn [orb].
    pose proof (Hsrc 1%nat ltac:(simpl; lia)) as H1.
    replace (i + offset + 1)%nat with (i + S offset)%nat in H1 by lia.
    simpl in H1. rewrite H1.
    destruct ((rem ++ [y]) !! 0%nat) as [c'|] eqn:Ec.
    2:{ destruct rem; discriminate. }
    cbn [mbind option_bind]. unfold poke. rewrite Hi.
    cbn [mbind option_bind].
    rewrite (IH fuel (<[i := c']> str) (S offset)); try done.
    + rewrite list_insert_insert_eq. do 2 f_equal. simpl. lia.
    + rewrite list_lookup_insert_eq; [done|]. by apply lookup_lt_Some in Hi.
    + intros j Hj. rewrite list_lookup_insert_ne by lia.
      replace (i + S offset + j)%nat with (i + offset + S j)%nat by lia.
      rewrite (Hsrc (S j)) by (simpl; lia). done.
    + simpl in Hf. lia.
Qed.

(** A text that does not end with the character starts, wherever it
    is cut, with a run of the character and one that is kept. *)
Lemma leading_run (remove : ascii) (todo : list ascii) :
  todo <> [] -> last todo <> Some remove ->
  exists rem y rest,
    todo = rem ++ y :: rest /\ Forall (fun c => c = remove) rem /\
    Ascii.eqb y remove = false /\
    (rest = [] \/ last rest <> Some remove).
Proof.
  induction todo as [|x todo IH]; intros Hne Hlast; [done|].
  destruct (Ascii.eqb_spec x remove) as [->|Hx].
  - destruct todo as [|x' todo'] eqn:Et; [by simpl in Hlast|].
    destruct IH as (rem & y & rest & E & Hrem & Hy & Hrest); [done|done|].
    exists (remove :: rem), y, rest. rewrite E. split; [done|].
    split; [by constructor|]. done.
  - exists [], x, todo. split; [done|]. split; [constructor|].
    split; [by apply Ascii.eqb_neq|].
    destruct todo as [|x' todo']; [by left|]. right. exact Hlast.
Qed.

Lemma kept_chars_run (remove : ascii) (rem : list ascii) :
  Forall (fun c => c = remove) rem -> kept_chars remove rem = [].
Proof.
  induction 1 as [|x rem -> _ IH]; [done|].
  unfold kept_chars. simpl. rewrite Ascii.eqb_refl. exact IH.
Qed.

Lemma kept_chars_app (remove : ascii) (x y : list ascii) :
  kept_chars remove (x ++ y) = kept_chars remove x ++ kept_chars remove y.
Proof. apply List.filter_app. Qed.

Lemma kept_chars_length (remove : ascii) (l : list ascii) :
  (length (kept_chars remove l) <= length l)%nat.
Proof. apply List.filter_length_le. Qed.

Section RemoveLoop.

Variable remove : ascii.
Variable l : list ascii.
Hypothesis Hnul : Forall (fun c => Ascii.eqb c NUL = false) l.

Lemma remove_loop_spec (n : nat) (done todo str : list ascii)
    (i offset : nat) :
  l = done ++ todo -> i = length (kept_chars remove done) ->
  (i + offset)%nat = length done -> n = (length l - i)%nat ->
  length str = S (length l) ->
  (forall j, (j < i)%nat -> str !! j = kept_chars remove done !! j) ->
  (forall j, (i <= j)%nat -> str !! j = (l ++ [NUL]) !! j) ->
  todo = [] \/ last todo <> Some remove ->
  exists str',
    remove_loop n str i offset remove = Some str' /\
    length str' = S (length l) /\
    (forall j, (j < length (kept_chars remove l))%nat ->
       str' !! j = kept_chars remove l !! j) /\
    (forall j, (length (kept_chars remove l) <= j)%nat ->
       str' !! j = (l ++ [NUL]) !! j).
Proof.
  revert done todo str i offset.
  induction n as [|n IH];
    intros done todo str i offset Hl Hi Hoff Hn Hlen Hlow Hhigh Hlast.
  - pose proof (kept_chars_length remove done) as Hk.
    assert (Hd : length done = length l).
    { rewrite Hl, length_app in *. lia. }
    assert (todo = []) as ->.
    { apply nil_length_inv. rewrite Hl, length_app in Hd. lia. }
    rewrite app_nil_r in Hl. subst done.
    exists str. split; [done|]. split; [done|]. rewrite <- Hi. done.
  - cbn [remove_loop].
    assert (Hc : str !! (i + offset)%nat = (todo ++ [NUL]) !! 0%nat).
    { rewrite Hhigh by lia. rewrite Hoff, Hl, <- app_assoc.
      rewrite lookup_app_r by lia. by rewrite Nat.sub_diag. }
    destruct todo as [|x todo0].
    + simpl in Hc. rewrite Hc. cbn [mbind option_bind].
      change (Ascii.eqb NUL NUL) with true. cbn.
      rewrite app_nil_r in Hl. subst done.
      exists str. split; [done|]. split; [done|]. rewrite <- Hi. done.
    + destruct Hlast as [?|Hlast]; [done|].
      destruct (leading_run remove (x :: todo0) ltac:(done) Hlast)
        as (rem & y & rest & Etodo & Hrem & Hy & Hrest).
      assert (Hynul : Ascii.eqb y NUL = false).
      { rewrite Forall_forall in Hnul. apply Hnul.
        rewrite Hl, Etodo. apply list_elem_of_In.
        apply in_or_app. right. apply in_or_app. right. by left. }
      assert (Hxnul : Ascii.eqb x NUL = false).
      { rewrite Forall_forall in Hnul. apply Hnul.
        rewrite Hl. apply list_elem_of_In.
        apply in_or_app. right. by left. }
      simpl in Hc. rewrite Hc. cbn [mbind option_bind]. rewrite Hxnul.
      assert (Hil : (i < length str)%nat) by lia.
      destruct (lookup_lt_is_Some_2 str i Hil) as [ci Eci].
      unfold poke at 1. rewrite Eci. cbn [mbind option_bind].
      assert (Hx0 : (rem ++ [y]) !! 0%nat = Some x).
      { destruct rem as [|r0 rem0]; simpl in Etodo; injection Etodo as -> _;
          reflexivity. }
      rewrite (remove_skip_spec remove y rem _ (<[i := x]> str) i offset);
        try done.
      2:{ rewrite list_lookup_insert_eq by done. by rewrite Hx0. }
      2:{ intros j Hj. rewrite list_lookup_insert_ne by lia.
          rewrite Hhigh by lia.
          replace (i + offset + j)%nat with (length done + j)%nat by lia.
          rewrite Hl, <- app_assoc, lookup_app_r by lia.
          replace (length done + j - length done)%nat with j by lia.
          rewrite Etodo, <- app_assoc. simpl.
          destruct (decide (j < length rem)%nat) as [Hjr|Hjr].
          - by rewrite !lookup_app_l by done.
          - rewrite !lookup_app_r by lia.
            replace (j - length rem)%nat with 0%nat by lia. done. }
      2:{ rewrite length_insert.
          assert (length rem <= length l)%nat; [|lia].
          rewrite Hl, Etodo, !length_app. lia. }
      cbn [mbind option_bind]. rewrite list_insert_insert_eq.
      set (str2 := <[i := y]> str).
      assert (Hc2 : str2 !! (i + (offset + length rem))%nat = Some y).
      { unfold str2. destruct (decide (offset + length rem = 0)%nat) as [H0|H0].
        - rewrite H0, Nat.add_0_r. by rewrite list_lookup_insert_eq.
        - rewrite list_lookup_insert_ne by lia. rewrite Hhigh by lia.
          replace (i + (offset + length rem))%nat
            with (length done + length rem)%nat by lia.
          rewrite Hl, Etodo, <- app_assoc, lookup_app_r by lia.
          replace (length done + length rem - length done)%nat
            with (length rem) by lia.
          rewrite <- app_assoc, lookup_app_r by lia.
          by rewrite Nat.sub_diag. }
      rewrite Hc2. cbn [mbind option_bind]. rewrite Hynul.
      assert (Hk : kept_chars remove (done ++ rem ++ [y])
                   = kept_chars remove done ++ [y]).
      { rewrite !kept_chars_app, (kept_chars_run remove rem Hrem).
        unfold kept_chars at 2. simpl. by rewrite Hy. }
      destruct (IH (done ++ rem ++ [y]) rest str2 (S i)
                  (offset + length rem)%nat) as (str' & E & Hres).
      * rewrite Hl, Etodo, <- !app_assoc. done.
      * rewrite Hk, length_app. simpl. lia.
      * rewrite !length_app. simpl. lia.
      * lia.
      * unfold str2. by rewrite length_insert.
      * intros j Hj. rewrite Hk. unfold str2.
        destruct (decide (j = i)) as [->|Hji].
        -- rewrite list_lookup_insert_eq by done.
           rewrite lookup_app_r by lia. by rewrite Hi, Nat.sub_diag.
        -- rewrite list_lookup_insert_ne by done.
           rewrite Hlow by lia. rewrite lookup_app_l by lia. done.
      * intros j Hj. unfold str2.
        rewrite list_lookup_insert_ne by lia. apply Hhigh. lia.
      * exact Hrest.
      * exists str'. split; [exact E|exact Hres].
Qed.

End RemoveLoop.

Lemma cstring_text (l rest : list ascii) :
  Forall (fun c => Ascii.eqb c NUL = false) l ->
  exists text, cstring (l ++ NUL :: rest) = Some text /\
    String.length text = length l.
Proof.
  induction 1 as [|c l Hc _ (text & E & Hlen)]; simpl.
  - eauto.
  - rewrite Hc, E. simpl. eexists. split; [reflexivity|]. simpl. lia.
Qed.

Lemma remove_char_removed (remove : ascii) (l : list ascii) :
  Forall (fun c => Ascii.eqb c NUL = false) l ->
  last l <> Some remove ->
  remove_char (l ++ [NUL]) remove = Some (removed remove l ++ [NUL]).
Proof.
  intros Hnul Hlast. unfold remove_char, cstr_at. rewrite drop_0.
  destruct (cstring_text l [] Hnul) as (text & -> & Hlen).
  cbn [mbind option_bind]. rewrite Hlen.
  destruct (remove_loop_spec remove l Hnul (length l) [] l (l ++ [NUL]) 0 0)
    as (str' & E & Hlen' & Hlow & Hhigh); try done.
  - simpl. lia.
  - rewrite length_app. simpl. lia.
  - intros j Hj. lia.
  - destruct l; [by left|by right].
  - rewrite E. f_equal. apply list_eq. intros j.
    pose proof (kept_chars_length remove l) as Hk. unfold removed.
    destruct (decide (j < length (kept_chars remove l))%nat) as [Hj|Hj].
    + rewrite Hlow by done. rewrite <- app_assoc, lookup_app_l by done. done.
    + rewrite Hhigh by lia. rewrite <- app_assoc.
      rewrite (lookup_app_r (kept_chars remove l)) by lia.
      rewrite <- (take_drop (length (kept_chars remove l)) l) at 1.
      rewrite <- app_assoc.
      rewrite (lookup_app_r (take _ l)) by (rewrite length_take; lia).
      rewrite length_take. f_equal. lia.
Qed.

Lemma list_ascii_length (s : string) :
  length (list_ascii_of_string s) = String.length s.
Proof. induction s as [|c s IH]; simpl; [done|]. by rewrite IH. Qed.

(** X24.  On a line that does not end with the character,
    [remove_char] returns, and the buffer then holds the characters
    of the line other than the one removed, in their order, followed
    by the end of the line as it was: the line keeps its length, and
    as many of its last characters stay behind the ones kept as
    characters were removed.  A line without the character is left
    as it is. *)
Theorem remove_char_result (remove : ascii) (line : string) :
  Forall (fun c => Ascii.eqb c NUL = false) (list_ascii_of_string line) ->
  last (list_ascii_of_string line) <> Some remove ->
  remove_char (line_buffer line) remove
  = Some (removed remove (list_ascii_of_string line) ++ [NUL]) /\
  length (removed remove (list_ascii_of_string line))
  = String.length line /\
  (Forall (fun c => c <> remove) (list_ascii_of_string line) ->
   removed remove (list_ascii_of_string line) = list_ascii_of_string line).
Proof.
  intros Hnul Hlast. unfold line_buffer. split; [|split].
  - by apply remove_char_removed.
  - unfold removed. pose proof (kept_chars_length remove
                                  (list_ascii_of_string line)) as Hk.
    rewrite length_app, length_drop.
    rewrite <- (list_ascii_length line). lia.
  - intros Hno. unfold removed.
    assert (Hk : kept_chars remove (list_ascii_of_string line)
                 = list_ascii_of_string line).
    { clear Hnul Hlast. induction Hno as [|c l Hc _ IH]; [done|].
      unfold kept_chars. simpl. apply Ascii.eqb_neq in Hc. rewrite Hc.
      simpl. f_equal. exact IH. }
    rewrite Hk, drop_all. apply app_nil_r.
Qed.

(** ** The properties above on concrete inputs *)

Lemma sort_wrapper_sorts_witness :
  exists l',
    sort_wrapper "d" [sample_task 0 (Some "B"%string) 0; sample_task 1 None 7;
                      sample_task 2 (Some "A"%string) 3] = Some l' /\
    index <$> l' = [2; 1; 0] /\ ordered "d" l'.
Proof.
  destruct (sort_wrapper_sorts "d"
              [sample_task 0 (Some "B"%string) 0; sample_task 1 None 7;
               sample_task 2 (Some "A"%string) 3]) as (l' & E & _ & Ho).
  - discriminate.
  - exists l'. split; [exact E|]. split; [|exact Ho].
    vm_compute in E. injection E as <-. reflexivity.
Defined.

Lemma swap_tasks_twice_witness :
  let l := [sample_task 0 None 0; sample_task 1 None 0; sample_task 2 None 0] in
  exists l', swap_tasks 0 2 l = Some l' /\ swap_tasks 0 2 l' = Some l.
Proof.
  intros l. destruct (swap_tasks_twice 0 2 l) as (l' & E1 & E2 & _).
  - simpl. lia.
  - simpl. lia.
  - exists l'. split; [exact E1|exact E2].
Defined.

Lemma filter_tasks_counts_witness :
  let s := sample_state [described 0 (Some "A"%string) "alpha";
                         described 1 (Some "B"%string) "beta"] 0 None in
  exists s',
    filter_tasks (posix := sample_regex)
      (mk_filter FILTER_PROJECT (Some "B"%string)) s = Some s' /\
    taskcount s' = count_visible (head s') /\
    totaltaskcount s' = 2.
Proof.
  intros s.
  destruct (filter_tasks_counts (posix := sample_regex)
              (mk_filter FILTER_PROJECT (Some "B"%string)) s)
    as (s' & E & _ & _ & Htc & Htot & _).
  - right. eexists. reflexivity.
  - exists s'. split; [exact E|]. split; [exact Htc|exact Htot].
Defined.

Lemma filter_clear_shows_all_witness :
  let s := sample_state [set_is_filtered false (described 0 None "alpha");
                         described 1 None "beta"] 0 None in
  exists s',
    filter_tasks (posix := sample_regex) (mk_filter FILTER_CLEAR None) s
    = Some s' /\
    head s' = [described 0 None "alpha"; described 1 None "beta"] /\
    taskcount s' = 2.
Proof.
  intros s.
  destruct (filter_clear_shows_all (posix := sample_regex)
              (mk_filter FILTER_CLEAR None) s)
    as (s' & E & Hh & Htc & _).
  - reflexivity.
  - exists s'. split; [exact E|]. split; [exact Hh|exact Htc].
Defined.

Lemma filter_replaces_without_persistence_witness :
  let s0 := mk_state "n" 0 1 0 None 0 80 24 2 2 []
              [described 0 (Some "A"%string) "alpha";
               described 1 (Some "B"%string) "beta"] EmptyString in
  let F1 := mk_filter FILTER_PROJECT (Some "A"%string) in
  let F2 := mk_filter FILTER_DESCRIPTION (Some "beta"%string) in
  exists s1 s2 s2',
    filter_tasks (posix := sample_regex) F1 s0 = Some s1 /\
    filter_tasks (posix := sample_regex) F2 s1 = Some s2 /\
    filter_tasks (posix := sample_regex) F2 s0 = Some s2' /\
    head s2 = head s2'.
Proof.
  intros s0 F1 F2.
  destruct (filter_replaces_without_persistence (posix := sample_regex)
              F1 F2 s0) as (s1 & s2 & s2' & E1 & E2 & E3 & Hh & _).
  - right. eexists. reflexivity.
  - right. eexists. reflexivity.
  - left. reflexivity.
  - exists s1, s2, s2'. split; [exact E1|]. split; [exact E2|].
    split; [exact E3|exact Hh].
Defined.


Lemma sel_task_selects_witness :
  let s := sample_state [set_is_filtered false (described 0 None "alpha");
                         described 1 None "beta"; described 2 None "gamma"]
             1 None in
  exists p t, sel_task s = Some p /\ head s !! p = Some t /\
    is_filtered t = true /\ count_visible (take p (head s)) = 1.
Proof.
  intros s. apply (proj1 (sel_task_selects s ltac:(vm_compute; discriminate))).
  vm_compute. split; [discriminate|reflexivity].
Defined.

Lemma search_finds_next_witness :
  let s := sample_state [described 0 None "alpha"; described 1 None "beta";
                         described 2 None "alps"] 0 (Some "al"%string) in
  find_next_search_result (posix := sample_regex) (sel_task s) s
  = Some (set_selline 2 s).
Proof.
  intros s.
  destruct (search_finds_next (posix := sample_regex) s 0 2 "al"
              (described 2 None "alps")) as (E & _).
  - reflexivity.
  - simpl. lia.
  - vm_compute. discriminate.
  - reflexivity.
  - reflexivity.
  - reflexivity.
  - reflexivity.
  - discriminate.
  - intros i t Hi Ht _. unfold passed in Hi.
    rewrite decide_True in Hi by lia.
    assert (i = 1%nat) as -> by lia. injection Ht as <-. reflexivity.
  - exact E.
Defined.

Lemma check_curs_pos_idempotent_witness :
  let s := sample_state [described 0 None "a"; described 1 None "b"] 7 None in
  check_curs_pos (check_curs_pos s) = check_curs_pos s.
Proof.
  intros s. apply (check_curs_pos_idempotent s).
  - simpl. lia.
  - unfold is_short. simpl. lia.
  - simpl. lia.
Defined.

Lemma key_scroll_step_witness :
  let s := sample_state [described 0 None "a"; described 1 None "b";
                         described 2 None "c"] 1 None in
  selline (key_scroll (-1) (key_scroll 1 s)) = 1.
Proof.
  intros s.
  destruct (key_scroll_step s) as (_ & _ & _ & _ & _ & _ & H & _).
  - unfold in_view, onscreentasks. rewrite to_short_id by (simpl; lia).
    simpl. lia.
  - simpl. lia.
  - simpl. lia.
  - apply H. simpl. lia.
Defined.

Lemma max_project_length_bound_witness :
  let s := sample_state [described 0 (Some "home"%string) "a";
                         described 1 None "b";
                         described 2 (Some "work"%string) "c"] 0 None in
  1 <= max_project_length s <= 127.
Proof.
  intros s. apply (max_project_length_bound s).
  intros t p Ht Hp.
  repeat (apply elem_of_cons in Ht as [->|Ht];
          [first [injection Hp as <-; vm_compute; discriminate
                 |discriminate Hp]|]).
  by apply elem_of_nil in Ht.
Defined.

Lemma pad_string_text_witness :
  exists ret,
    pad_string "water the plants" 12 0 1 "l" = Some (Some ret) /\
    Z.of_nat (String.length ret) = 13.
Proof.
  destruct (pad_string_text "water the plants" 12 0 1 "l")
    as (ret & E & _ & Hlen & _).
  - lia.
  - lia.
  - lia.
  - lia.
  - right. lia.
  - exists ret. split; [exact E|exact Hlen].
Defined.

Lemma print_task_list_page_witness :
  let s := sample_state [described 0 (Some "home"%string) "water the plants";
                         set_is_filtered false (described 1 None "hidden");
                         described 2 None "pay rent"] 1 None in
  print_task_list (clock := sample_clock) 5 20 10 s []
  = draw_page (clock := sample_clock)
      [described 0 (Some "home"%string) "water the plants";
       described 2 None "pay rent"] 5 20 10 s 0 [].
Proof.
  intros s. apply (print_task_list_page (clock := sample_clock) 5 20 10 s []).
  - simpl. lia.
  - vm_compute. discriminate.
  - simpl. lia.
Defined.

Lemma print_task_list_rows_witness :
  let s := sample_state [described 0 (Some "home"%string) "water the plants";
                         described 1 None "pay rent"] 1 None in
  print_task_list (clock := sample_clock) 5 20 10 s []
  = Some (rows_of (clock := sample_clock) (page_of s) 5 20 10 s 0).
Proof.
  intros s.
  destruct (print_task_list_rows (clock := sample_clock) 5 20 10 s [])
    as [H _]; [| | | | | | |exact H].
  - simpl. lia.
  - vm_compute. discriminate.
  - simpl. lia.
  - lia.
  - lia.
  - lia.
  - intros t Ht _.
    repeat (apply elem_of_cons in Ht as [->|Ht];
            [split; [vm_compute; discriminate|eexists; reflexivity]|]).
    by apply elem_of_nil in Ht.
Defined.

Lemma print_task_list_without_projects_witness :
  let s := sample_state [described 0 None "water the plants";
                         described 1 None "pay rent"] 0 None in
  print_task_list (clock := sample_clock) (max_project_length s) 20 10 s []
  = None.
Proof.
  intros s.
  destruct (print_task_list_without_projects (clock := sample_clock)
              20 10 s []) as [_ H]; [| | | | |exact H].
  - simpl. lia.
  - vm_compute. discriminate.
  - simpl. lia.
  - intros t p Ht Hp.
    repeat (apply elem_of_cons in Ht as [->|Ht]; [discriminate Hp|]).
    by apply elem_of_nil in Ht.
  - discriminate.
Defined.


Lemma get_tasks_loaded_witness :
  let lines := [quoted "{'description':'d1','uuid':'u1','project':'B'}";
                quoted "{'description':'d2','uuid':'u2','project':'A'}"] in
  exists l, sample_get_tasks "p" lines = Some l /\ Forall loaded l /\
    length l = 2%nat.
Proof.
  intros lines.
  destruct (sample_get_tasks "p" lines) as [l|] eqn:E;
    [|vm_compute in E; discriminate E].
  destruct (get_tasks_loaded (config := sample_config) (libc := sample_libc)
              "p" lines l E) as [Hl Hn].
  exists l. split; [reflexivity|]. split; [exact Hl|].
  apply Hn.
  - vm_compute in E. injection E as <-. discriminate.
  - simpl. lia.
Defined.

Lemma nc_main_reload_refilters_witness :
  let lines := [quoted "{'description':'d1','uuid':'u1','project':'B'}";
                quoted "{'description':'d2','uuid':'u2','project':'A'}"] in
  let F1 := mk_filter FILTER_PROJECT (Some "A"%string) in
  let F2 := mk_filter FILTER_DESCRIPTION (Some "zzz"%string) in
  let s := set_active_filters [F1; F2] (sample_state [] 0 None) in
  exists s',
    nc_main_reload (posix := sample_regex) (config := sample_config)
      (libc := sample_libc) lines s = Some s' /\
    is_filtered <$> head s' = [false; true] /\
    active_filters s' = [F1; F2].
Proof.
  intros lines F1 F2 s.
  destruct (get_tasks (config := sample_config) (libc := sample_libc)
              (cfg_sortmode s) lines) as [l|] eqn:E;
    [|vm_compute in E; discriminate E].
  destruct (nc_main_reload_refilters (posix := sample_regex)
              (config := sample_config) (libc := sample_libc) lines s l E)
    as [_ H].
  destruct (H F1 [F2]) as (s' & E' & _ & _ & _ & _ & Haf).
  - reflexivity.
  - right. eexists. reflexivity.
  - discriminate.
  - exists s'. split; [exact E'|]. split; [|exact Haf].
    vm_compute in E'. injection E' as <-. reflexivity.
Defined.

Lemma remove_char_result_witness :
  remove_char (line_buffer "a\b") "\"
  = Some (list_ascii_of_string "abb" ++ [NUL]).
Proof.
  destruct (remove_char_result "\" "a\b") as (E & _).
  - repeat constructor.
  - intros H. vm_compute in H. discriminate H.
  - exact E.
Defined.
